(** * TaskManager (script.js): a shallow embedding and its verified properties

    The task store, the quick-text parser and the derived views of
    [class TaskManager] are transcribed as executable Rocq functions.

    Conventions of the model.
    - A JavaScript string is a [string]: a sequence of code units below 256.
    - [Date.now()] is an integer number of milliseconds since the epoch ([Z]);
      a [Date] object is its time value.  Local time is UTC plus a constant
      offset [tz], in minutes; where the program moves a date by a
      calendar day and reads the UTC date of the result ([parseQuickTask])
      the zone is a [JsDate.Zone], whose offset may change with the date.
    - A number is a rational ([Q]), an integer where the program only has
      integers ([Z]); NaN is [None].  [Math.random()] is a binary64 value
      in [0,1), passed in by the caller, and the sum that makes an id is
      rounded to binary64 ([Double.round]).
    - One event handler runs against one reading of the clock.
    - The page is reduced to what the handlers read from it (passed in as
      arguments) and to the toasts and calendar cells they write; the
      emoji of two toast messages are left out. *)

From Stdlib Require Import ZArith QArith Bool List Ascii String Lia Permutation
  Sorted.
Import ListNotations.

Local Open Scope string_scope.
Local Open Scope Z_scope.

(** ** Strings *)

Module Str.

Definition code (c : ascii) : Z := Z.of_N (N_of_ascii c).

Definition inRange (lo hi : Z) (c : ascii) : bool :=
  (lo <=? code c) && (code c <=? hi).

(** [\w] of a regular expression without the unicode flag. *)
Definition isWordChar (c : ascii) : bool :=
  inRange 97 122 c || inRange 65 90 c || inRange 48 57 c || (code c =? 95).

(** WhiteSpace and LineTerminator code units, as [String.prototype.trim]
    strips them: TAB, LF, VT, FF, CR, SP and NBSP. *)
Definition isSpace (c : ascii) : bool :=
  inRange 9 13 c || (code c =? 32) || (code c =? 160).

(** [toLowerCase] on one code unit: A-Z, and the Latin-1 capitals
    192..222 apart from the multiplication sign 215. *)
Definition lowerChar (c : ascii) : ascii :=
  if inRange 65 90 c || (inRange 192 222 c && negb (code c =? 215))
  then ascii_of_N (N_of_ascii c + 32) else c.

Fixpoint toLowerCase (s : string) : string :=
  match s with
  | EmptyString => EmptyString
  | String c r => String (lowerChar c) (toLowerCase r)
  end.

Fixpoint trimStart (s : string) : string :=
  match s with
  | EmptyString => EmptyString
  | String c r => if isSpace c then trimStart r else s
  end.

Fixpoint trimEnd (s : string) : string :=
  match s with
  | EmptyString => EmptyString
  | String c r =>
      let r' := trimEnd r in
      if isSpace c && (r' =? "")%string then "" else String c r'
  end.

Definition trim (s : string) : string := trimEnd (trimStart s).

Fixpoint drop (n : nat) (s : string) : string :=
  match n, s with
  | O, _ => s
  | S k, String _ r => drop k r
  | S _, EmptyString => EmptyString
  end.

Fixpoint take (n : nat) (s : string) : string :=
  match n, s with
  | S k, String c r => String c (take k r)
  | _, _ => EmptyString
  end.

(** [s.startsWith(p)]. *)
Fixpoint startsWith (p s : string) : bool :=
  match p, s with
  | EmptyString, _ => true
  | String a p', String b s' => Ascii.eqb a b && startsWith p' s'
  | String _ _, EmptyString => false
  end.

(** A literal pattern of ASCII letters under the [i] flag: a code unit of
    the subject matches a pattern letter when both have the same ASCII
    case folding (no code unit above 127 folds to an ASCII letter). *)
Definition foldAscii (c : ascii) : ascii :=
  if inRange 65 90 c then ascii_of_N (N_of_ascii c + 32) else c.

Fixpoint startsWithCI (p s : string) : bool :=
  match p, s with
  | EmptyString, _ => true
  | String a p', String b s' =>
      Ascii.eqb (foldAscii a) (foldAscii b) && startsWithCI p' s'
  | String _ _, EmptyString => false
  end.

(** [s.includes(p)]. *)
Fixpoint includes (p s : string) : bool :=
  startsWith p s ||
  match s with
  | EmptyString => false
  | String _ r => includes p r
  end.

(** [s.replace(p, '')] for a string pattern [p]: the first occurrence of
    [p] is removed. *)
Fixpoint removeFirst (p s : string) : string :=
  if startsWith p s then drop (String.length p) s
  else match s with
       | EmptyString => EmptyString
       | String c r => String c (removeFirst p r)
       end.

(** [s.replace(/p/gi, '')] for a literal pattern [p] of ASCII letters:
    every match, found left to right without overlap, is removed.
    [skip] counts the code units of the current match still to drop. *)
Fixpoint removeAllCI_from (p : string) (skip : nat) (s : string) : string :=
  match s with
  | EmptyString => EmptyString
  | String c r =>
      match skip with
      | S k => removeAllCI_from p k r
      | O =>
          if startsWithCI p s && negb (p =? "")%string
          then removeAllCI_from p (String.length p - 1) r
          else String c (removeAllCI_from p 0 r)
      end
  end.

Definition removeAllCI (p s : string) : string := removeAllCI_from p 0 s.

(** The longest prefix of word characters: what [\w+] consumes. *)
Fixpoint wordPrefix (s : string) : string :=
  match s with
  | String c r => if isWordChar c then String c (wordPrefix r) else ""
  | EmptyString => ""
  end.

(** [s.split(',')]. *)
Fixpoint split_comma_from (cur : string) (s : string) : list string :=
  match s with
  | EmptyString => [cur]
  | String c r =>
      if (code c =? 44) then cur :: split_comma_from "" r
      else split_comma_from (cur ++ String c "") r
  end.

Definition split_comma (s : string) : list string := split_comma_from "" s.

Definition head (s : string) : option ascii :=
  match s with
  | EmptyString => None
  | String c _ => Some c
  end.

(** A string is truthy when it is not empty. *)
Definition truthy (s : string) : bool := negb (s =? "")%string.

(** [a || b] on strings. *)
Definition or_else (a b : string) : string := if truthy a then a else b.

End Str.

(** ** Regular expressions of the quick-text parser *)

Module Regex.
Import Str.

Definition isWordOpt (c : option ascii) : bool :=
  match c with
  | Some a => isWordChar a
  | None => false
  end.

(** [\b] between the code unit before the position and the one at it. *)
Definition wordBoundary (prev next : option ascii) : bool :=
  xorb (isWordOpt prev) (isWordOpt next).

(** One alternative of [/\b(high|medium|low) priority\b/i], tried at a
    position where the leading [\b] holds: returns the matched text and
    the text of group 1. *)
Definition priorityAlt (w s : string) : option (string * string) :=
  let pat := w ++ " priority" in
  let n := String.length pat in
  if startsWithCI pat s
     && wordBoundary (head (drop (n - 1) s)) (head (drop n s))
  then Some (take n s, take (String.length w) s)
  else None.

Definition priorityAt (prev : option ascii) (s : string)
  : option (string * string) :=
  if wordBoundary prev (head s) then
    match priorityAlt "high" s with
    | Some r => Some r
    | None =>
        match priorityAlt "medium" s with
        | Some r => Some r
        | None => priorityAlt "low" s
        end
    end
  else None.

(** [text.match(/\b(high|medium|low) priority\b/i)]: the leftmost match,
    as (whole match, group 1). *)
Fixpoint priorityFrom (prev : option ascii) (s : string)
  : option (string * string) :=
  match priorityAt prev s with
  | Some r => Some r
  | None =>
      match s with
      | EmptyString => None
      | String c r => priorityFrom (Some c) r
      end
  end.

Definition matchPriority (text : string) : option (string * string) :=
  priorityFrom None text.

(** [s.match(/#(\w+)/)]: group 1 of the leftmost match; the whole match
    is ["#"] followed by it. *)
Fixpoint matchHash (s : string) : option string :=
  match s with
  | EmptyString => None
  | String c r =>
      if (code c =? 35) && negb (wordPrefix r =? "")%string
      then Some (wordPrefix r)
      else matchHash r
  end.

(** [s.match(/#(\w+)/g) || []]: every whole match, left to right. *)
Fixpoint matchAllHash_from (skip : nat) (s : string) : list string :=
  match s with
  | EmptyString => []
  | String c r =>
      match skip with
      | S k => matchAllHash_from k r
      | O =>
          if (code c =? 35) && negb (wordPrefix r =? "")%string
          then String c (wordPrefix r)
               :: matchAllHash_from (String.length (wordPrefix r)) r
          else matchAllHash_from 0 r
      end
  end.

Definition matchAllHash (s : string) : list string := matchAllHash_from 0 s.

(** [s.replace(/#(\w+)/g, '')]. *)
Fixpoint removeAllHash_from (skip : nat) (s : string) : string :=
  match s with
  | EmptyString => EmptyString
  | String c r =>
      match skip with
      | S k => removeAllHash_from k r
      | O =>
          if (code c =? 35) && negb (wordPrefix r =? "")%string
          then removeAllHash_from (String.length (wordPrefix r)) r
          else String c (removeAllHash_from 0 r)
      end
  end.

Definition removeAllHash (s : string) : string := removeAllHash_from 0 s.

End Regex.

(** ** Dates

    The time value of a [Date] is a number of milliseconds since
    1970-01-01T00:00:00Z.  Days are converted to and from the proleptic
    Gregorian calendar the way ECMAScript's Day/YearFromTime/MonthFromTime/
    DateFromTime/MakeDay do. *)

Module JsDate.

Definition msPerDay : Z := 86400000.
Definition msPerMinute : Z := 60000.

(** Day number of a time value. *)
Definition Day (t : Z) : Z := t / msPerDay.

(** Days since the epoch of year [y], month [m] in 1..12, day [d]. *)
Definition days_from_civil (y m d : Z) : Z :=
  let y' := if m <=? 2 then y - 1 else y in
  let era := y' / 400 in
  let yoe := y' - era * 400 in
  let mp := if 2 <? m then m - 3 else m + 9 in
  let doy := (153 * mp + 2) / 5 + d - 1 in
  let doe := yoe * 365 + yoe / 4 - yoe / 100 + doy in
  era * 146097 + doe - 719468.

(** Year, month (1..12) and day of the month of a day number. *)
Definition civil_from_days (z : Z) : Z * Z * Z :=
  let z' := z + 719468 in
  let era := z' / 146097 in
  let doe := z' - era * 146097 in
  let yoe := (doe - doe / 1460 + doe / 36524 - doe / 146096) / 365 in
  let doy := doe - (365 * yoe + yoe / 4 - yoe / 100) in
  let mp := (5 * doy + 2) / 153 in
  let d := doy - (153 * mp + 2) / 5 + 1 in
  let m := if mp <? 10 then mp + 3 else mp - 9 in
  ((if m <=? 2 then yoe + era * 400 + 1 else yoe + era * 400), m, d).

(** Local time value of a time value, [tz] minutes east of UTC. *)
Definition LocalTime (tz t : Z) : Z := t + tz * msPerMinute.
Definition UTC (tz t : Z) : Z := t - tz * msPerMinute.

Definition getFullYear (tz t : Z) : Z :=
  let '(y, _, _) := civil_from_days (Day (LocalTime tz t)) in y.

(** [getMonth()]: 0..11. *)
Definition getMonth (tz t : Z) : Z :=
  let '(_, m, _) := civil_from_days (Day (LocalTime tz t)) in m - 1.

Definition getDate (tz t : Z) : Z :=
  let '(_, _, d) := civil_from_days (Day (LocalTime tz t)) in d.

(** [getDay()]: 0 is Sunday; the epoch was a Thursday. *)
Definition getDay (tz t : Z) : Z := (Day (LocalTime tz t) + 4) mod 7.

(** [new Date(year, month, day)]: local midnight of the day reached from
    the first of month [month] (0-based, any integer) of [year] by
    [day - 1] days; a year in 0..99 stands for 1900 + year. *)
Definition fromLocal (tz year month day : Z) : Z :=
  let yr := if (0 <=? year) && (year <=? 99) then 1900 + year else year in
  let ym := yr + month / 12 in
  let mn := month mod 12 in
  UTC tz ((days_from_civil ym (mn + 1) 1 + (day - 1)) * msPerDay).

Definition digit (n : Z) : ascii := ascii_of_N (Z.to_N (48 + n mod 10)).

Definition pad2 (n : Z) : string :=
  String (digit (n / 10)) (String (digit n) "").

Definition pad4 (n : Z) : string := pad2 (n / 100) ++ pad2 n.

Definition pad6 (n : Z) : string := pad2 (n / 10000) ++ pad4 n.

(** The year of [toISOString]: four digits in 0..9999, otherwise a sign
    and six digits. *)
Definition isoYear (y : Z) : string :=
  if (0 <=? y) && (y <=? 9999) then pad4 y
  else if y <? 0 then "-" ++ pad6 (- y) else "+" ++ pad6 y.

(** [date.toISOString().split('T')[0]]: the UTC calendar date. *)
Definition isoDate (t : Z) : string :=
  let '(y, m, d) := civil_from_days (Day t) in
  isoYear y ++ "-" ++ pad2 m ++ "-" ++ pad2 d.

(** [date.toDateString()] compared for equality: the local calendar
    date. *)
Definition sameLocalDay (tz t1 t2 : Z) : bool :=
  Day (LocalTime tz t1) =? Day (LocalTime tz t2).

Definition isDigit (c : ascii) : bool := Str.inRange 48 57 c.

Definition digitVal (c : ascii) : Z := Str.code c - 48.

Definition daysInMonth (y m : Z) : Z :=
  (if m =? 12 then days_from_civil (y + 1) 1 1
   else days_from_civil y (m + 1) 1) - days_from_civil y m 1.

(** [new Date(s)] for a date-only ISO string YYYY-MM-DD naming a day of
    the calendar: UTC midnight of that day.  [None] is the Invalid Date;
    what engines make of other strings is not modelled here. *)
Definition parseIsoDate (s : string) : option Z :=
  match s with
  | String y1 (String y2 (String y3 (String y4 (String "-"
      (String m1 (String m2 (String "-" (String d1 (String d2
        EmptyString))))))))) =>
      if forallb isDigit [y1; y2; y3; y4; m1; m2; d1; d2] then
        let y := digitVal y1 * 1000 + digitVal y2 * 100
                 + digitVal y3 * 10 + digitVal y4 in
        let m := digitVal m1 * 10 + digitVal m2 in
        let d := digitVal d1 * 10 + digitVal d2 in
        if (1 <=? m) && (m <=? 12) && (1 <=? d) && (d <=? daysInMonth y m)
        then Some (days_from_civil y m d * msPerDay)
        else None
      else None
  | _ => None
  end.

(** A time zone whose offset may change with the date, as with daylight
    saving time: [offsetAt t] is the offset from UTC, in milliseconds, in
    force at the time value [t] ([LocalTZA(t, true)]), and
    [offsetOfLocal t] the offset with which the local time value [t] is
    read ([LocalTZA(t, false)]). *)
Record Zone := mkZone {
  offsetAt : Z -> Z;
  offsetOfLocal : Z -> Z
}.

(** The zone that is always [tz] minutes east of UTC. *)
Definition fixedZone (tz : Z) : Zone :=
  {| offsetAt := fun _ => tz * msPerMinute;
     offsetOfLocal := fun _ => tz * msPerMinute |}.

Definition localTimeIn (z : Zone) (t : Z) : Z := t + offsetAt z t.
Definition utcIn (z : Zone) (t : Z) : Z := t - offsetOfLocal z t.

(** [getDate()] in a zone. *)
Definition getDateIn (z : Zone) (t : Z) : Z :=
  let '(_, _, d) := civil_from_days (Day (localTimeIn z t)) in d.

(** [date.setDate(date)] in a zone: the local date with its day of the
    month replaced and the local time of day kept, read back with the
    offset of the zone at that local time; a day past the end of the
    month runs on into the next month. *)
Definition setDateIn (z : Zone) (t date : Z) : Z :=
  let lt := localTimeIn z t in
  let '(y, m, _) := civil_from_days (Day lt) in
  utcIn z ((days_from_civil y m 1 + (date - 1)) * msPerDay
           + lt mod msPerDay).

End JsDate.

(** ** Quick-text parser *)

Record QuickTask := {
  q_title : string;
  q_priority : string;
  q_category : string;
  q_dueDate : string;
  q_tags : list string
}.

(** [parseQuickTask(text)], run in the time zone [zone] when the clock
    reads [now]. *)
Definition parseQuickTask (zone : JsDate.Zone) (now : Z) (text : string)
  : QuickTask :=
  let today := JsDate.isoDate now in
  let title := text in
  let priority := "medium" in
  let category := "personal" in
  let dueDate := "" in
  let '(priority, title) :=
    match Regex.matchPriority text with
    | Some (m0, m1) => (Str.toLowerCase m1, Str.trim (Str.removeFirst m0 title))
    | None => (priority, title)
    end in
  let '(category, title) :=
    match Regex.matchHash title with
    | Some w => (Str.toLowerCase w, Str.trim (Str.removeFirst ("#" ++ w) title))
    | None => (category, title)
    end in
  let tagMatches := Regex.matchAllHash title in
  let tags := map (Str.drop 1) tagMatches in
  let title := Str.trim (Regex.removeAllHash title) in
  let '(dueDate, title) :=
    if Str.includes "today" (Str.toLowerCase title)
    then (today, Str.trim (Str.removeAllCI "today" title))
    else (dueDate, title) in
  let '(dueDate, title) :=
    if Str.includes "tomorrow" (Str.toLowerCase title)
    then
      let tomorrow :=
        JsDate.setDateIn zone now (JsDate.getDateIn zone now + 1) in
      (JsDate.isoDate tomorrow, Str.trim (Str.removeAllCI "tomorrow" title))
    else (dueDate, title) in
  {| q_title := title; q_priority := priority; q_category := category;
     q_dueDate := dueDate; q_tags := tags |}.

(** ** Tasks

    A task object with the types its attributes have throughout the
    program: [''] is the absent due date or time, [None] is [null]. *)

Record Task := mkTask {
  id : Q;
  title : string;
  description : string;
  completed : bool;
  priority : string;
  category : string;
  dueDate : string;
  dueTime : string;
  tags : list string;
  createdAt : Z;
  completedAt : option Z
}.

(** The result of an arithmetic operation on numbers is the IEEE 754
    binary64 value nearest to the exact result, a tie going to the value
    with an even significand. *)
Module Double.

(** [floor (log2 (n / d))] for positive [n] and [d]. *)
Definition floorLog2 (n d : Z) : Z :=
  let e := Z.log2 n - Z.log2 d in
  if (if 0 <=? e then d * 2 ^ e <=? n else d <=? n * 2 ^ (- e))
  then e else e - 1.

(** The integer nearest to [n / d], for positive [d]; of two nearest
    integers the even one. *)
Definition roundHalfEven (n d : Z) : Z :=
  let q := n / d in
  match 2 * (n mod d) ?= d with
  | Lt => q
  | Gt => q + 1
  | Eq => if Z.even q then q else q + 1
  end.

(** The binary64 value nearest to [x]: a multiple of [2 ^ k], where [k] is
    52 below the binary exponent of [x] and not below that of the
    subnormal numbers.  The numbers of the program stay far below the
    largest binary64 value, beyond which rounding gives [Infinity]. *)
Definition round (x : Q) : Q :=
  let n := Z.abs (Qnum x) in
  let d := Z.pos (Qden x) in
  if n =? 0 then 0%Q
  else
    let k := Z.max (floorLog2 n d) (- 1022) - 52 in
    let v :=
      if 0 <=? k
      then inject_Z (roundHalfEven n (d * 2 ^ k) * 2 ^ k)
      else Qmake (roundHalfEven (n * 2 ^ (- k)) d) (Z.to_pos (2 ^ (- k))) in
    Qred (if Qnum x <? 0 then (- v)%Q else v).

End Double.

(** [Date.now() + Math.random()]: the sum of the integer [now] and of the
    draw [rnd], a binary64 value in [0,1), rounded to binary64. *)
Definition freshId (now : Z) (rnd : Q) : Q :=
  Double.round (inject_Z now + rnd)%Q.

(** [t.id === parseFloat(id)]: [key] is the number [parseFloat] returns,
    [None] when it is NaN. *)
Definition sameId (key : option Q) (t : Task) : bool :=
  match key with
  | Some k => Qeq_bool (id t) k
  | None => false
  end.

(** ** Persisted payload

    What [JSON.parse] makes of the item stored under ['enhanced-tasks'],
    seen through the properties [loadTasks] reads.  A property is [None]
    when it is missing or [null]; a present property has the JSON type of
    the task attribute it feeds, except [tags], which the loader accepts
    as an array or as text. *)

Inductive JsonTags :=
| TagsArray (l : list string)
| TagsText (s : string)
| TagsOther (truthy : bool).   (* a number, a boolean or an object *)

Record Entry := mkEntry {
  e_id : option Q;
  e_title : option string;
  e_text : option string;
  e_description : option string;
  e_completed : option bool;
  e_priority : option string;
  e_category : option string;
  e_dueDate : option string;
  e_date : option string;
  e_dueTime : option string;
  e_time : option string;
  e_tags : option JsonTags;
  e_createdAt : option Z;
  e_completedAt : option Z
}.

(** A missing or empty item reads as ['[]']: [Entries []]. *)
Inductive Saved :=
| Unparseable                         (* JSON.parse throws *)
| NotAnArray                          (* parsed, but [saved.map] is missing *)
| Entries (l : list (option Entry)).  (* an array; [None] is a null element *)

(** [a || b] where [a] may be missing. *)
Definition strOr (a : option string) (b : string) : string :=
  match a with
  | Some s => Str.or_else s b
  | None => b
  end.

Definition boolOr (a : option bool) (b : bool) : bool :=
  match a with
  | Some true => true
  | _ => b
  end.

Definition idOr (a : option Q) (b : Q) : Q :=
  match a with
  | Some q => if Qeq_bool q 0 then b else q
  | None => b
  end.

Definition numOr (a : option Z) (b : Z) : Z :=
  match a with
  | Some n => if n =? 0 then b else n
  | None => b
  end.

(** [a || null]. *)
Definition numOrNull (a : option Z) : option Z :=
  match a with
  | Some n => if n =? 0 then None else Some n
  | None => None
  end.

(** The [tags] expression of [loadTasks]; [None] is the TypeError raised by
    calling [split] on a truthy value that is not a string. *)
Definition loadTags (t : option JsonTags) : option (list string) :=
  match t with
  | Some (TagsArray l) => Some l
  | Some (TagsText s) =>
      if Str.truthy s then Some (map Str.trim (Str.split_comma s)) else Some []
  | Some (TagsOther true) => None
  | Some (TagsOther false) => Some []
  | None => Some []
  end.

(** The arrow function mapped over the parsed array; [None] is a thrown
    TypeError (a null element, or ill-typed tags). *)
Definition loadTask (now : Z) (rnd : Q) (e : option Entry) : option Task :=
  match e with
  | None => None
  | Some task =>
      match loadTags (e_tags task) with
      | None => None
      | Some tgs =>
          Some {| id := idOr (e_id task) (freshId now rnd);
                  title := strOr (e_title task) (strOr (e_text task) "");
                  description := strOr (e_description task) "";
                  completed := boolOr (e_completed task) false;
                  priority := strOr (e_priority task) "medium";
                  category := strOr (e_category task) "personal";
                  dueDate := strOr (e_dueDate task) (strOr (e_date task) "");
                  dueTime := strOr (e_dueTime task) (strOr (e_time task) "");
                  tags := tgs;
                  createdAt := numOr (e_createdAt task) now;
                  completedAt := numOrNull (e_completedAt task) |}
      end
  end.

(** [saved.map(...)], the [i]-th element drawing [rnd i]. *)
Fixpoint loadAll (now : Z) (rnd : nat -> Q) (i : nat) (l : list (option Entry))
  : option (list Task) :=
  match l with
  | [] => Some []
  | e :: r =>
      match loadTask now (rnd i) e with
      | None => None
      | Some t =>
          match loadAll now rnd (S i) r with
          | None => None
          | Some ts => Some (t :: ts)
          end
      end
  end.

(** [loadTasks()]: anything thrown inside the [try] block is caught and the
    empty list returned. *)
Definition loadTasks (now : Z) (rnd : nat -> Q) (saved : Saved) : list Task :=
  match saved with
  | Unparseable => []
  | NotAnArray => []
  | Entries l =>
      match loadAll now rnd 0 l with
      | Some ts => ts
      | None => []
      end
  end.

(** What [JSON.stringify(this.tasks)] parses back to. *)
Definition toEntry (t : Task) : option Entry :=
  Some {| e_id := Some (id t); e_title := Some (title t); e_text := None;
          e_description := Some (description t);
          e_completed := Some (completed t);
          e_priority := Some (priority t); e_category := Some (category t);
          e_dueDate := Some (dueDate t); e_date := None;
          e_dueTime := Some (dueTime t); e_time := None;
          e_tags := Some (TagsArray (tags t));
          e_createdAt := Some (createdAt t);
          e_completedAt := completedAt t |}.

(** ** The task manager

    The fields of [this], the item kept in [localStorage] and the toasts
    shown so far.  [currentEditingTask] is only ever read for its [id],
    which no method changes in place, so the reference is modelled by a
    copy.  No object is reachable from two places of [tasks]: [addTask],
    [updateTask] and [loadTasks] each store a freshly built object. *)

Record TaskManager := mkTaskManager {
  tasks : list Task;
  currentFilter : string;
  currentCategory : string;
  currentView : string;
  currentEditingTask : option Task;
  currentInputMode : string;
  calendarDate : Z;
  localStorage : Saved;
  storageWritable : bool;
  toasts : list (string * string)
}.

Definition setTasks (ts : list Task) (m : TaskManager) : TaskManager :=
  {| tasks := ts; currentFilter := currentFilter m;
     currentCategory := currentCategory m; currentView := currentView m;
     currentEditingTask := currentEditingTask m;
     currentInputMode := currentInputMode m; calendarDate := calendarDate m;
     localStorage := localStorage m; storageWritable := storageWritable m;
     toasts := toasts m |}.

(** [saveTasks()]: a failing [setItem] is caught and leaves the item as it
    was. *)
Definition saveTasks (m : TaskManager) : TaskManager :=
  if storageWritable m then
    {| tasks := tasks m; currentFilter := currentFilter m;
       currentCategory := currentCategory m; currentView := currentView m;
       currentEditingTask := currentEditingTask m;
       currentInputMode := currentInputMode m; calendarDate := calendarDate m;
       localStorage := Entries (map toEntry (tasks m));
       storageWritable := storageWritable m; toasts := toasts m |}
  else m.

Definition showToast (message type : string) (m : TaskManager) : TaskManager :=
  {| tasks := tasks m; currentFilter := currentFilter m;
     currentCategory := currentCategory m; currentView := currentView m;
     currentEditingTask := currentEditingTask m;
     currentInputMode := currentInputMode m; calendarDate := calendarDate m;
     localStorage := localStorage m; storageWritable := storageWritable m;
     toasts := (toasts m ++ [(message, type)])%list |}.

Definition closeModal (m : TaskManager) : TaskManager :=
  {| tasks := tasks m; currentFilter := currentFilter m;
     currentCategory := currentCategory m; currentView := currentView m;
     currentEditingTask := None;
     currentInputMode := currentInputMode m; calendarDate := calendarDate m;
     localStorage := localStorage m; storageWritable := storageWritable m;
     toasts := toasts m |}.

(** The constructor: [updateStats], [renderTasks] and [updateUI] only
    write to the page. *)
Definition newTaskManager (now : Z) (rnd : nat -> Q) (storage : Saved)
    (writable : bool) : TaskManager :=
  {| tasks := loadTasks now rnd storage;
     currentFilter := "all"; currentCategory := "all"; currentView := "list";
     currentEditingTask := None; currentInputMode := "quick";
     calendarDate := now;
     localStorage := storage; storageWritable := writable; toasts := [] |}.

(** The argument of [addTask]: [title] is read unconditionally, the other
    properties may be missing. *)
Record TaskData := mkTaskData {
  d_title : string;
  d_description : option string;
  d_priority : option string;
  d_category : option string;
  d_dueDate : option string;
  d_dueTime : option string;
  d_tags : option (list string)
}.

Definition taskOfData (now : Z) (rnd : Q) (taskData : TaskData) : Task :=
  {| id := freshId now rnd;
     title := Str.trim (d_title taskData);
     description :=
       match d_description taskData with
       | Some s => Str.or_else (Str.trim s) ""
       | None => ""
       end;
     completed := false;
     priority := strOr (d_priority taskData) "medium";
     category := strOr (d_category taskData) "personal";
     dueDate := strOr (d_dueDate taskData) "";
     dueTime := strOr (d_dueTime taskData) "";
     tags := match d_tags taskData with Some l => l | None => [] end;
     createdAt := now;
     completedAt := None |}.

(** [addTask(taskData)]; clearing the input boxes is left to the page. *)
Definition addTask (now : Z) (rnd : Q) (taskData : TaskData) (m : TaskManager)
  : bool * TaskManager :=
  let task := taskOfData now rnd taskData in
  if negb (Str.truthy (title task)) then
    (false, showToast "Task title cannot be empty." "error" m)
  else
    let m := setTasks (tasks m ++ [task])%list m in
    let m := saveTasks m in
    let m := showToast "Task added successfully!" "success" m in
    (true, m).

(** [tasks.findIndex(t => t.id === parseFloat(id))]; [None] is -1. *)
Fixpoint findIndex (key : option Q) (l : list Task) : option nat :=
  match l with
  | [] => None
  | t :: r =>
      if sameId key t then Some O
      else match findIndex key r with
           | Some i => Some (S i)
           | None => None
           end
  end.

(** [tasks.find(t => t.id === parseFloat(id))]. *)
Definition find (key : option Q) (l : list Task) : option Task :=
  List.find (sameId key) l.

(** The second argument of [updateTask]: the properties it carries. *)
Record Updates := mkUpdates {
  u_id : option Q;
  u_title : option string;
  u_description : option string;
  u_completed : option bool;
  u_priority : option string;
  u_category : option string;
  u_dueDate : option string;
  u_dueTime : option string;
  u_tags : option (list string);
  u_createdAt : option Z;
  u_completedAt : option (option Z)
}.

Definition orOld {A} (u : option A) (old : A) : A :=
  match u with
  | Some v => v
  | None => old
  end.

(** [{ ...task, ...updates }]. *)
Definition merge (t : Task) (u : Updates) : Task :=
  {| id := orOld (u_id u) (id t);
     title := orOld (u_title u) (title t);
     description := orOld (u_description u) (description t);
     completed := orOld (u_completed u) (completed t);
     priority := orOld (u_priority u) (priority t);
     category := orOld (u_category u) (category t);
     dueDate := orOld (u_dueDate u) (dueDate t);
     dueTime := orOld (u_dueTime u) (dueTime t);
     tags := orOld (u_tags u) (tags t);
     createdAt := orOld (u_createdAt u) (createdAt t);
     completedAt := orOld (u_completedAt u) (completedAt t) |}.

(** [l[i] = v] for an index inside the list. *)
Fixpoint setAt (i : nat) (v : Task) (l : list Task) : list Task :=
  match l, i with
  | [], _ => []
  | _ :: r, O => v :: r
  | t :: r, S k => t :: setAt k v r
  end.

(** [l.splice(i, 1)]. *)
Fixpoint removeAt (i : nat) (l : list Task) : list Task :=
  match l, i with
  | [], _ => []
  | _ :: r, O => r
  | t :: r, S k => t :: removeAt k r
  end.

(** [updateTask(id, updates)]. *)
Definition updateTask (key : option Q) (updates : Updates) (m : TaskManager)
  : bool * TaskManager :=
  match findIndex key (tasks m) with
  | None => (false, m)
  | Some taskIndex =>
      match nth_error (tasks m) taskIndex with
      | None => (false, m)
      | Some old =>
          let m := setTasks (setAt taskIndex (merge old updates) (tasks m)) m in
          let m := saveTasks m in
          let m := showToast "Task updated successfully!" "success" m in
          (true, closeModal m)
      end
  end.

(** [deleteTask(id)]; [confirmed] is the answer to [window.confirm]. *)
Definition deleteTask (confirmed : bool) (key : option Q) (m : TaskManager)
  : bool * TaskManager :=
  if negb confirmed then (false, m)
  else
    match findIndex key (tasks m) with
    | None => (false, m)
    | Some taskIndex =>
        let m := setTasks (removeAt taskIndex (tasks m)) m in
        let m := saveTasks m in
        let m := showToast "Task deleted!" "success" m in
        (true, closeModal m)
    end.

(** The in-place update of the first task matching [key]:
    [task.completed = !task.completed;
     task.completedAt = task.completed ? Date.now() : null]. *)
Definition toggled (now : Z) (task : Task) : Task :=
  let c := negb (completed task) in
  {| id := id task; title := title task; description := description task;
     completed := c;
     priority := priority task; category := category task;
     dueDate := dueDate task; dueTime := dueTime task; tags := tags task;
     createdAt := createdAt task;
     completedAt := if c then Some now else None |}.

Fixpoint toggleFirst (now : Z) (key : option Q) (l : list Task) : list Task :=
  match l with
  | [] => []
  | t :: r =>
      if sameId key t then toggled now t :: r
      else t :: toggleFirst now key r
  end.

(** [toggleTaskComplete(id)]. *)
Definition toggleTaskComplete (now : Z) (key : option Q) (m : TaskManager)
  : bool * TaskManager :=
  match find key (tasks m) with
  | None => (false, m)
  | Some task =>
      let m := setTasks (toggleFirst now key (tasks m)) m in
      let m := saveTasks m in
      let message := if completed (toggled now task)
                     then "Task completed!" else "Task marked as pending" in
      (true, showToast message "success" m)
  end.

(** ** The edit dialog *)

(** [openEditTask(id)]: the task becomes the one being edited (the dialog
    is filled from it). *)
Definition openEditTask (key : option Q) (m : TaskManager) : TaskManager :=
  match find key (tasks m) with
  | None => m
  | Some task =>
      {| tasks := tasks m; currentFilter := currentFilter m;
         currentCategory := currentCategory m; currentView := currentView m;
         currentEditingTask := Some task;
         currentInputMode := currentInputMode m;
         calendarDate := calendarDate m;
         localStorage := localStorage m;
         storageWritable := storageWritable m; toasts := toasts m |}
  end.

(** The values of the fields of the edit dialog. *)
Record ModalForm := mkModalForm {
  modal_title : string;
  modal_description : string;
  modal_date : string;
  modal_time : string;
  modal_priority : string;
  modal_category : string;
  modal_tags : string
}.

(** [handleSaveEdit()]. *)
Definition handleSaveEdit (form : ModalForm) (m : TaskManager) : TaskManager :=
  match currentEditingTask m with
  | None => m
  | Some editing =>
      let modalTags :=
        filter Str.truthy (map Str.trim (Str.split_comma (modal_tags form))) in
      snd (updateTask (Some (id editing))
             {| u_id := None; u_title := Some (modal_title form);
                u_description := Some (modal_description form);
                u_completed := None;
                u_priority := Some (modal_priority form);
                u_category := Some (modal_category form);
                u_dueDate := Some (modal_date form);
                u_dueTime := Some (modal_time form);
                u_tags := Some modalTags;
                u_createdAt := None; u_completedAt := None |} m)
  end.

(** ** Derived views

    The host supplies the time zone, the collation behind
    [String.prototype.localeCompare] and the parser behind [new Date(s)]
    ([None] is the Invalid Date); the views are stated for any of them. *)

(** [Array.prototype.sort(compare)].  A comparison result is [None] when
    it is NaN, which [sort] reads as 0.  ECMAScript asks for a stable sort
    and fixes its result when [compare] is consistent; the list below,
    where each element is put after the elements already placed that do
    not compare greater than it, is then the only result allowed
    ([sort_unique]).  When [compare] is not consistent, as with a NaN key
    among numbers, ECMAScript leaves the order to the engine and engines
    return other lists than this one; what depends on the order of tasks
    of one completion state is therefore stated for consistent
    comparisons only ([validKey]). *)
Section Sort.
Context {A : Type} (compare : A -> A -> option Z).

Definition greater (a b : A) : bool :=
  match compare a b with
  | Some v => 0 <? v
  | None => false
  end.

Fixpoint insert (x : A) (l : list A) : list A :=
  match l with
  | [] => [x]
  | y :: r => if greater y x then x :: y :: r else y :: insert x r
  end.

Definition sort (l : list A) : list A :=
  fold_left (fun acc x => insert x acc) l [].
End Sort.

Record ListView := mkListView {
  overdue_tasks : list Task;
  today_tasks : list Task;
  upcoming_tasks : list Task;
  no_date_tasks : list Task;
  completed_tasks : list Task
}.

(** A child of [#calendar-container].  A day cell carries its day number,
    its [data-date], whether it has the class [today], and the tasks for
    which it holds a [day-task] element, in order. *)
Inductive Cell :=
| DayName (name : string)
| OtherMonth
| DayCell (day : Z) (dateStr : string) (today : bool) (dayTasks : list Task).

Section Views.
Variable tz : Z.
Variable localeCompare : string -> string -> Z.
Variable parseDate : string -> option Z.

(** [priorityOrder[p]]; [None] is a value that subtracts to NaN. *)
Definition priorityOrder (p : string) : option Z :=
  if (p =? "high")%string then Some 3
  else if (p =? "medium")%string then Some 2
  else if (p =? "low")%string then Some 1
  else None.

Definition sub (a b : option Z) : option Z :=
  match a, b with
  | Some x, Some y => Some (x - y)
  | _, _ => None
  end.

(** [a.dueDate ? new Date(a.dueDate) : new Date(8640000000000000)]. *)
Definition dateKey (t : Task) : option Z :=
  if Str.truthy (dueDate t) then parseDate (dueDate t)
  else Some 8640000000000000.

(** The comparison function handed to [sort]. *)
Definition compareTasks (sortBy : string) (a b : Task) : option Z :=
  if completed a && negb (completed b) then Some 1
  else if negb (completed a) && completed b then Some (-1)
  else if (sortBy =? "priority")%string then
    sub (priorityOrder (priority b)) (priorityOrder (priority a))
  else if (sortBy =? "created")%string then
    Some (createdAt b - createdAt a)
  else if (sortBy =? "alphabetical")%string then
    Some (localeCompare (title a) (title b))
  else sub (dateKey a) (dateKey b).

Definition matchesSearch (searchTerm : string) (task : Task) : bool :=
  Str.includes searchTerm (Str.toLowerCase (title task))
  || Str.includes searchTerm (Str.toLowerCase (description task))
  || existsb (fun tag => Str.includes searchTerm (Str.toLowerCase tag))
       (tags task).

(** [getFilteredTasks()]; [searchInput] and [sortBy] are the values of
    the search box and of the sort selector. *)
Definition getFilteredTasks (searchInput sortBy : string) (m : TaskManager)
  : list Task :=
  let filtered := tasks m in
  let searchTerm := Str.toLowerCase searchInput in
  let filtered :=
    if negb (currentCategory m =? "all")%string
    then filter (fun task => (category task =? currentCategory m)%string)
           filtered
    else filtered in
  let filtered :=
    if Str.truthy searchTerm
    then filter (matchesSearch searchTerm) filtered
    else filtered in
  sort (compareTasks sortBy) filtered.

Definition isOverdue (now : Z) (task : Task) : bool :=
  let today := JsDate.isoDate now in
  Str.truthy (dueDate task) && (dueDate task <? today)%string
  && negb (completed task).

Definition isToday (now : Z) (task : Task) : bool :=
  let today := JsDate.isoDate now in
  (dueDate task =? today)%string.

Definition isUpcoming (now : Z) (task : Task) : bool :=
  let today := JsDate.isoDate now in
  (today <? dueDate task)%string.

(** [renderListView(tasks)]: the content of the five sections. *)
Definition renderListView (now : Z) (tasks : list Task) : ListView :=
  {| overdue_tasks := filter (fun t => isOverdue now t) tasks;
     today_tasks :=
       filter (fun t => isToday now t && negb (completed t)) tasks;
     upcoming_tasks :=
       filter (fun t => isUpcoming now t && negb (completed t)) tasks;
     no_date_tasks :=
       filter (fun t => negb (Str.truthy (dueDate t)) && negb (completed t))
         tasks;
     completed_tasks := filter (fun t => completed t) tasks |}.

Definition dayNames : list string :=
  ["Sun"; "Mon"; "Tue"; "Wed"; "Thu"; "Fri"; "Sat"].

(** The days [1 .. n] of the loop over the month. *)
Definition daysUpTo (n : Z) : list Z :=
  map (fun k => Z.of_nat k) (seq 1 (Z.to_nat n)).

Definition inMonth (year month : Z) (t : Task) : bool :=
  if negb (Str.truthy (dueDate t)) then false
  else match parseDate (dueDate t) with
       | Some taskDate =>
           (JsDate.getFullYear tz taskDate =? year)
           && (JsDate.getMonth tz taskDate =? month)
       | None => false
       end.

(** [renderCalendarView()]: the children appended to the container. *)
Definition renderCalendarView (now : Z) (m : TaskManager) : list Cell :=
  let year := JsDate.getFullYear tz (calendarDate m) in
  let month := JsDate.getMonth tz (calendarDate m) in
  let firstDay := JsDate.fromLocal tz year month 1 in
  let lastDay := JsDate.fromLocal tz year (month + 1) 0 in
  let startDayOfWeek := JsDate.getDay tz firstDay in
  let tasksForMonth := filter (inMonth year month) (tasks m) in
  (map DayName dayNames
   ++ repeat OtherMonth (Z.to_nat startDayOfWeek)
   ++ map (fun day =>
             let date := JsDate.fromLocal tz year month day in
             let dateStr := JsDate.isoDate date in
             DayCell day dateStr (JsDate.sameLocalDay tz date now)
               (filter (fun t => (dueDate t =? dateStr)%string)
                  tasksForMonth))
        (daysUpTo (JsDate.getDate tz lastDay)))%list.

End Views.

(** * Vocabulary of the properties *)

Inductive Bucket := Overdue | Today | Upcoming | NoDate | Completed.

(** The list a bucket names in the rendered list view. *)
Definition bucket (v : ListView) (b : Bucket) : list Task :=
  match b with
  | Overdue => overdue_tasks v
  | Today => today_tasks v
  | Upcoming => upcoming_tasks v
  | NoDate => no_date_tasks v
  | Completed => completed_tasks v
  end.

(** The bucket the words of the specification give a task: completed
    tasks are completed whatever their date, the others are classified by
    their due date against today's. *)
Definition bucketOf (now : Z) (t : Task) : Bucket :=
  if completed t then Completed
  else if (dueDate t =? "")%string then NoDate
  else match String.compare (dueDate t) (JsDate.isoDate now) with
       | Lt => Overdue
       | Eq => Today
       | Gt => Upcoming
       end.

(** The test each [filter] of [renderListView] applies. *)
Definition bucketTest (now : Z) (b : Bucket) (t : Task) : bool :=
  match b with
  | Overdue => isOverdue now t
  | Today => isToday now t && negb (completed t)
  | Upcoming => isUpcoming now t && negb (completed t)
  | NoDate => negb (Str.truthy (dueDate t)) && negb (completed t)
  | Completed => completed t
  end.

(** A list in two blocks: the elements that are not [done], then those
    that are. *)
Definition doneLast {A} (done : A -> bool) (l : list A) : Prop :=
  exists l1 l2,
    l = (l1 ++ l2)%list
    /\ Forall (fun x => done x = false) l1
    /\ Forall (fun x => done x = true) l2.

(** What ECMAScript asks of the result of [sort] when the comparison is
    consistent: no element precedes one it compares greater than. *)
Definition ordered {A} (compare : A -> A -> option Z) (l : list A) : Prop :=
  forall l1 a l2 b l3,
    l = (l1 ++ a :: l2 ++ b :: l3)%list -> greater compare a b = false.

(** The tasks [getFilteredTasks] keeps, before it sorts them. *)
Definition keptTasks (searchInput : string) (m : TaskManager) : list Task :=
  let l := if negb (currentCategory m =? "all")%string
           then filter (fun task => (category task =? currentCategory m)%string)
                  (tasks m)
           else tasks m in
  if Str.truthy (Str.toLowerCase searchInput)
  then filter (matchesSearch (Str.toLowerCase searchInput)) l
  else l.

(** An element of the parsed array on which the loader's arrow function
    throws: [null], or an object whose tags are truthy and neither an
    array nor text. *)
Definition raises (e : option Entry) : Prop :=
  e = None \/ exists en, e = Some en /\ e_tags en = Some (TagsOther true).

(** What the loader makes of the priority, the category and the tags of
    an element it accepts, for every form these three can have in the
    parsed item; an element with truthy tags that are neither an array nor
    text is not accepted. *)
Definition repaired (e : option Entry) (t : Task) : Prop :=
  exists en,
    e = Some en
    /\ e_tags en <> Some (TagsOther true)
    /\ (e_priority en = None \/ e_priority en = Some "" ->
        priority t = "medium")
    /\ (forall p, e_priority en = Some p -> p <> "" -> priority t = p)
    /\ (e_category en = None \/ e_category en = Some "" ->
        category t = "personal")
    /\ (forall c, e_category en = Some c -> c <> "" -> category t = c)
    /\ (e_tags en = None \/ e_tags en = Some (TagsText "")
        \/ e_tags en = Some (TagsOther false) -> tags t = [])
    /\ (forall a, e_tags en = Some (TagsArray a) -> tags t = a)
    /\ (forall s, e_tags en = Some (TagsText s) -> s <> "" ->
          tags t = map Str.trim (Str.split_comma s)).

Inductive Op :=
| Add (now : Z) (rnd : Q) (taskData : TaskData)
| Update (key : option Q) (updates : Updates)
| Delete (confirmed : bool) (key : option Q)
| Toggle (now : Z) (key : option Q).

Definition step (m : TaskManager) (op : Op) : TaskManager :=
  match op with
  | Add now rnd taskData => snd (addTask now rnd taskData m)
  | Update key updates => snd (updateTask key updates m)
  | Delete confirmed key => snd (deleteTask confirmed key m)
  | Toggle now key => snd (toggleTaskComplete now key m)
  end.

Definition run (ops : list Op) (m : TaskManager) : TaskManager :=
  fold_left step ops m.

(** Two tasks that agree on every attribute other than [completed] and
    [completedAt]. *)
Definition sameButCompletion (t t' : Task) : Prop :=
  id t' = id t /\ title t' = title t /\ description t' = description t
  /\ priority t' = priority t /\ category t' = category t
  /\ dueDate t' = dueDate t /\ dueTime t' = dueTime t /\ tags t' = tags t
  /\ createdAt t' = createdAt t.

(** completedAt is present exactly when the task is completed. *)
Definition consistent (t : Task) : Prop :=
  completedAt t <> None <-> completed t = true.

(** A persisted record whose completed is true exactly when it carries a
    completedAt other than 0. *)
Definition entryConsistent (e : option Entry) : Prop :=
  match e with
  | None => True
  | Some en =>
      e_completed en = Some true
      <-> exists n, e_completedAt en = Some n /\ n <> 0
  end.

Definition savedConsistent (s : Saved) : Prop :=
  match s with
  | Entries l => Forall entryConsistent l
  | _ => True
  end.

(** An operation other than an update that carries completed or
    completedAt. *)
Definition keepsCompletion (op : Op) : Prop :=
  match op with
  | Update _ u => u_completed u = None /\ u_completedAt u = None
  | _ => True
  end.

(** The day numbers of the cells that hold an element for the task with
    id [i]. *)
Definition daysHolding (i : Z) (cells : list Cell) : list Z :=
  flat_map (fun c =>
              match c with
              | DayCell day _ _ dayTasks =>
                  if existsb (fun t => Qeq_bool (id t) (inject_Z i)) dayTasks
                  then [day] else []
              | _ => []
              end) cells.

Definition isDayCell (c : Cell) : bool :=
  match c with
  | DayCell _ _ _ _ => true
  | _ => false
  end.

Definition dayNumber (c : Cell) : Z :=
  match c with
  | DayCell day _ _ _ => day
  | _ => 0
  end.

(** * Sample stores and inputs *)

(** The first quick-parse scenario of the specification. *)
Definition buyMilk : string := "Buy milk high priority #shopping today".

(** An object without any of the properties the loader reads. *)
Definition emptyEntry : Entry :=
  {| e_id := None; e_title := None; e_text := None; e_description := None;
     e_completed := None; e_priority := None; e_category := None;
     e_dueDate := None; e_date := None; e_dueTime := None; e_time := None;
     e_tags := None; e_createdAt := None; e_completedAt := None |}.

(** The same object with one property set. *)
Definition withTags (tg : JsonTags) (e : Entry) : Entry :=
  {| e_id := e_id e; e_title := e_title e; e_text := e_text e;
     e_description := e_description e; e_completed := e_completed e;
     e_priority := e_priority e; e_category := e_category e;
     e_dueDate := e_dueDate e; e_date := e_date e; e_dueTime := e_dueTime e;
     e_time := e_time e; e_tags := Some tg; e_createdAt := e_createdAt e;
     e_completedAt := e_completedAt e |}.

Definition withTitle (s : string) (e : Entry) : Entry :=
  {| e_id := e_id e; e_title := Some s; e_text := e_text e;
     e_description := e_description e; e_completed := e_completed e;
     e_priority := e_priority e; e_category := e_category e;
     e_dueDate := e_dueDate e; e_date := e_date e; e_dueTime := e_dueTime e;
     e_time := e_time e; e_tags := e_tags e; e_createdAt := e_createdAt e;
     e_completedAt := e_completedAt e |}.

Definition withCompleted (c : bool) (e : Entry) : Entry :=
  {| e_id := e_id e; e_title := e_title e; e_text := e_text e;
     e_description := e_description e; e_completed := Some c;
     e_priority := e_priority e; e_category := e_category e;
     e_dueDate := e_dueDate e; e_date := e_date e; e_dueTime := e_dueTime e;
     e_time := e_time e; e_tags := e_tags e; e_createdAt := e_createdAt e;
     e_completedAt := e_completedAt e |}.

Definition withId (q : Q) (e : Entry) : Entry :=
  {| e_id := Some q; e_title := e_title e; e_text := e_text e;
     e_description := e_description e; e_completed := e_completed e;
     e_priority := e_priority e; e_category := e_category e;
     e_dueDate := e_dueDate e; e_date := e_date e; e_dueTime := e_dueTime e;
     e_time := e_time e; e_tags := e_tags e; e_createdAt := e_createdAt e;
     e_completedAt := e_completedAt e |}.

(** No draw of [Math.random()] matters to the properties below. *)
Definition noRandom : nat -> Q := fun _ => 0%Q.

(** A task known by its id, title and completion. *)
Definition sampleTask (i : Z) (name : string) (done : bool)
    (doneAt : option Z) : Task :=
  {| id := inject_Z i; title := name; description := ""; completed := done;
     priority := "medium"; category := "personal"; dueDate := "";
     dueTime := ""; tags := []; createdAt := i; completedAt := doneAt |}.

(** A manager holding [ts], as saved. *)
Definition sampleManager (ts : list Task) : TaskManager :=
  {| tasks := ts; currentFilter := "all"; currentCategory := "all";
     currentView := "list"; currentEditingTask := None;
     currentInputMode := "quick"; calendarDate := 0;
     localStorage := Entries (map toEntry ts); storageWritable := true;
     toasts := [] |}.

Definition twoTasks : TaskManager :=
  sampleManager [sampleTask 1 "Water plants" false None;
                 sampleTask 2 "File taxes" true (Some 5)].

Definition waterPlants : Task := sampleTask 1 "Water plants" false None.

(** A store as [loadTasks] builds it from a persisted record that says
    completed and carries no completedAt. *)
Definition legacyStore : TaskManager :=
  newTaskManager 0 noRandom
    (Entries [Some (withId 7 (withTitle "Old" (withCompleted true emptyEntry)))])
    true.

(** The argument of [addTask] with a title only. *)
Definition titled (s : string) : TaskData :=
  {| d_title := s; d_description := None; d_priority := None;
     d_category := None; d_dueDate := None; d_dueTime := None;
     d_tags := None |}.

(** Updates that carry one property. *)
Definition titleUpdate (s : string) : Updates :=
  {| u_id := None; u_title := Some s; u_description := None;
     u_completed := None; u_priority := None; u_category := None;
     u_dueDate := None; u_dueTime := None; u_tags := None;
     u_createdAt := None; u_completedAt := None |}.

(** A record as [saveTasks] writes it for a completed task. *)
Definition doneEntry : Entry :=
  {| e_id := Some 3%Q; e_title := Some "Book flights"; e_text := None;
     e_description := None; e_completed := Some true; e_priority := None;
     e_category := None; e_dueDate := None; e_date := None;
     e_dueTime := None; e_time := None; e_tags := None;
     e_createdAt := Some 3; e_completedAt := Some 4 |}.

Definition sampleOps : list Op :=
  [Add 1000 (1 # 2) (titled "Pay rent");
   Toggle 1001 (Some (freshId 1000 (1 # 2)));
   Update (Some 3%Q) (titleUpdate "Book trains");
   Toggle 1002 (Some 3%Q);
   Delete true (Some (freshId 1000 (1 # 2)))].

Definition completionUpdate (c : bool) : Updates :=
  {| u_id := None; u_title := None; u_description := None;
     u_completed := Some c; u_priority := None; u_category := None;
     u_dueDate := None; u_dueTime := None; u_tags := None;
     u_createdAt := None; u_completedAt := None |}.

(** An empty store after one [addTask]. *)
Definition payRent : TaskManager :=
  snd (addTask 1000 (1 # 2) (titled "Pay rent") (sampleManager [])).

(** The edit dialog of that task with its title box emptied. *)
Definition clearedTitle : ModalForm :=
  {| modal_title := ""; modal_description := ""; modal_date := "";
     modal_time := ""; modal_priority := "medium";
     modal_category := "personal"; modal_tags := "" |}.

(** A task with a due date and nothing else of note. *)
Definition dueOn (i : Z) (due : string) : Task :=
  {| id := inject_Z i; title := "Meet"; description := ""; completed := false;
     priority := "medium"; category := "personal"; dueDate := due;
     dueTime := ""; tags := []; createdAt := i; completedAt := None |}.

(** A store with three tasks, due on the first, the fifteenth and the
    last day of January 2024, showing that month in a zone [tz] minutes
    east of UTC. *)
Definition january2024 (tz : Z) : TaskManager :=
  {| tasks := [dueOn 1 "2024-01-01"; dueOn 2 "2024-01-15";
               dueOn 3 "2024-01-31"];
     currentFilter := "all"; currentCategory := "work";
     currentView := "calendar"; currentEditingTask := None;
     currentInputMode := "quick";
     calendarDate := JsDate.fromLocal tz 2024 0 10;
     localStorage := Entries []; storageWritable := true; toasts := [] |}.

(** * More of the program *)

(** ** Escaping *)

(** [s.replace(/c/g, by)] for a pattern of one literal character. *)
Fixpoint replaceAllChar (c : ascii) (by_ : string) (s : string) : string :=
  match s with
  | EmptyString => EmptyString
  | String a r =>
      if Ascii.eqb a c then by_ ++ replaceAllChar c by_ r
      else String a (replaceAllChar c by_ r)
  end.

Definition quoteChar : ascii := ascii_of_N 34.

(** [escapeHtml(unsafe)] on a string: the five replacements, in the order
    of the source. *)
Definition escapeHtml (unsafe : string) : string :=
  replaceAllChar "'" "&#039;"
    (replaceAllChar quoteChar "&quot;"
       (replaceAllChar ">" "&gt;"
          (replaceAllChar "<" "&lt;"
             (replaceAllChar "&" "&amp;" unsafe)))).

(** ** Adding from the two input modes *)

(** The object [parseQuickTask] returns, as [addTask] reads it: it has no
    [description] and no [dueTime]. *)
Definition quickData (q : QuickTask) : TaskData :=
  {| d_title := q_title q; d_description := None;
     d_priority := Some (q_priority q); d_category := Some (q_category q);
     d_dueDate := Some (q_dueDate q); d_dueTime := None;
     d_tags := Some (q_tags q) |}.

(** [handleQuickAdd()]; [inputValue] is the value of [#task-input]. *)
Definition handleQuickAdd (zone : JsDate.Zone) (now : Z) (rnd : Q)
    (inputValue : string) (m : TaskManager) : TaskManager :=
  let text := Str.trim inputValue in
  if negb (Str.truthy text) then m
  else
    let taskData := parseQuickTask zone now text in
    snd (addTask now rnd (quickData taskData) m).

(** The values of the controls of the detailed mode. *)
Record DetailedForm := mkDetailedForm {
  detail_title : string;
  detail_description : string;
  detail_date : string;
  detail_time : string;
  detail_priority : string;
  detail_category : string;
  detail_tags : string
}.

(** [tagsInput.value.split(',').map(tag => tag.trim()).filter(tag => tag)],
    as [handleDetailedAdd] and [handleSaveEdit] compute it. *)
Definition splitTags (text : string) : list string :=
  filter Str.truthy (map Str.trim (Str.split_comma text)).

(** [handleDetailedAdd()]. *)
Definition handleDetailedAdd (now : Z) (rnd : Q) (form : DetailedForm)
    (m : TaskManager) : TaskManager :=
  let taskData :=
    {| d_title := detail_title form;
       d_description := Some (detail_description form);
       d_priority := Some (detail_priority form);
       d_category := Some (detail_category form);
       d_dueDate := Some (detail_date form);
       d_dueTime := Some (detail_time form);
       d_tags := Some (splitTags (detail_tags form)) |} in
  snd (addTask now rnd taskData m).

(** ** Filters and views *)

(** [setFilter(type, value)]. *)
Definition setFilter (type value : string) (m : TaskManager) : TaskManager :=
  if (type =? "status")%string then
    {| tasks := tasks m; currentFilter := value;
       currentCategory := currentCategory m; currentView := currentView m;
       currentEditingTask := currentEditingTask m;
       currentInputMode := currentInputMode m; calendarDate := calendarDate m;
       localStorage := localStorage m; storageWritable := storageWritable m;
       toasts := toasts m |}
  else if (type =? "category")%string then
    {| tasks := tasks m; currentFilter := currentFilter m;
       currentCategory := value; currentView := currentView m;
       currentEditingTask := currentEditingTask m;
       currentInputMode := currentInputMode m; calendarDate := calendarDate m;
       localStorage := localStorage m; storageWritable := storageWritable m;
       toasts := toasts m |}
  else m.

(** ** Statistics *)

(** The three counts [updateStats] writes into [#total-tasks],
    [#completed-tasks] and [#pending-tasks]. *)
Definition totalTasks (m : TaskManager) : Z :=
  Z.of_nat (List.length (tasks m)).

Definition completedTasks (m : TaskManager) : Z :=
  Z.of_nat (List.length (filter (fun t => completed t) (tasks m))).

Definition pendingTasks (m : TaskManager) : Z :=
  totalTasks m - completedTasks m.

(** ** Calendar navigation and date labels *)

(** [date.setMonth(month)]: the local date with its month replaced, the day
    of the month and the time of day kept; [month] is any integer, and a
    day past the end of the month runs on into the next month. *)
Definition setMonth (tz t month : Z) : Z :=
  let lt := JsDate.LocalTime tz t in
  let '(y, _, d) := JsDate.civil_from_days (JsDate.Day lt) in
  let ym := y + month / 12 in
  let mn := month mod 12 in
  JsDate.UTC tz
    ((JsDate.days_from_civil ym (mn + 1) 1 + (d - 1)) * JsDate.msPerDay
     + lt mod JsDate.msPerDay).

(** [changeMonth(direction)]; the calendar is drawn again from the state. *)
Definition changeMonth (tz direction : Z) (m : TaskManager) : TaskManager :=
  {| tasks := tasks m; currentFilter := currentFilter m;
     currentCategory := currentCategory m; currentView := currentView m;
     currentEditingTask := currentEditingTask m;
     currentInputMode := currentInputMode m;
     calendarDate :=
       setMonth tz (calendarDate m)
         (JsDate.getMonth tz (calendarDate m) + direction);
     localStorage := localStorage m; storageWritable := storageWritable m;
     toasts := toasts m |}.

(** [date.setDate(date)]: the local date with its day of the month
    replaced and the time of day kept; a day past the end of the month
    runs on into the next month. *)
Definition setDate (tz t date : Z) : Z :=
  let lt := JsDate.LocalTime tz t in
  let '(y, m, _) := JsDate.civil_from_days (JsDate.Day lt) in
  JsDate.UTC tz
    ((JsDate.days_from_civil y m 1 + (date - 1)) * JsDate.msPerDay
     + lt mod JsDate.msPerDay).

Section Format.
Variable tz : Z.
Variable parseDate : string -> option Z.
Variable toLocaleDateString : Z -> string.

(** [formatDate(dateStr)] at time [now]; [parseDate] is [new Date(s)] and
    [toLocaleDateString] the en-US rendering with a short month. *)
Definition formatDate (now : Z) (dateStr : string) : string :=
  if negb (Str.truthy dateStr) then ""
  else
    let date := parseDate (dateStr ++ "T00:00:00") in
    let today := now in
    let tomorrow := setDate tz now (JsDate.getDate tz today + 1) in
    match date with
    | Some d =>
        if JsDate.sameLocalDay tz d today then "Today"
        else if JsDate.sameLocalDay tz d tomorrow then "Tomorrow"
        else toLocaleDateString d
    | None => "Invalid Date"
    end.

End Format.

(** ** The edit dialog as it is filled *)

(** [l.join(sep)]. *)
Fixpoint join (sep : string) (l : list string) : string :=
  match l with
  | [] => ""
  | [x] => x
  | x :: r => x ++ sep ++ join sep r
  end.

(** The values [openEditTask] writes into the fields of the dialog; the
    fields are taken to hold what was written to them when [handleSaveEdit]
    reads them back. *)
Definition dialogOf (task : Task) : ModalForm :=
  {| modal_title := title task;
     modal_description := description task;
     modal_date := dueDate task;
     modal_time := dueTime task;
     modal_priority := priority task;
     modal_category := category task;
     modal_tags := join ", " (tags task) |}.

(** * More vocabulary *)

(** A string that [trim] leaves as it is: it neither begins nor ends with
    white space. *)
Definition trimmed (s : string) : Prop := Str.trim s = s.

(** The code units of a string. *)
Definition chars (s : string) : list ascii := list_ascii_of_string s.

(** A non-empty string of word characters. *)
Definition isWord (s : string) : Prop :=
  s <> "" /\ Forall (fun c => Str.isWordChar c = true) (chars s).

(** A character that ends a tag or an attribute value, or opens one. *)
Definition isMarkup (c : ascii) : bool :=
  Ascii.eqb c "<" || Ascii.eqb c ">" || Ascii.eqb c quoteChar
  || Ascii.eqb c "'".

(** The stored item is what [saveTasks] writes for the current list. *)
Definition mirrored (m : TaskManager) : Prop :=
  localStorage m = Entries (map toEntry (tasks m)).

(** A task that [loadTasks] reads back unchanged from what [saveTasks]
    wrote: no attribute that the loader would take for missing. *)
Definition survivesReload (t : Task) : Prop :=
  Qeq_bool (id t) 0 = false
  /\ priority t <> "" /\ category t <> ""
  /\ createdAt t <> 0 /\ completedAt t <> Some 0.

(** A lower-case letter, as the patterns of the parser are written. *)
Definition isLower (c : ascii) : bool := Str.inRange 97 122 c.

Fixpoint allLower (s : string) : bool :=
  match s with
  | EmptyString => true
  | String c r => isLower c && allLower r
  end.

(** The order [compareTasks] puts on the tasks of one completion state:
    [keyGreater a b] when [a] must come after [b]. *)
Definition keyGreater (localeCompare : string -> string -> Z)
    (parseDate : string -> option Z) (sortBy : string) (a b : Task) : bool :=
  if (sortBy =? "priority")%string then
    match priorityOrder (priority b), priorityOrder (priority a) with
    | Some x, Some y => 0 <? x - y
    | _, _ => false
    end
  else if (sortBy =? "created")%string then 0 <? createdAt b - createdAt a
  else if (sortBy =? "alphabetical")%string then
    0 <? localeCompare (title a) (title b)
  else match dateKey parseDate a, dateKey parseDate b with
       | Some x, Some y => 0 <? x - y
       | _, _ => false
       end.

(** A collation as [localeCompare] gives one, a total preorder on the
    strings: [lc x y] is positive exactly when [lc y x] is negative, and
    not coming after is transitive. *)
Definition consistentCollation (lc : string -> string -> Z) : Prop :=
  (forall x y, 0 < lc x y <-> lc y x < 0)
  /\ (forall x y z, lc x y <= 0 -> lc y z <= 0 -> lc x z <= 0).

(** [a] and [b] compare equal: neither compares greater than the other. *)
Definition tied {A} (compare : A -> A -> option Z) (a b : A) : bool :=
  negb (greater compare a b) && negb (greater compare b a).

(** A task whose key in the sort mode [sortBy] is a number, so that no
    comparison with it is NaN: in the priority mode its priority is one
    of the three, in the date mode its due date is empty or one that
    [new Date] reads. *)
Definition validKey (parseDate : string -> option Z) (sortBy : string)
    (t : Task) : Prop :=
  (sortBy = "priority" -> priorityOrder (priority t) <> None)
  /\ (sortBy <> "priority" -> sortBy <> "created" ->
      sortBy <> "alphabetical" -> dateKey parseDate t <> None).

(** What [escapeHtml] writes for one character. *)
Definition escapeChar (a : ascii) : string :=
  if Ascii.eqb a "&" then "&amp;"
  else if Ascii.eqb a "<" then "&lt;"
  else if Ascii.eqb a ">" then "&gt;"
  else if Ascii.eqb a quoteChar then "&quot;"
  else if Ascii.eqb a "'" then "&#039;"
  else String a "".

(** [a] need not come after [b]. *)
Definition notGreater {A : Type} (compare : A -> A -> option Z) (a b : A)
  : Prop := greater compare a b = false.

(** ** Calendar arithmetic *)

(** First day of year [n] of an era, counted in days from 1 March of year 0
    of the era. *)
Definition yearStart (n : Z) : Z := 365 * n + n / 4 - n / 100.

(** Last day of year [n] of an era, counted the same way. *)
Definition yearEnd (n : Z) : Z :=
  if n =? 399 then 146096 else yearStart (n + 1) - 1.

(** The year of the era that [civil_from_days] computes for day [doe]. *)
Definition yearOfDoe (doe : Z) : Z :=
  (doe - doe / 1460 + doe / 36524 - doe / 146096) / 365.

(** The month counted from March. *)
Definition monthIndex (m : Z) : Z := if 2 <? m then m - 3 else m + 9.

(** The year counted from March. *)
Definition shiftedYear (y m : Z) : Z := if m <=? 2 then y - 1 else y.

(** [f] holds at [z], [z + 1], ..., [z + n - 1]. *)
Fixpoint allFrom (n : nat) (z : Z) (f : Z -> bool) : bool :=
  match n with
  | O => true
  | S k => f z && allFrom k (z + 1) f
  end.

(** What is checked of each year of an era. *)
Definition yearCheck (n : Z) : bool :=
  (0 <=? yearStart n) && (yearStart n <=? yearEnd n)
  && (yearEnd n <=? 146096) && (yearEnd n - yearStart n <=? 365)
  && (364 <=? yearEnd n - yearStart n)
  && (yearOfDoe (yearStart n) =? n) && (yearOfDoe (yearEnd n) =? n).

(** The year [new Date(year, month, day)] reads a year argument as. *)
Definition fullYear (year : Z) : Z :=
  if (0 <=? year) && (year <=? 99) then 1900 + year else year.

(** Months counted from January of year 0. *)
Definition monthCount (tz t : Z) : Z :=
  12 * JsDate.getFullYear tz t + JsDate.getMonth tz t.

(** The local day a time value falls on, counted from the epoch. *)
Definition localDay (tz t : Z) : Z := JsDate.Day (JsDate.LocalTime tz t).

(** A tag as the tags box yields it: not empty, without white space at
    either end and without a comma. *)
Definition cleanTag (tag : string) : Prop :=
  tag <> "" /\ trimmed tag
  /\ Forall (fun c => negb (Str.code c =? 44) = true) (chars tag).

(** * More samples *)

(** The edit dialog opened on the second task of [twoTasks]. *)
Definition editingWaterPlants : TaskManager :=
  openEditTask (Some 1%Q) twoTasks.

(** What the dialog holds when the edit is saved. *)
Definition fernsForm : ModalForm :=
  {| modal_title := "Water ferns"; modal_description := "";
     modal_date := "2024-05-01"; modal_time := "";
     modal_priority := "low"; modal_category := "home";
     modal_tags := " garden, ,weekly " |}.

(** The detailed form, filled in with padded fields and an empty tag. *)
Definition rentForm : DetailedForm :=
  {| detail_title := " Pay rent "; detail_description := " before the 5th ";
     detail_date := "2024-05-04"; detail_time := "09:00";
     detail_priority := ""; detail_category := "home";
     detail_tags := "bills, , monthly" |}.

(** A manager whose storage refuses every write. *)
Definition offline : TaskManager :=
  {| tasks := []; currentFilter := "all"; currentCategory := "all";
     currentView := "list"; currentEditingTask := None;
     currentInputMode := "quick"; calendarDate := 0;
     localStorage := Entries []; storageWritable := false; toasts := [] |}.

(** A collation that takes every two strings for equal. *)
Definition flatCollation : string -> string -> Z := fun _ _ => 0.

(** A task to do with the priority [p] and the due date [due]. *)
Definition keyed (i : Z) (p due : string) : Task :=
  {| id := inject_Z i; title := "Errand"; description := "";
     completed := false; priority := p; category := "personal";
     dueDate := due; dueTime := ""; tags := []; createdAt := i;
     completedAt := None |}.

(** Three tasks to do, with three priorities and due dates, one of them
    without a date. *)
Definition threeKeyed : TaskManager :=
  sampleManager [keyed 1 "low" "2024-03-01"; keyed 2 "high" "";
                 keyed 3 "medium" "2024-01-15"].

(** A parser that reads the date part of its argument as a local
    midnight. *)
Definition parseLocalMidnight (tz : Z) (s : string) : option Z :=
  match JsDate.parseIsoDate (Str.take 10 s) with
  | Some ms => Some (JsDate.UTC tz ms)
  | None => None
  end.

(** A manager without tasks whose calendar stands at time [t]. *)
Definition showing (t : Z) : TaskManager :=
  {| tasks := []; currentFilter := "all"; currentCategory := "all";
     currentView := "calendar"; currentEditingTask := None;
     currentInputMode := "quick"; calendarDate := t;
     localStorage := Entries []; storageWritable := true; toasts := [] |}.

(** A task with the tags [l]. *)
Definition tagged (l : list string) : Task :=
  {| id := 3; title := "Tidy"; description := ""; completed := false;
     priority := "low"; category := "home"; dueDate := ""; dueTime := "";
     tags := l; createdAt := 3; completedAt := None |}.

(** The instant of 3 November 2024 at which the clocks of the eastern
    United States went back from 02:00 to 01:00. *)
Definition clocksBack : Z :=
  JsDate.days_from_civil 2024 11 3 * JsDate.msPerDay + 6 * 3600000.

(** That zone around that day: four hours west of UTC before the change,
    five after it; a local time is read with the earlier offset up to
    02:00. *)
Definition easternZone : JsDate.Zone :=
  {| JsDate.offsetAt :=
       fun t => if t <? clocksBack then - 4 * 3600000 else - 5 * 3600000;
     JsDate.offsetOfLocal :=
       fun t => if t <? clocksBack - 4 * 3600000
                then - 4 * 3600000 else - 5 * 3600000 |}.

(** 2 November 2024, 19:30 in that zone: 23:30 UTC. *)
Definition eveningBefore : Z :=
  JsDate.days_from_civil 2024 11 2 * JsDate.msPerDay + 23 * 3600000 + 1800000.

(** * Properties *)

(** ** Quick-text parser *)

(** C1, as the code has it: for the text
    "Buy milk high priority #shopping today" the parser returns the title
    "Buy milk", priority high, category "shopping", the current date as due
    date, and no tag: the leading #word token is removed from the working
    title when it sets the category, before tags are collected. *)
Theorem parseQuickTask_buyMilk (zone : JsDate.Zone) (now : Z) :
  parseQuickTask zone now buyMilk
  = {| q_title := "Buy milk"; q_priority := "high";
       q_category := "shopping"; q_dueDate := JsDate.isoDate now;
       q_tags := [] |}.
Proof.
  unfold parseQuickTask.
  generalize (JsDate.isoDate
                (JsDate.setDateIn zone now (JsDate.getDateIn zone now + 1))).
  generalize (JsDate.isoDate now).
  intros today tomorrow.
  vm_compute. reflexivity.
Qed.

(** The second scenario: no rule but "tomorrow" fires. *)
Example parseQuickTask_callMom (zone : JsDate.Zone) (now : Z) :
  parseQuickTask zone now "Call mom tomorrow"
  = {| q_title := "Call mom"; q_priority := "medium";
       q_category := "personal";
       q_dueDate :=
         JsDate.isoDate
           (JsDate.setDateIn zone now (JsDate.getDateIn zone now + 1));
       q_tags := [] |}.
Proof.
  unfold parseQuickTask.
  generalize (JsDate.isoDate
                (JsDate.setDateIn zone now (JsDate.getDateIn zone now + 1))).
  generalize (JsDate.isoDate now).
  intros today tomorrow.
  vm_compute. reflexivity.
Qed.

(** C1, as the specification words it, fails: the tags are not
    ["shopping"]. *)
Lemma parseQuickTask_buyMilk_tags_not_shopping :
  q_tags (parseQuickTask (JsDate.fixedZone 0) 1700000000000 buyMilk)
  <> ["shopping"].
Proof. vm_compute. discriminate. Qed.

(** ** List projection *)

Lemma bucket_filter now ts b :
  bucket (renderListView now ts) b = filter (bucketTest now b) ts.
Proof. destruct b; reflexivity. Qed.

Lemma isoYear_nonempty y : JsDate.isoYear y <> "".
Proof.
  unfold JsDate.isoYear, JsDate.pad4, JsDate.pad2.
  destruct ((0 <=? y) && (y <=? 9999)); [|destruct (y <? 0)];
    simpl; discriminate.
Qed.

Lemma isoDate_nonempty now : JsDate.isoDate now <> "".
Proof.
  unfold JsDate.isoDate.
  destruct (JsDate.civil_from_days (JsDate.Day now)) as [[y m] d].
  pose proof (isoYear_nonempty y) as H.
  destruct (JsDate.isoYear y); [congruence | simpl; discriminate].
Qed.

Lemma ltb_compare a b : (a <? b)%string = true <-> String.compare a b = Lt.
Proof.
  unfold String.ltb. destruct (String.compare a b); split; congruence.
Qed.

Lemma gtb_compare a b : (b <? a)%string = true <-> String.compare a b = Gt.
Proof.
  unfold String.ltb. rewrite (String.compare_antisym a b).
  destruct (String.compare b a); simpl; split; congruence.
Qed.

Lemma compare_refl a : String.compare a a = Eq.
Proof.
  induction a as [| c a IH]; simpl; [reflexivity|].
  unfold Ascii.compare. now rewrite N.compare_refl.
Qed.

Lemma eqb_compare a b : (a =? b)%string = true <-> String.compare a b = Eq.
Proof.
  rewrite String.eqb_eq. split.
  - intros ->. apply compare_refl.
  - apply String.compare_eq_iff.
Qed.

(** A task passes the test of a bucket exactly when it is the bucket the
    specification's wording gives it. *)
Lemma bucketTest_iff now b t :
  bucketTest now b t = true <-> bucketOf now t = b.
Proof.
  unfold bucketOf, bucketTest, isOverdue, isToday, isUpcoming, Str.truthy.
  pose proof (isoDate_nonempty now) as Hne.
  pose proof (ltb_compare (dueDate t) (JsDate.isoDate now)) as Hlt.
  pose proof (gtb_compare (dueDate t) (JsDate.isoDate now)) as Hgt.
  pose proof (eqb_compare (dueDate t) (JsDate.isoDate now)) as Heq.
  destruct (completed t); simpl.
  - rewrite ?andb_false_r. destruct b; split; congruence.
  - rewrite ?andb_true_r.
    destruct (String.eqb_spec (dueDate t) "") as [E | E]; simpl.
    + assert (Hc : String.compare (dueDate t) (JsDate.isoDate now) <> Eq).
      { intro C. apply String.compare_eq_iff in C. congruence. }
      destruct b; try (split; congruence).
      * split; [intro H; apply Heq in H; congruence | congruence].
      * rewrite E in Hgt. assert (("" ?= JsDate.isoDate now)%string = Lt).
        { destruct (JsDate.isoDate now); [congruence | reflexivity]. }
        rewrite E.
        split; [intro H'; apply Hgt in H'; congruence | congruence].
    + destruct (String.compare (dueDate t) (JsDate.isoDate now)) eqn:C;
        destruct b; split; intro H; try congruence;
        try (apply Hlt in H; congruence);
        try (apply Hgt in H; congruence);
        try (apply Heq in H; congruence);
        try (apply Hlt; reflexivity);
        try (apply Hgt; reflexivity);
        try (apply Heq; reflexivity).
Qed.

Lemma in_bucket_iff now ts b t :
  In t (bucket (renderListView now ts) b) <-> In t ts /\ bucketOf now t = b.
Proof.
  rewrite bucket_filter, filter_In, bucketTest_iff. tauto.
Qed.

Lemma bucketTest_other now b b' t :
  bucketOf now t = b -> b' <> b -> bucketTest now b' t = false.
Proof.
  intros Hb Hne. destruct (bucketTest now b' t) eqn:E; [|reflexivity].
  apply bucketTest_iff in E. congruence.
Qed.

Lemma filter_cons_true {A} (f : A -> bool) a l :
  f a = true -> filter f (a :: l) = a :: filter f l.
Proof. intros H. simpl. now rewrite H. Qed.

Lemma filter_cons_false {A} (f : A -> bool) a l :
  f a = false -> filter f (a :: l) = filter f l.
Proof. intros H. simpl. now rewrite H. Qed.

Lemma perm_insert {A} (a : A) l1 l2 l :
  Permutation (l1 ++ l2) l -> Permutation (l1 ++ a :: l2) (a :: l).
Proof.
  intros H. symmetry. apply Permutation_cons_app. now symmetry.
Qed.

(** The five sections, one after the other, hold the tasks of the list:
    each occurrence once. *)
Lemma buckets_permutation now ts :
  Permutation
    (filter (bucketTest now Overdue) ts ++ filter (bucketTest now Today) ts
     ++ filter (bucketTest now Upcoming) ts
     ++ filter (bucketTest now NoDate) ts
     ++ filter (bucketTest now Completed) ts)%list
    ts.
Proof.
  induction ts as [| a ts IH]; [constructor|].
  destruct (bucketOf now a) eqn:Hb.
  - rewrite (filter_cons_true (bucketTest now Overdue))
      by now apply bucketTest_iff.
    rewrite !(filter_cons_false _ a)
      by (eapply bucketTest_other; [exact Hb | discriminate]).
    simpl. now constructor.
  - rewrite (filter_cons_true (bucketTest now Today))
      by now apply bucketTest_iff.
    rewrite !(filter_cons_false _ a)
      by (eapply bucketTest_other; [exact Hb | discriminate]).
    now apply perm_insert.
  - rewrite (filter_cons_true (bucketTest now Upcoming))
      by now apply bucketTest_iff.
    rewrite !(filter_cons_false _ a)
      by (eapply bucketTest_other; [exact Hb | discriminate]).
    rewrite app_assoc. apply perm_insert. now rewrite <- app_assoc.
  - rewrite (filter_cons_true (bucketTest now NoDate))
      by now apply bucketTest_iff.
    rewrite !(filter_cons_false _ a)
      by (eapply bucketTest_other; [exact Hb | discriminate]).
    rewrite 2!app_assoc. apply perm_insert. now rewrite <- 2!app_assoc.
  - rewrite (filter_cons_true (bucketTest now Completed))
      by now apply bucketTest_iff.
    rewrite !(filter_cons_false _ a)
      by (eapply bucketTest_other; [exact Hb | discriminate]).
    rewrite 3!app_assoc. apply perm_insert. now rewrite <- 3!app_assoc.
Qed.

(** C2: the list projection splits any task list into the five buckets
    overdue (a due date before today's, not completed), due today (not
    completed), upcoming (a due date after today's, not completed), no date
    (not completed) and completed.  A bucket holds exactly the tasks of
    the list that the classification gives it; every task of the list is
    in exactly one bucket; the buckets together are a rearrangement of
    the list; and a task that is not completed and has a due date is in
    exactly one of overdue, today and upcoming. *)
Theorem renderListView_partition (now : Z) (ts : list Task) :
  let v := renderListView now ts in
  (forall b t, In t (bucket v b) <-> In t ts /\ bucketOf now t = b)
  /\ (forall t, In t ts ->
        exists b, In t (bucket v b)
                  /\ forall b', In t (bucket v b') -> b' = b)
  /\ Permutation
       (bucket v Overdue ++ bucket v Today ++ bucket v Upcoming
        ++ bucket v NoDate ++ bucket v Completed)%list ts
  /\ (forall t, In t ts -> completed t = false -> dueDate t <> "" ->
        exists b, (b = Overdue \/ b = Today \/ b = Upcoming)
                  /\ In t (bucket v b)
                  /\ forall b', In t (bucket v b') -> b' = b).
Proof.
  cbv zeta. split; [|split; [|split]].
  - intros b t. apply in_bucket_iff.
  - intros t Ht. exists (bucketOf now t). split.
    + now apply in_bucket_iff.
    + intros b' Hb'. apply in_bucket_iff in Hb'. now destruct Hb'.
  - rewrite !bucket_filter. apply buckets_permutation.
  - intros t Ht Hc Hd. exists (bucketOf now t). split; [|split].
    + unfold bucketOf. rewrite Hc.
      destruct (String.eqb_spec (dueDate t) ""); [contradiction|].
      destruct (String.compare (dueDate t) (JsDate.isoDate now)); auto.
    + now apply in_bucket_iff.
    + intros b' Hb'. apply in_bucket_iff in Hb'. now destruct Hb'.
Qed.

(** ** Sorting *)

Section SortBlocks.
Context {A : Type} (compare : A -> A -> option Z) (done : A -> bool).

Hypothesis done_greater :
  forall y x, done y = true -> done x = false -> greater compare y x = true.
Hypothesis undone_not_greater :
  forall y x, done y = false -> done x = true -> greater compare y x = false.

Lemma insert_Forall (P : A -> Prop) x l :
  P x -> Forall P l -> Forall P (insert compare x l).
Proof.
  intros Hx Hl. induction Hl as [| y r Hy Hr IH]; simpl.
  - now constructor.
  - destruct (greater compare y x); repeat constructor; assumption.
Qed.

Lemma insert_doneLast x l :
  doneLast done l -> doneLast done (insert compare x l).
Proof.
  intros (l1 & l2 & -> & H1 & H2).
  induction H1 as [| y r Hy Hr IH].
  - simpl. destruct (done x) eqn:Hx.
    + exists [], (insert compare x l2). repeat split; [constructor|].
      now apply insert_Forall.
    + exists [x], l2. repeat split; [| now repeat constructor | assumption].
      destruct H2 as [| y r Hy Hr]; [reflexivity|].
      simpl. now rewrite (done_greater y x Hy Hx).
  - simpl. destruct (greater compare y x) eqn:G.
    + assert (Hx : done x = false).
      { destruct (done x) eqn:Hx; [|reflexivity].
        rewrite (undone_not_greater y x Hy Hx) in G. discriminate. }
      exists (x :: y :: r), l2. repeat split; [| assumption].
      now repeat constructor.
    + destruct IH as (k1 & k2 & E & K1 & K2).
      exists (y :: k1), k2. repeat split; [| now constructor | assumption].
      simpl. now rewrite E.
Qed.

Lemma fold_insert_doneLast l acc :
  doneLast done acc ->
  doneLast done (fold_left (fun acc x => insert compare x acc) l acc).
Proof.
  revert acc. induction l as [| x l IH]; intros acc Hacc; simpl.
  - assumption.
  - apply IH. now apply insert_doneLast.
Qed.

Lemma sort_doneLast l : doneLast done (sort compare l).
Proof.
  apply fold_insert_doneLast. exists [], []. repeat split; constructor.
Qed.

Lemma ordered_doneLast l : ordered compare l -> doneLast done l.
Proof.
  induction l as [| a r IH]; intros Ho.
  - exists [], []. repeat split; constructor.
  - assert (Hr : ordered compare r).
    { intros l1 x l2 y l3 E. apply (Ho (a :: l1) x l2 y l3).
      simpl. now rewrite E. }
    destruct (IH Hr) as (k1 & k2 & E & K1 & K2).
    destruct (done a) eqn:Ha.
    + exists [], (a :: r). repeat split; [constructor|].
      constructor; [assumption|]. apply Forall_forall. intros b Hb.
      destruct (done b) eqn:Hdb; [reflexivity|].
      apply in_split in Hb as (l2 & l3 & ->).
      pose proof (Ho [] a l2 b l3 eq_refl) as G.
      rewrite (done_greater a b Ha Hdb) in G. discriminate.
    + exists (a :: k1), k2. repeat split; [| now constructor | assumption].
      simpl. now rewrite E.
Qed.

Lemma insert_perm x l : Permutation (insert compare x l) (x :: l).
Proof.
  induction l as [| y r IH]; simpl; [reflexivity|].
  destruct (greater compare y x); [reflexivity|].
  rewrite IH. apply perm_swap.
Qed.

Lemma fold_insert_perm l acc :
  Permutation (fold_left (fun acc x => insert compare x acc) l acc)
    (acc ++ l)%list.
Proof.
  revert acc. induction l as [| x l IH]; intros acc; simpl.
  - now rewrite app_nil_r.
  - rewrite IH, insert_perm. apply Permutation_middle.
Qed.
End SortBlocks.

Lemma sort_perm {A} (compare : A -> A -> option Z) l :
  Permutation (sort compare l) l.
Proof. unfold sort. now rewrite fold_insert_perm. Qed.

Lemma compareTasks_done_greater localeCompare parseDate sortBy y x :
  completed y = true -> completed x = false ->
  greater (compareTasks localeCompare parseDate sortBy) y x = true.
Proof.
  intros Hy Hx. unfold greater, compareTasks. now rewrite Hy, Hx.
Qed.

Lemma compareTasks_undone_not_greater localeCompare parseDate sortBy y x :
  completed y = false -> completed x = true ->
  greater (compareTasks localeCompare parseDate sortBy) y x = false.
Proof.
  intros Hy Hx. unfold greater, compareTasks. now rewrite Hy, Hx.
Qed.

(** Whatever algorithm the engine sorts with, a result ordered by the
    comparison of [getFilteredTasks] has its completed tasks last. *)
Lemma ordered_completed_last localeCompare parseDate sortBy l :
  ordered (compareTasks localeCompare parseDate sortBy) l ->
  doneLast completed l.
Proof.
  apply ordered_doneLast. apply compareTasks_done_greater.
Qed.

(** C3: whatever the task list, the category filter, the search text and
    the sort mode (priority, created, alphabetical, date or any other
    value of the selector), the sequence the filter/sort pipeline returns
    is a block of incomplete tasks followed by a block of completed ones:
    no completed task precedes an incomplete one.  The sequence is a
    rearrangement of the tasks that pass the filters. *)
Theorem getFilteredTasks_completed_last
    (localeCompare : string -> string -> Z) (parseDate : string -> option Z)
    (searchInput sortBy : string) (m : TaskManager) :
  let r := getFilteredTasks localeCompare parseDate searchInput sortBy m in
  (exists incomplete complete,
      r = (incomplete ++ complete)%list
      /\ Forall (fun t => completed t = false) incomplete
      /\ Forall (fun t => completed t = true) complete)
  /\ Permutation r (keptTasks searchInput m).
Proof.
  cbv zeta. split.
  - apply (sort_doneLast _ completed).
    + apply compareTasks_done_greater.
    + apply compareTasks_undone_not_greater.
  - unfold getFilteredTasks, keptTasks. apply sort_perm.
Qed.

(** ** Loading *)

Lemma strOr_some s d : s <> "" -> strOr (Some s) d = s.
Proof.
  intros H. unfold strOr, Str.or_else, Str.truthy.
  destruct (String.eqb_spec s ""); [contradiction | reflexivity].
Qed.

Lemma truthy_true s : s <> "" -> Str.truthy s = true.
Proof.
  intros H. unfold Str.truthy.
  destruct (String.eqb_spec s ""); [contradiction | reflexivity].
Qed.

Lemma strOr_missing a d : a = None \/ a = Some "" -> strOr a d = d.
Proof. intros [-> | ->]; reflexivity. Qed.

Lemma loadTags_repaired (en : Entry) (tgs : list string) :
  loadTags (e_tags en) = Some tgs ->
  e_tags en <> Some (TagsOther true)
  /\ (e_tags en = None \/ e_tags en = Some (TagsText "")
      \/ e_tags en = Some (TagsOther false) -> tgs = [])
  /\ (forall a, e_tags en = Some (TagsArray a) -> tgs = a)
  /\ (forall s, e_tags en = Some (TagsText s) -> s <> "" ->
        tgs = map Str.trim (Str.split_comma s)).
Proof.
  intros H. split; [intros E; rewrite E in H; discriminate|].
  split; [|split].
  - intros [E | [E | E]]; rewrite E in H; simpl in H; congruence.
  - intros a E. rewrite E in H. simpl in H. congruence.
  - intros s E Hs. rewrite E in H. simpl in H.
    rewrite (truthy_true s Hs) in H. congruence.
Qed.

Lemma loadTask_spec now r e :
  (raises e /\ loadTask now r e = None)
  \/ (exists t, loadTask now r e = Some t /\ repaired e t).
Proof.
  destruct e as [en|]; [| left; split; [now left | reflexivity]].
  unfold loadTask.
  destruct (loadTags (e_tags en)) as [tgs|] eqn:Ht.
  - right. eexists. split; [reflexivity|]. exists en.
    destruct (loadTags_repaired en tgs Ht) as (T0 & T1 & T2 & T3).
    cbn [priority category tags].
    split; [reflexivity|]. split; [exact T0|].
    split; [apply strOr_missing|].
    split; [intros p E Hp; rewrite E; now apply strOr_some|].
    split; [apply strOr_missing|].
    split; [intros c E Hc; rewrite E; now apply strOr_some|].
    split; [exact T1 | split; [exact T2 | exact T3]].
  - left. split; [|reflexivity]. right. exists en. split; [reflexivity|].
    destruct (e_tags en) as [[a | s | [|]] |]; simpl in Ht;
      try discriminate; [|reflexivity].
    destruct (Str.truthy s); discriminate.
Qed.

Lemma repaired_not_raises e t : repaired e t -> ~ raises e.
Proof.
  intros (en & -> & Hn & _) [H | (en' & H & Ht)]; [discriminate|].
  injection H as <-. contradiction.
Qed.

Lemma loadAll_spec now rnd l : forall i,
  (Exists raises l /\ loadAll now rnd i l = None)
  \/ (exists ts, loadAll now rnd i l = Some ts /\ Forall2 repaired l ts).
Proof.
  induction l as [| e l IH]; intros i; simpl.
  - right. exists []. split; [reflexivity | constructor].
  - destruct (loadTask_spec now (rnd i) e) as [[Hr ->] | (t & -> & Ht)].
    + left. split; [now constructor | reflexivity].
    + destruct (IH (S i)) as [[Hr ->] | (ts & -> & Hts)].
      * left. split; [now apply Exists_cons_tl | reflexivity].
      * right. exists (t :: ts). split; [reflexivity | now constructor].
Qed.

(** C4, as the code has it: an unparseable payload, and one that is not an
    array, load as the empty list.  An array with an element on which the
    loader throws (null, or truthy tags that are neither an array nor
    text) loads as the empty list.  Every other array loads as one task
    per element, in order: a missing or empty priority becomes medium, a
    missing or empty category personal, tags given as an array are kept
    as they are, tags given as non-empty comma-separated text are split
    at the commas and each piece trimmed, in order (nothing is
    deduplicated), and missing, empty or otherwise falsy tags become the
    empty list. *)
Theorem loadTasks_repairs (now : Z) (rnd : nat -> Q) :
  loadTasks now rnd Unparseable = []
  /\ loadTasks now rnd NotAnArray = []
  /\ forall l,
       (Exists raises l -> loadTasks now rnd (Entries l) = [])
       /\ (~ Exists raises l ->
           Forall2 repaired l (loadTasks now rnd (Entries l))).
Proof.
  split; [reflexivity | split; [reflexivity|]].
  intros l. unfold loadTasks.
  destruct (loadAll_spec now rnd l 0%nat) as [[Hr ->] | (ts & -> & Hts)].
  - split; [reflexivity | contradiction].
  - split; [|intros _; exact Hts].
    intros Hr. exfalso. clear -Hr Hts.
    induction Hts as [| e t l ts Het _ IH].
    + inversion Hr.
    + inversion Hr as [? ? He | ? ? Hl]; subst.
      * exact (repaired_not_raises e t Het He).
      * exact (IH Hl).
Qed.

(** C4, as the specification words it, fails: tags given as the text
    "home, home" load as two equal tags. *)
Lemma loadTasks_keeps_duplicate_tags :
  map tags
    (loadTasks 0 noRandom
       (Entries [Some (withTags (TagsText "home, home") emptyEntry)]))
  = [["home"; "home"]]
  /\ ~ NoDup ["home"; "home"].
Proof.
  split; [vm_compute; reflexivity|].
  intros H. inversion H as [| x l Hin _]. apply Hin. now left.
Qed.

(** ** Store operations *)

Lemma tasks_setTasks l m : tasks (setTasks l m) = l.
Proof. reflexivity. Qed.

Lemma tasks_saveTasks m : tasks (saveTasks m) = tasks m.
Proof. unfold saveTasks. now destruct (storageWritable m). Qed.

Lemma tasks_showToast a b m : tasks (showToast a b m) = tasks m.
Proof. reflexivity. Qed.

Lemma tasks_closeModal m : tasks (closeModal m) = tasks m.
Proof. reflexivity. Qed.

Create Rewrite HintDb store.
#[local] Hint Rewrite tasks_closeModal tasks_showToast tasks_saveTasks
  tasks_setTasks : store.

(** The task list after each operation. *)
Lemma tasks_addTask now rnd taskData m :
  tasks (snd (addTask now rnd taskData m))
  = if Str.truthy (Str.trim (d_title taskData))
    then (tasks m ++ [taskOfData now rnd taskData])%list
    else tasks m.
Proof.
  unfold addTask. simpl title.
  destruct (Str.truthy (Str.trim (d_title taskData))); simpl;
    now autorewrite with store.
Qed.

Lemma findIndex_nth key l i :
  findIndex key l = Some i ->
  exists t, nth_error l i = Some t /\ sameId key t = true.
Proof.
  revert i. induction l as [| a l IH]; intros i; simpl; [discriminate|].
  destruct (sameId key a) eqn:E.
  - intros [= <-]. now exists a.
  - destruct (findIndex key l) as [j|]; [|discriminate].
    intros [= <-]. now apply IH.
Qed.

Lemma tasks_updateTask key updates m :
  tasks (snd (updateTask key updates m))
  = match findIndex key (tasks m) with
    | Some i =>
        match nth_error (tasks m) i with
        | Some old => setAt i (merge old updates) (tasks m)
        | None => tasks m
        end
    | None => tasks m
    end.
Proof.
  unfold updateTask. destruct (findIndex key (tasks m)); [|reflexivity].
  destruct (nth_error (tasks m) n); [|reflexivity].
  simpl. now autorewrite with store.
Qed.

Lemma tasks_deleteTask confirmed key m :
  tasks (snd (deleteTask confirmed key m))
  = if confirmed then
      match findIndex key (tasks m) with
      | Some i => removeAt i (tasks m)
      | None => tasks m
      end
    else tasks m.
Proof.
  unfold deleteTask. destruct confirmed; [|reflexivity]. simpl.
  destruct (findIndex key (tasks m)); [|reflexivity].
  simpl. now autorewrite with store.
Qed.

Lemma toggleFirst_none now key l :
  find key l = None -> toggleFirst now key l = l.
Proof.
  unfold find. induction l as [| a l IH]; simpl; [reflexivity|].
  destruct (sameId key a); [discriminate|]. intros H. now rewrite IH.
Qed.

Lemma tasks_toggleTaskComplete now key m :
  tasks (snd (toggleTaskComplete now key m)) = toggleFirst now key (tasks m).
Proof.
  unfold toggleTaskComplete. destruct (find key (tasks m)) eqn:E.
  - simpl. now autorewrite with store.
  - simpl. symmetry. now apply toggleFirst_none.
Qed.

(** The first task with the given id, and what a toggle does to the
    list around it. *)
Lemma find_split key l t :
  find key l = Some t ->
  exists l1 l2,
    l = (l1 ++ t :: l2)%list
    /\ Forall (fun x => sameId key x = false) l1
    /\ sameId key t = true.
Proof.
  unfold find. induction l as [| a l IH]; simpl; [discriminate|].
  destruct (sameId key a) eqn:E.
  - intros [= <-]. exists [], l. repeat split; [constructor | assumption].
  - intros H. destruct (IH H) as (l1 & l2 & -> & H1 & H2).
    exists (a :: l1), l2. repeat split; [now constructor | assumption].
Qed.

Lemma toggleFirst_split now key l1 t l2 :
  Forall (fun x => sameId key x = false) l1 ->
  sameId key t = true ->
  toggleFirst now key (l1 ++ t :: l2) = (l1 ++ toggled now t :: l2)%list.
Proof.
  intros H1 H2. induction H1 as [| a l1 Ha _ IH]; simpl.
  - now rewrite H2.
  - now rewrite Ha, IH.
Qed.

Lemma find_app_first key l1 t l2 :
  Forall (fun x => sameId key x = false) l1 ->
  sameId key t = true ->
  find key (l1 ++ t :: l2) = Some t.
Proof.
  unfold find. intros H1 H2. induction H1 as [| a l1 Ha _ IH]; simpl.
  - now rewrite H2.
  - now rewrite Ha.
Qed.

Lemma sameId_toggled now key t : sameId key (toggled now t) = sameId key t.
Proof. reflexivity. Qed.

(** ** Toggling completion *)

Lemma sameButCompletion_toggled now t : sameButCompletion t (toggled now t).
Proof. unfold sameButCompletion. simpl. tauto. Qed.

(** C10: when the id is present, one call of toggleTaskComplete returns
    true and changes the first task with that id in its completed and
    completedAt attributes only; its other attributes, every other task,
    the length and the order of the list stay as they were, and so do the
    filters, the view, the editing state and the calendar month. *)
Theorem toggleTaskComplete_frame
    (now : Z) (key : option Q) (m : TaskManager) (t : Task) :
  find key (tasks m) = Some t ->
  let r := toggleTaskComplete now key m in
  fst r = true
  /\ (exists l1 l2 t',
        tasks m = (l1 ++ t :: l2)%list
        /\ tasks (snd r) = (l1 ++ t' :: l2)%list
        /\ sameButCompletion t t'
        /\ completed t' = negb (completed t)
        /\ completedAt t' = (if completed t' then Some now else None))
  /\ List.length (tasks (snd r)) = List.length (tasks m)
  /\ currentFilter (snd r) = currentFilter m
  /\ currentCategory (snd r) = currentCategory m
  /\ currentView (snd r) = currentView m
  /\ currentEditingTask (snd r) = currentEditingTask m
  /\ currentInputMode (snd r) = currentInputMode m
  /\ calendarDate (snd r) = calendarDate m.
Proof.
  intros Hf. cbv zeta.
  destruct (find_split key (tasks m) t Hf) as (l1 & l2 & E & H1 & H2).
  assert (Ht : tasks (snd (toggleTaskComplete now key m))
               = (l1 ++ toggled now t :: l2)%list).
  { rewrite tasks_toggleTaskComplete, E. now apply toggleFirst_split. }
  split; [| split; [| split]].
  - unfold toggleTaskComplete. now rewrite Hf.
  - exists l1, l2, (toggled now t).
    repeat split; try assumption; apply sameButCompletion_toggled.
  - rewrite Ht, E, !length_app. reflexivity.
  - unfold toggleTaskComplete, saveTasks. rewrite Hf. simpl.
    destruct (storageWritable m); simpl; tauto.
Qed.

Lemma toggleTaskComplete_frame_witness :
  find (Some 1%Q) (tasks twoTasks) = Some waterPlants
  /\ (let r := toggleTaskComplete 9 (Some 1%Q) twoTasks in
      fst r = true
      /\ (exists l1 l2 t',
            tasks twoTasks = (l1 ++ waterPlants :: l2)%list
            /\ tasks (snd r) = (l1 ++ t' :: l2)%list
            /\ sameButCompletion waterPlants t'
            /\ completed t' = negb (completed waterPlants)
            /\ completedAt t' = (if completed t' then Some 9 else None))
      /\ List.length (tasks (snd r)) = List.length (tasks twoTasks)
      /\ currentFilter (snd r) = currentFilter twoTasks
      /\ currentCategory (snd r) = currentCategory twoTasks
      /\ currentView (snd r) = currentView twoTasks
      /\ currentEditingTask (snd r) = currentEditingTask twoTasks
      /\ currentInputMode (snd r) = currentInputMode twoTasks
      /\ calendarDate (snd r) = calendarDate twoTasks).
Proof.
  split; [reflexivity|].
  exact (toggleTaskComplete_frame 9 (Some 1%Q) twoTasks waterPlants eq_refl).
Defined.

(** C9, as the code has it: for a task present in the store, two calls of
    toggleTaskComplete on its id leave every task of the list in place
    and give back the task with all its attributes other than completedAt
    as they were, completed included.  completedAt is absent after the
    second call exactly when the task was not completed before the first
    (so a task that was not completed and had no completedAt is the same
    task again); for a task that was completed it is the time of the
    second call. *)
Theorem toggleTaskComplete_twice
    (now1 now2 : Z) (key : option Q) (m : TaskManager) (t : Task) :
  find key (tasks m) = Some t ->
  let m2 := snd (toggleTaskComplete now2 key
                   (snd (toggleTaskComplete now1 key m))) in
  exists l1 l2 t2,
    tasks m = (l1 ++ t :: l2)%list
    /\ tasks m2 = (l1 ++ t2 :: l2)%list
    /\ sameButCompletion t t2
    /\ completed t2 = completed t
    /\ (completedAt t2 = None <-> completed t = false)
    /\ (completed t = true -> completedAt t2 = Some now2)
    /\ (completed t = false -> completedAt t = None -> t2 = t).
Proof.
  intros Hf. cbv zeta.
  destruct (find_split key (tasks m) t Hf) as (l1 & l2 & E & H1 & H2).
  exists l1, l2, (toggled now2 (toggled now1 t)).
  split; [assumption|]. split.
  - rewrite !tasks_toggleTaskComplete, E.
    rewrite (toggleFirst_split now1) by assumption.
    now apply toggleFirst_split.
  - unfold sameButCompletion. simpl. rewrite negb_involutive.
    destruct t as [i ti de c p ca dd dt tg cr ca']; simpl.
    destruct c; simpl; repeat split; try congruence.
    intros _ ->. reflexivity.
Qed.

Lemma toggleTaskComplete_twice_witness :
  find (Some 1%Q) (tasks twoTasks) = Some waterPlants
  /\ (let m2 := snd (toggleTaskComplete 12 (Some 1%Q)
                      (snd (toggleTaskComplete 9 (Some 1%Q) twoTasks))) in
      exists l1 l2 t2,
        tasks twoTasks = (l1 ++ waterPlants :: l2)%list
        /\ tasks m2 = (l1 ++ t2 :: l2)%list
        /\ sameButCompletion waterPlants t2
        /\ completed t2 = completed waterPlants
        /\ (completedAt t2 = None <-> completed waterPlants = false)
        /\ (completed waterPlants = true -> completedAt t2 = Some 12)
        /\ (completed waterPlants = false ->
            completedAt waterPlants = None -> t2 = waterPlants)).
Proof.
  split; [reflexivity|].
  exact (toggleTaskComplete_twice 9 12 (Some 1%Q) twoTasks waterPlants
           eq_refl).
Defined.

(** C9, as the specification words it, fails: the loaded task has no
    completedAt, and has one after two toggles. *)
Lemma toggleTaskComplete_twice_sets_completedAt :
  map completedAt (tasks legacyStore) = [None]
  /\ map completedAt
       (tasks (snd (toggleTaskComplete 20 (Some 7%Q)
                      (snd (toggleTaskComplete 10 (Some 7%Q) legacyStore)))))
     = [Some 20].
Proof. split; vm_compute; reflexivity. Qed.

(** ** Adding *)

Lemma trimStart_all_space s :
  (forall c r, Str.trimStart s = String c r -> Str.isSpace c = false).
Proof.
  induction s as [| a s IH]; simpl; [discriminate|].
  destruct (Str.isSpace a) eqn:E; [assumption|].
  intros c r [= <- <-]. assumption.
Qed.

(** A title made of white space only is empty after trimming. *)
Lemma trim_white_space s :
  forallb Str.isSpace (list_ascii_of_string s) = true -> Str.trim s = "".
Proof.
  unfold Str.trim. induction s as [| a s IH]; simpl; [reflexivity|].
  intros H. apply andb_prop in H as [Ha Hs]. rewrite Ha. now apply IH.
Qed.

(** C7: for every input whose title is empty after trimming, addTask
    returns false and shows the error toast "Task title cannot be empty.";
    no task is appended, the stored item is not rewritten, and no other
    field of the manager changes. *)
Theorem addTask_rejects_empty_title
    (now : Z) (rnd : Q) (taskData : TaskData) (m : TaskManager) :
  Str.trim (d_title taskData) = "" ->
  let r := addTask now rnd taskData m in
  fst r = false
  /\ tasks (snd r) = tasks m
  /\ localStorage (snd r) = localStorage m
  /\ toasts (snd r)
     = (toasts m ++ [("Task title cannot be empty.", "error")])%list
  /\ snd r = showToast "Task title cannot be empty." "error" m.
Proof.
  intros H. cbv zeta. unfold addTask. simpl title. rewrite H. simpl.
  repeat split.
Qed.

Lemma addTask_rejects_empty_title_witness :
  Str.trim (d_title (titled "   ")) = ""
  /\ (let r := addTask 1000 (1 # 2) (titled "   ") twoTasks in
      fst r = false
      /\ tasks (snd r) = tasks twoTasks
      /\ localStorage (snd r) = localStorage twoTasks
      /\ toasts (snd r)
         = (toasts twoTasks ++ [("Task title cannot be empty.", "error")])%list
      /\ snd r = showToast "Task title cannot be empty." "error" twoTasks).
Proof.
  split; [reflexivity|].
  exact (addTask_rejects_empty_title 1000 (1 # 2) (titled "   ") twoTasks
           eq_refl).
Defined.

(** A task that [addTask] stores has a title that is not empty. *)
Lemma addTask_title_nonempty now rnd taskData m :
  fst (addTask now rnd taskData m) = true ->
  title (taskOfData now rnd taskData) <> "".
Proof.
  unfold addTask. simpl title.
  destruct (Str.truthy (Str.trim (d_title taskData))) eqn:E; simpl;
    [|discriminate].
  intros _ H. unfold Str.truthy in E. rewrite H in E. discriminate.
Qed.

(** Adding, toggling and deleting keep every title of the store
    non-empty. *)
Lemma step_keeps_titles m op :
  (forall key u, op <> Update key u) ->
  Forall (fun t => title t <> "") (tasks m) ->
  Forall (fun t => title t <> "") (tasks (step m op)).
Proof.
  intros Hop Hm. destruct op as [now rnd d | key u | c key | now key]; simpl.
  - rewrite tasks_addTask.
    destruct (Str.truthy (Str.trim (d_title d))) eqn:E; [|assumption].
    apply Forall_app. split; [assumption|].
    constructor; [|constructor]. simpl. intros H.
    unfold Str.truthy in E. rewrite H in E. discriminate.
  - now destruct (Hop key u).
  - rewrite tasks_deleteTask. destruct c; [|assumption].
    destruct (findIndex key (tasks m)); [|assumption].
    revert n. induction Hm as [| a l Ha Hl IH]; intros n; destruct n; simpl;
      try constructor; auto.
  - rewrite tasks_toggleTaskComplete.
    induction Hm as [| a l Ha Hl IH]; simpl; [constructor|].
    destruct (sameId key a); constructor; auto.
Qed.

(** ** The completedAt invariant *)

Lemma consistent_toggled now t : consistent (toggled now t).
Proof.
  unfold consistent. simpl. destruct (negb (completed t)); split; congruence.
Qed.

Lemma consistent_taskOfData now rnd d : consistent (taskOfData now rnd d).
Proof. unfold consistent. simpl. split; congruence. Qed.

Lemma consistent_merge t u :
  u_completed u = None -> u_completedAt u = None ->
  consistent t -> consistent (merge t u).
Proof.
  unfold consistent. simpl. intros -> ->. simpl. tauto.
Qed.

Lemma Forall_setAt (P : Task -> Prop) i v l :
  Forall P l -> P v -> Forall P (setAt i v l).
Proof.
  intros Hl Hv. revert i.
  induction Hl as [| a l Ha Hl IH]; intros i; destruct i; simpl;
    constructor; auto.
Qed.

Lemma Forall_removeAt (P : Task -> Prop) i l :
  Forall P l -> Forall P (removeAt i l).
Proof.
  intros Hl. revert i.
  induction Hl as [| a l Ha Hl IH]; intros i; destruct i; simpl;
    try constructor; auto.
Qed.

Lemma Forall_toggleFirst (P : Task -> Prop) now key l :
  (forall t, P (toggled now t)) -> Forall P l ->
  Forall P (toggleFirst now key l).
Proof.
  intros Ht Hl. induction Hl as [| a l Ha Hl IH]; simpl.
  - constructor.
  - destruct (sameId key a); constructor; auto.
Qed.

Lemma step_consistent m op :
  keepsCompletion op ->
  Forall consistent (tasks m) -> Forall consistent (tasks (step m op)).
Proof.
  intros Hop Hm. destruct op as [now rnd d | key u | c key | now key]; simpl.
  - rewrite tasks_addTask. destruct (Str.truthy _); [|assumption].
    apply Forall_app. split; [assumption|].
    constructor; [apply consistent_taskOfData | constructor].
  - rewrite tasks_updateTask.
    destruct (findIndex key (tasks m)) as [i|]; [|assumption].
    destruct (nth_error (tasks m) i) as [old|] eqn:E; [|assumption].
    destruct Hop as [Hc Ha].
    apply Forall_setAt; [assumption|].
    apply consistent_merge; try assumption.
    rewrite Forall_forall in Hm. apply Hm. eapply nth_error_In, E.
  - rewrite tasks_deleteTask. destruct c; [|assumption].
    destruct (findIndex key (tasks m)); [|assumption].
    now apply Forall_removeAt.
  - rewrite tasks_toggleTaskComplete.
    apply Forall_toggleFirst; [apply consistent_toggled | assumption].
Qed.

Lemma run_consistent ops : forall m,
  Forall keepsCompletion ops ->
  Forall consistent (tasks m) -> Forall consistent (tasks (run ops m)).
Proof.
  unfold run. induction ops as [| op ops IH]; intros m Hops Hm; simpl.
  - assumption.
  - inversion Hops as [| ? ? Hop Hrest]; subst.
    apply IH; [assumption|]. now apply step_consistent.
Qed.

Lemma loadTask_consistent now r e t :
  entryConsistent e -> loadTask now r e = Some t -> consistent t.
Proof.
  destruct e as [en|]; simpl; [|discriminate].
  intros He. destruct (loadTags (e_tags en)); [|discriminate].
  intros [= <-]. unfold consistent. simpl.
  unfold boolOr, numOrNull.
  destruct (e_completed en) as [[|]|], (e_completedAt en) as [n|];
    try destruct (Z.eqb_spec n 0); subst; split; intros H;
    try congruence; try reflexivity; exfalso.
  - destruct He as [He _]. destruct (He eq_refl) as (k & [= <-] & Hk).
    now apply Hk.
  - destruct He as [He _]. destruct (He eq_refl) as (k & Hk & _).
    discriminate.
  - destruct He as [_ He]. discriminate He. now exists n.
  - destruct He as [_ He]. discriminate He. now exists n.
Qed.

Lemma loadAll_consistent now rnd l : forall i ts,
  Forall entryConsistent l -> loadAll now rnd i l = Some ts ->
  Forall consistent ts.
Proof.
  induction l as [| e l IH]; intros i ts Hl; simpl.
  - intros [= <-]. constructor.
  - inversion Hl as [| ? ? He Hr]; subst.
    destruct (loadTask now (rnd i) e) as [t|] eqn:Et; [|discriminate].
    destruct (loadAll now rnd (S i) l) as [ts'|] eqn:Ets; [|discriminate].
    intros [= <-]. constructor.
    + eapply loadTask_consistent; eassumption.
    + eapply IH; eassumption.
Qed.

Lemma loadTasks_consistent now rnd s :
  savedConsistent s -> Forall consistent (loadTasks now rnd s).
Proof.
  destruct s as [| | l]; simpl; try constructor.
  intros Hl. destruct (loadAll now rnd 0 l) as [ts|] eqn:E; [|constructor].
  eapply loadAll_consistent; eassumption.
Qed.

(** C5, as the code has it: when the store is loaded from a payload whose
    records each have completed true exactly when they carry a completedAt
    other than 0, then after any sequence of add, toggle, delete and of
    updates that carry neither completed nor completedAt, every task of
    the store has completedAt present if and only if it is completed. *)
Theorem completedAt_iff_completed
    (now : Z) (rnd : nat -> Q) (storage : Saved) (writable : bool)
    (ops : list Op) :
  savedConsistent storage ->
  Forall keepsCompletion ops ->
  Forall consistent (tasks (run ops (newTaskManager now rnd storage writable))).
Proof.
  intros Hs Hops. apply run_consistent; [assumption|].
  simpl. now apply loadTasks_consistent.
Qed.

Lemma completedAt_iff_completed_witness :
  savedConsistent (Entries [Some doneEntry])
  /\ Forall keepsCompletion sampleOps
  /\ Forall consistent
       (tasks (run sampleOps
                 (newTaskManager 999 noRandom (Entries [Some doneEntry]) true))).
Proof.
  assert (Hs : savedConsistent (Entries [Some doneEntry])).
  { constructor; [|constructor]. simpl. split; [|reflexivity].
    intros _. exists 4. split; [reflexivity | discriminate]. }
  assert (Ho : Forall keepsCompletion sampleOps).
  { repeat constructor. }
  split; [exact Hs | split; [exact Ho|]].
  exact (completedAt_iff_completed 999 noRandom (Entries [Some doneEntry])
           true sampleOps Hs Ho).
Defined.

(** C5, as the specification words it, fails: a record persisted as
    completed without a completedAt loads as a completed task with no
    completedAt, and an update that carries completed alone leaves
    completedAt as it was. *)
Lemma completed_without_completedAt :
  map (fun t => (completed t, completedAt t)) (tasks legacyStore)
  = [(true, None)]
  /\ map (fun t => (completed t, completedAt t))
       (tasks (snd (updateTask (Some 1%Q) (completionUpdate true) twoTasks)))
     = [(true, None); (true, Some 5)].
Proof. split; vm_compute; reflexivity. Qed.

(** ** Titles *)

(** C6 fails on the code: a task is added with the title "Pay rent",
    opened in the edit dialog and saved with the title box emptied;
    updateTask returns true and the stored task has the empty title. *)
Theorem handleSaveEdit_stores_empty_title :
  let key := Some (freshId 1000 (1 # 2)) in
  map title (tasks payRent) = ["Pay rent"]
  /\ map title (tasks (handleSaveEdit clearedTitle (openEditTask key payRent)))
     = [""]
  /\ fst (updateTask key (titleUpdate "") payRent) = true
  /\ map title (tasks (snd (updateTask key (titleUpdate "") payRent))) = [""].
Proof. cbv zeta. repeat split; vm_compute; reflexivity. Qed.

(** ** Calendar projection *)

Lemma map_retract {A B} (f : A -> B) (g : B -> A) l :
  (forall a, g (f a) = a) -> map g (map f l) = l.
Proof.
  intros H. induction l as [| a l IH]; simpl; [reflexivity|].
  now rewrite H, IH.
Qed.

(** The container holds the seven day names, then as many blank cells as
    the weekday of the first of the month, then one cell per day of the
    month, numbered in order. *)
Lemma renderCalendarView_shape tz parseDate now m :
  let year := JsDate.getFullYear tz (calendarDate m) in
  let month := JsDate.getMonth tz (calendarDate m) in
  let K := JsDate.getDay tz (JsDate.fromLocal tz year month 1) in
  let N := JsDate.getDate tz (JsDate.fromLocal tz year (month + 1) 0) in
  exists days,
    renderCalendarView tz parseDate now m
    = (map DayName dayNames ++ repeat OtherMonth (Z.to_nat K) ++ days)%list
    /\ forallb isDayCell days = true
    /\ map dayNumber days = daysUpTo N.
Proof.
  cbv zeta. eexists. split; [reflexivity|]. split.
  - rewrite forallb_forall. intros c Hc. apply in_map_iff in Hc.
    destruct Hc as (d & <- & _). reflexivity.
  - apply map_retract. intros d. reflexivity.
Qed.

(** C8 fails on the code: in a zone five and a half hours east of UTC the
    cell of day [d] carries the date of day [d - 1], so of the tasks due
    on 1, 15 and 31 January 2024 the first two sit in the cells of days 2
    and 16 and the third in no cell; five hours west of UTC the task due
    on the first of the month is taken for a task of December and sits in
    no cell.  On UTC each sits in the cell of its day. *)
Theorem renderCalendarView_off_utc :
  let east := renderCalendarView 330 JsDate.parseIsoDate 0 (january2024 330) in
  let west :=
    renderCalendarView (-300) JsDate.parseIsoDate 0 (january2024 (-300)) in
  let utc := renderCalendarView 0 JsDate.parseIsoDate 0 (january2024 0) in
  (daysHolding 1 east, daysHolding 2 east, daysHolding 3 east)
  = ([2], [16], [])
  /\ (daysHolding 1 west, daysHolding 2 west, daysHolding 3 west)
     = ([], [15], [31])
  /\ (daysHolding 1 utc, daysHolding 2 utc, daysHolding 3 utc)
     = ([1], [15], [31]).
Proof. cbv zeta. split; [|split]; vm_compute; reflexivity. Qed.

(** * Further properties *)

(** ** Trimming *)

Lemma trimEnd_idem s : Str.trimEnd (Str.trimEnd s) = Str.trimEnd s.
Proof.
  induction s as [| c r IH]; simpl; [reflexivity|].
  destruct (Str.isSpace c && (Str.trimEnd r =? "")%string) eqn:E.
  - reflexivity.
  - simpl. rewrite IH, E. reflexivity.
Qed.

Lemma trimStart_head s :
  Str.trimStart s = ""
  \/ exists c r, Str.trimStart s = String c r /\ Str.isSpace c = false.
Proof.
  induction s as [| a s IH]; simpl; [now left|].
  destruct (Str.isSpace a) eqn:E; [assumption|].
  right. now exists a, s.
Qed.

Lemma trimStart_fixed c r :
  Str.isSpace c = false -> Str.trimStart (String c r) = String c r.
Proof. intros H. simpl. now rewrite H. Qed.

Lemma trimEnd_head c r :
  Str.isSpace c = false ->
  Str.trimEnd (String c r) = String c (Str.trimEnd r).
Proof. intros H. simpl. now rewrite H. Qed.

(** Trimming twice is trimming once. *)
Lemma trim_idem s : Str.trim (Str.trim s) = Str.trim s.
Proof.
  unfold Str.trim.
  destruct (trimStart_head s) as [-> | (c & r & -> & Hc)]; [reflexivity|].
  rewrite (trimEnd_head c r Hc), (trimStart_fixed c _ Hc).
  rewrite <- (trimEnd_head c r Hc). apply trimEnd_idem.
Qed.

Lemma trimmed_trim s : trimmed (Str.trim s).
Proof. apply trim_idem. Qed.

Lemma trimmed_head c r : trimmed (String c r) -> Str.isSpace c = false.
Proof.
  unfold trimmed, Str.trim. intros H.
  destruct (Str.isSpace c) eqn:E; [|reflexivity]. exfalso.
  destruct (trimStart_head (String c r)) as [E0 | (a & u & Ea & Ha)].
  - rewrite E0 in H. discriminate.
  - rewrite Ea, (trimEnd_head a u Ha) in H. injection H as -> _. congruence.
Qed.

(** ** Case folding *)

Lemma foldAscii_lower c : isLower c = true -> Str.foldAscii c = c.
Proof.
  destruct c as [[] [] [] [] [] [] [] []]; vm_compute; congruence.
Qed.

(** A code unit that matches a lower-case pattern letter under the [i]
    flag lower-cases to that letter. *)
Lemma ci_match_lower c b :
  isLower c = true ->
  Ascii.eqb (Str.foldAscii c) (Str.foldAscii b) = true ->
  Str.lowerChar b = c.
Proof.
  intros Hc H. rewrite (foldAscii_lower c Hc) in H.
  apply Ascii.eqb_eq in H. subst c.
  destruct b as [[] [] [] [] [] [] [] []];
    vm_compute in Hc |- *; congruence.
Qed.

Lemma startsWithCI_lower p : forall q s,
  allLower p = true ->
  Str.startsWithCI (p ++ q) s = true ->
  Str.toLowerCase (Str.take (String.length p) s) = p.
Proof.
  induction p as [| c p IH]; intros q s Hp H; simpl; [reflexivity|].
  simpl in Hp. apply andb_prop in Hp as [Hc Hp].
  destruct s as [| b s]; simpl in H; [discriminate|].
  apply andb_prop in H as [Hb H].
  simpl. rewrite (ci_match_lower c b Hc Hb), (IH q s Hp H). reflexivity.
Qed.

(** ** The quick-text parser on any text *)

Lemma priorityAlt_lower w s m0 m1 :
  allLower w = true ->
  Regex.priorityAlt w s = Some (m0, m1) -> Str.toLowerCase m1 = w.
Proof.
  intros Hw. unfold Regex.priorityAlt.
  destruct (Str.startsWithCI (w ++ " priority") s) eqn:E; simpl;
    [|discriminate].
  destruct (Regex.wordBoundary _ _); [|discriminate].
  intros [= _ <-]. eapply startsWithCI_lower; eassumption.
Qed.

Lemma priorityFrom_lower s : forall prev m0 m1,
  Regex.priorityFrom prev s = Some (m0, m1) ->
  Str.toLowerCase m1 = "high" \/ Str.toLowerCase m1 = "medium"
  \/ Str.toLowerCase m1 = "low".
Proof.
  assert (At : forall prev s m0 m1,
             Regex.priorityAt prev s = Some (m0, m1) ->
             Str.toLowerCase m1 = "high" \/ Str.toLowerCase m1 = "medium"
             \/ Str.toLowerCase m1 = "low").
  { intros prev u m0 m1. unfold Regex.priorityAt.
    destruct (Regex.wordBoundary prev (Str.head u)); [|discriminate].
    destruct (Regex.priorityAlt "high" u) as [[a b]|] eqn:Eh.
    { intros [= <- <-]. left.
      now apply (priorityAlt_lower "high" u a b eq_refl). }
    destruct (Regex.priorityAlt "medium" u) as [[a b]|] eqn:Em.
    { intros [= <- <-]. right. left.
      now apply (priorityAlt_lower "medium" u a b eq_refl). }
    intros H. right. right.
    now apply (priorityAlt_lower "low" u m0 m1 eq_refl). }
  induction s as [| c r IH]; intros prev m0 m1; simpl.
  - destruct (Regex.priorityAt prev "") as [[a b]|] eqn:E; [|discriminate].
    intros [= <- <-]. eapply At, E.
  - destruct (Regex.priorityAt prev (String c r)) as [[a b]|] eqn:E.
    + intros [= <- <-]. eapply At, E.
    + apply IH.
Qed.

Lemma wordPrefix_word s :
  Forall (fun c => Str.isWordChar c = true) (chars (Str.wordPrefix s)).
Proof.
  induction s as [| c r IH]; simpl; [constructor|].
  destruct (Str.isWordChar c) eqn:E; simpl; constructor; assumption.
Qed.

Lemma matchHash_word s w : Regex.matchHash s = Some w -> isWord w.
Proof.
  induction s as [| c r IH]; simpl; [discriminate|].
  destruct ((Str.code c =? 35) && negb (Str.wordPrefix r =? "")%string) eqn:E.
  - intros [= <-]. apply andb_prop in E as [_ E]. split.
    + intros H. rewrite H in E. discriminate.
    + apply wordPrefix_word.
  - assumption.
Qed.

Lemma matchAllHash_words s : forall skip,
  Forall isWord (map (Str.drop 1) (Regex.matchAllHash_from skip s)).
Proof.
  induction s as [| c r IH]; intros skip; simpl; [constructor|].
  destruct skip; [|apply IH].
  destruct ((Str.code c =? 35) && negb (Str.wordPrefix r =? "")%string) eqn:E.
  - simpl. constructor; [|apply IH].
    apply andb_prop in E as [_ E]. split.
    + intros H. rewrite H in E. discriminate.
    + apply wordPrefix_word.
  - apply IH.
Qed.

Lemma toLowerCase_nonempty s : s <> "" -> Str.toLowerCase s <> "".
Proof. destruct s; [congruence | simpl; discriminate]. Qed.

(** X1: whatever the text, the priority the quick-text parser returns is
    one of high, medium and low, in lower case. *)
Theorem parseQuickTask_priority
    (zone : JsDate.Zone) (now : Z) (text : string) :
  let p := q_priority (parseQuickTask zone now text) in
  p = "high" \/ p = "medium" \/ p = "low".
Proof.
  cbv zeta. unfold parseQuickTask.
  destruct (Regex.matchPriority text) as [[m0 m1]|] eqn:E.
  - apply priorityFrom_lower in E.
    destruct (Regex.matchHash _); destruct (Str.includes "today" _);
      destruct (Str.includes "tomorrow" _); exact E.
  - destruct (Regex.matchHash _); destruct (Str.includes "today" _);
      destruct (Str.includes "tomorrow" _); simpl; auto.
Qed.

(** X2: whatever the text, every tag the quick-text parser returns is a
    non-empty string of word characters (so no tag is empty and none
    keeps its #), and the category is personal or the lower-cased text of
    such a word. *)
Theorem parseQuickTask_tags_words
    (zone : JsDate.Zone) (now : Z) (text : string) :
  let q := parseQuickTask zone now text in
  Forall isWord (q_tags q)
  /\ (q_category q = "personal"
      \/ exists w, isWord w /\ q_category q = Str.toLowerCase w).
Proof.
  cbv zeta. unfold parseQuickTask.
  destruct (Regex.matchPriority text) as [[m0 m1]|];
    (destruct (Regex.matchHash _) as [w|] eqn:Ew;
     [apply matchHash_word in Ew|]);
    destruct (Str.includes "today" _);
    destruct (Str.includes "tomorrow" _); simpl;
    (split; [apply matchAllHash_words | first [now left | right; eauto]]).
Qed.

(** ** Quick add *)

Lemma strOr_empty_default s : strOr (Some s) "" = s.
Proof.
  unfold strOr, Str.or_else, Str.truthy.
  destruct (String.eqb_spec s ""); simpl; congruence.
Qed.

Lemma parseQuickTask_category_nonempty zone now text :
  q_category (parseQuickTask zone now text) <> "".
Proof.
  unfold parseQuickTask.
  destruct (Regex.matchPriority text) as [[m0 m1]|];
    (destruct (Regex.matchHash _) as [w|] eqn:Ew;
     [apply matchHash_word in Ew as [Ew _]|]);
    destruct (Str.includes "today" _);
    destruct (Str.includes "tomorrow" _); simpl;
    first [discriminate | now apply toLowerCase_nonempty].
Qed.

Lemma parseQuickTask_priority_nonempty zone now text :
  q_priority (parseQuickTask zone now text) <> "".
Proof.
  unfold parseQuickTask.
  destruct (Regex.matchPriority text) as [[m0 m1]|] eqn:E;
    [apply priorityFrom_lower in E|];
    destruct (Regex.matchHash _); destruct (Str.includes "today" _);
    destruct (Str.includes "tomorrow" _); simpl;
    first [discriminate | destruct E as [-> | [-> | ->]]; discriminate].
Qed.

Lemma parseQuickTask_title_fixed zone now text :
  Str.trim (q_title (parseQuickTask zone now text))
  = q_title (parseQuickTask zone now text).
Proof.
  unfold parseQuickTask.
  destruct (Regex.matchPriority text) as [[m0 m1]|];
    destruct (Regex.matchHash _) as [w|];
    destruct (Str.includes "today" _);
    destruct (Str.includes "tomorrow" _); simpl; apply trim_idem.
Qed.

Lemma parseQuickTask_empty zone now :
  q_title (parseQuickTask zone now "") = "".
Proof.
  unfold parseQuickTask.
  generalize (JsDate.isoDate
                (JsDate.setDateIn zone now (JsDate.getDateIn zone now + 1))).
  generalize (JsDate.isoDate now). intros today tomorrow.
  vm_compute. reflexivity.
Qed.

(** X4: quick add is the parser followed by addTask, and the defaults of
    addTask never apply to what the parser returns.  With an input that
    trims to nothing the handler does nothing at all; with a text whose
    parsed title is empty (as "#work today") it only shows the error
    toast; otherwise it appends a task that carries the parsed title,
    priority, category, due date and tags as they are, is not completed,
    has no description and no time, and it saves the list. *)
Theorem handleQuickAdd_spec
    (zone : JsDate.Zone) (now : Z) (rnd : Q) (inputValue : string)
    (m : TaskManager) :
  handleQuickAdd zone now rnd inputValue m
  = let q := parseQuickTask zone now (Str.trim inputValue) in
    if (Str.trim inputValue =? "")%string then m
    else if (q_title q =? "")%string
    then showToast "Task title cannot be empty." "error" m
    else showToast "Task added successfully!" "success"
           (saveTasks
              (setTasks
                 (tasks m
                  ++ [{| id := freshId now rnd; title := q_title q;
                         description := ""; completed := false;
                         priority := q_priority q;
                         category := q_category q;
                         dueDate := q_dueDate q; dueTime := "";
                         tags := q_tags q; createdAt := now;
                         completedAt := None |}])%list m)).
Proof.
  cbv zeta. unfold handleQuickAdd, Str.truthy.
  destruct (String.eqb_spec (Str.trim inputValue) "") as [E | E];
    cbn [negb]; [reflexivity|].
  set (q := parseQuickTask zone now (Str.trim inputValue)).
  pose proof (parseQuickTask_title_fixed zone now (Str.trim inputValue))
    as Ht.
  fold q in Ht.
  assert (Etask : taskOfData now rnd (quickData q)
                  = {| id := freshId now rnd; title := q_title q;
                       description := ""; completed := false;
                       priority := q_priority q; category := q_category q;
                       dueDate := q_dueDate q; dueTime := "";
                       tags := q_tags q; createdAt := now;
                       completedAt := None |}).
  { unfold taskOfData, quickData.
    cbn [d_title d_description d_priority d_category d_dueDate d_dueTime
         d_tags].
    rewrite Ht.
    rewrite (strOr_some (q_priority q))
      by apply parseQuickTask_priority_nonempty.
    rewrite (strOr_some (q_category q))
      by apply parseQuickTask_category_nonempty.
    rewrite strOr_empty_default. reflexivity. }
  unfold addTask. rewrite Etask. cbn [title]. unfold Str.truthy.
  destruct (String.eqb_spec (q_title q) ""); reflexivity.
Qed.

(** ** Tags typed as comma-separated text *)

Lemma trim_no_comma_from s : forall cur,
  Forall (fun c => negb (Str.code c =? 44) = true) (chars cur) ->
  Forall (fun p => Forall (fun c => negb (Str.code c =? 44) = true) (chars p))
    (Str.split_comma_from cur s).
Proof.
  induction s as [| c r IH]; intros cur Hcur; simpl.
  - repeat constructor. assumption.
  - destruct (Str.code c =? 44) eqn:E.
    + constructor; [assumption|]. apply IH. constructor.
    + apply IH. unfold chars in *.
      clear - Hcur E. induction cur as [| a u IHu]; simpl.
      * constructor; [now rewrite E | constructor].
      * inversion Hcur; subst. constructor; auto.
Qed.

Lemma trim_chars (P : ascii -> Prop) s :
  Forall P (chars s) -> Forall P (chars (Str.trim s)).
Proof.
  unfold Str.trim, chars. intros H.
  assert (Hs : Forall P (list_ascii_of_string (Str.trimStart s))).
  { induction s as [| c r IH]; simpl; [constructor|].
    inversion H; subst. destruct (Str.isSpace c); [auto | now constructor]. }
  revert Hs. generalize (Str.trimStart s). clear. intros u Hu.
  induction u as [| c r IH]; simpl; [constructor|].
  inversion Hu; subst.
  destruct (Str.isSpace c && (Str.trimEnd r =? "")%string); simpl;
    constructor; auto.
Qed.

(** The tags read from the comma-separated box of the detailed form or
    of the edit dialog hold no empty string, and each has no comma and
    neither begins nor ends with white space. *)
Lemma splitTags_clean (text : string) :
  Forall (fun tag =>
            tag <> "" /\ trimmed tag
            /\ Forall (fun c => negb (Str.code c =? 44) = true) (chars tag))
    (splitTags text).
Proof.
  unfold splitTags. apply Forall_forall. intros tag H.
  apply filter_In in H as [Hin Ht].
  apply in_map_iff in Hin as (piece & <- & Hp). split; [|split].
  - intros E. unfold Str.truthy in Ht. rewrite E in Ht. discriminate.
  - apply trimmed_trim.
  - apply trim_chars.
    pose proof (trim_no_comma_from text "" (Forall_nil _)) as Hall.
    rewrite Forall_forall in Hall. now apply Hall.
Qed.

(** ** Updating and deleting *)

Lemma findIndex_none key l : find key l = None -> findIndex key l = None.
Proof.
  unfold find. induction l as [| a l IH]; simpl; [reflexivity|].
  destruct (sameId key a); [discriminate|]. intros H. now rewrite IH.
Qed.

Lemma findIndex_split key l1 t l2 :
  Forall (fun x => sameId key x = false) l1 ->
  sameId key t = true ->
  findIndex key (l1 ++ t :: l2) = Some (List.length l1).
Proof.
  intros H1 H2. induction H1 as [| a l1 Ha _ IH]; simpl.
  - now rewrite H2.
  - now rewrite Ha, IH.
Qed.

Lemma nth_error_middle (l1 : list Task) t l2 :
  nth_error (l1 ++ t :: l2) (List.length l1) = Some t.
Proof. induction l1; simpl; auto. Qed.

Lemma setAt_middle l1 t v l2 :
  setAt (List.length l1) v (l1 ++ t :: l2) = (l1 ++ v :: l2)%list.
Proof. induction l1 as [| a l1 IH]; simpl; [reflexivity | now rewrite IH]. Qed.

Lemma removeAt_middle l1 t l2 :
  removeAt (List.length l1) (l1 ++ t :: l2) = (l1 ++ l2)%list.
Proof. induction l1 as [| a l1 IH]; simpl; [reflexivity | now rewrite IH]. Qed.

Lemma updateTask_present key updates m t :
  find key (tasks m) = Some t ->
  exists l1 l2,
    tasks m = (l1 ++ t :: l2)%list
    /\ Forall (fun x => sameId key x = false) l1
    /\ updateTask key updates m
       = (true,
          closeModal
            (showToast "Task updated successfully!" "success"
               (saveTasks (setTasks (l1 ++ merge t updates :: l2)%list m)))).
Proof.
  intros Hf.
  destruct (find_split key (tasks m) t Hf) as (l1 & l2 & E & H1 & H2).
  exists l1, l2. split; [assumption | split; [assumption|]].
  unfold updateTask. rewrite E.
  rewrite (findIndex_split key l1 t l2 H1 H2), nth_error_middle.
  rewrite setAt_middle. reflexivity.
Qed.

(** X5: updateTask with an id that no task has returns false and changes
    nothing; with an id that is present it returns true, replaces the
    first task with that id by the merge of the task and the updates,
    leaves every other task and the order of the list as they were, and
    closes the edit dialog. *)
Theorem updateTask_spec (key : option Q) (updates : Updates) (m : TaskManager) :
  (find key (tasks m) = None -> updateTask key updates m = (false, m))
  /\ (forall t, find key (tasks m) = Some t ->
        let r := updateTask key updates m in
        fst r = true
        /\ currentEditingTask (snd r) = None
        /\ exists l1 l2,
             tasks m = (l1 ++ t :: l2)%list
             /\ Forall (fun x => sameId key x = false) l1
             /\ tasks (snd r) = (l1 ++ merge t updates :: l2)%list).
Proof.
  split.
  - intros H. unfold updateTask. now rewrite (findIndex_none _ _ H).
  - intros t Hf. cbv zeta.
    destruct (updateTask_present key updates m t Hf)
      as (l1 & l2 & E & H1 & Hr).
    rewrite Hr. split; [reflexivity | split; [reflexivity|]].
    exists l1, l2. split; [assumption | split; [assumption|]].
    simpl. now autorewrite with store.
Qed.

(** X6: deleteTask that is not confirmed, or whose id no task has, returns
    false and changes nothing; confirmed and with an id that is present
    it returns true and removes the first task with that id and no
    other, so the list is one shorter and keeps its order, and it closes
    the edit dialog. *)
Theorem deleteTask_spec (confirmed : bool) (key : option Q) (m : TaskManager) :
  (confirmed = false \/ find key (tasks m) = None ->
   deleteTask confirmed key m = (false, m))
  /\ (forall t, confirmed = true -> find key (tasks m) = Some t ->
        let r := deleteTask confirmed key m in
        fst r = true
        /\ currentEditingTask (snd r) = None
        /\ exists l1 l2,
             tasks m = (l1 ++ t :: l2)%list
             /\ Forall (fun x => sameId key x = false) l1
             /\ tasks (snd r) = (l1 ++ l2)%list).
Proof.
  split.
  - intros [-> | H]; [reflexivity|]. unfold deleteTask.
    destruct confirmed; [|reflexivity]. simpl.
    now rewrite (findIndex_none _ _ H).
  - intros t -> Hf. cbv zeta.
    destruct (find_split key (tasks m) t Hf) as (l1 & l2 & E & H1 & H2).
    assert (Hr : deleteTask true key m
                 = (true,
                    closeModal
                      (showToast "Task deleted!" "success"
                         (saveTasks (setTasks (l1 ++ l2)%list m))))).
    { unfold deleteTask. simpl negb. cbv iota. rewrite E.
      rewrite (findIndex_split key l1 t l2 H1 H2).
      rewrite removeAt_middle. reflexivity. }
    rewrite Hr. split; [reflexivity | split; [reflexivity|]].
    exists l1, l2. split; [assumption | split; [assumption|]].
    simpl. now autorewrite with store.
Qed.

Lemma updateTask_spec_witness :
  find (Some 9%Q) (tasks twoTasks) = None
  /\ updateTask (Some 9%Q) (titleUpdate "Water ferns") twoTasks
     = (false, twoTasks)
  /\ find (Some 1%Q) (tasks twoTasks) = Some waterPlants
  /\ fst (updateTask (Some 1%Q) (titleUpdate "Water ferns") twoTasks) = true.
Proof.
  split; [reflexivity|]. split.
  - exact (proj1 (updateTask_spec (Some 9%Q) (titleUpdate "Water ferns")
                    twoTasks) eq_refl).
  - split; [reflexivity|].
    exact (proj1 (proj2 (updateTask_spec (Some 1%Q)
                           (titleUpdate "Water ferns") twoTasks)
                    waterPlants eq_refl)).
Defined.

Lemma deleteTask_spec_witness :
  deleteTask false (Some 1%Q) twoTasks = (false, twoTasks)
  /\ find (Some 1%Q) (tasks twoTasks) = Some waterPlants
  /\ fst (deleteTask true (Some 1%Q) twoTasks) = true.
Proof.
  split.
  - exact (proj1 (deleteTask_spec false (Some 1%Q) twoTasks)
             (or_introl eq_refl)).
  - split; [reflexivity|].
    exact (proj1 (proj2 (deleteTask_spec true (Some 1%Q) twoTasks)
                    waterPlants eq_refl eq_refl)).
Defined.

(** ** Saving an edit *)

(** X7: with a task open in the edit dialog and still in the list,
    handleSaveEdit replaces the first task with that id by one that keeps
    its id, completed, createdAt and completedAt, takes its title,
    description, date, time, priority and category from the dialog as
    they stand, and takes as tags the cleaned pieces of the tags box (no
    empty tag, none with a comma or with white space at either end);
    every other task stays in place and the dialog is closed. *)
Theorem handleSaveEdit_frame
    (form : ModalForm) (m : TaskManager) (editing t : Task) :
  currentEditingTask m = Some editing ->
  find (Some (id editing)) (tasks m) = Some t ->
  let m' := handleSaveEdit form m in
  exists l1 l2 t',
    tasks m = (l1 ++ t :: l2)%list
    /\ tasks m' = (l1 ++ t' :: l2)%list
    /\ id t' = id t /\ completed t' = completed t
    /\ createdAt t' = createdAt t /\ completedAt t' = completedAt t
    /\ title t' = modal_title form
    /\ description t' = modal_description form
    /\ dueDate t' = modal_date form /\ dueTime t' = modal_time form
    /\ priority t' = modal_priority form
    /\ category t' = modal_category form
    /\ tags t' = splitTags (modal_tags form)
    /\ Forall (fun tag =>
                 tag <> "" /\ trimmed tag
                 /\ Forall (fun c => negb (Str.code c =? 44) = true)
                      (chars tag)) (tags t')
    /\ currentEditingTask m' = None.
Proof.
  intros He Hf. cbv zeta. unfold handleSaveEdit. rewrite He.
  match goal with
  | |- context [updateTask ?k ?u m] =>
      destruct (updateTask_present k u m t Hf) as (l1 & l2 & E & _ & Hr);
        set (upd := u) in *
  end.
  rewrite Hr. exists l1, l2, (merge t upd).
  split; [assumption|].
  split; [simpl; now autorewrite with store|].
  repeat (split; [reflexivity|]).
  split; [apply splitTags_clean | reflexivity].
Qed.

Lemma handleSaveEdit_frame_witness :
  currentEditingTask editingWaterPlants = Some waterPlants
  /\ find (Some (id waterPlants)) (tasks editingWaterPlants) = Some waterPlants
  /\ exists l1 l2 t',
       tasks editingWaterPlants = (l1 ++ waterPlants :: l2)%list
       /\ tasks (handleSaveEdit fernsForm editingWaterPlants)
          = (l1 ++ t' :: l2)%list
       /\ id t' = id waterPlants /\ completed t' = completed waterPlants
       /\ createdAt t' = createdAt waterPlants
       /\ completedAt t' = completedAt waterPlants
       /\ title t' = modal_title fernsForm
       /\ description t' = modal_description fernsForm
       /\ dueDate t' = modal_date fernsForm
       /\ dueTime t' = modal_time fernsForm
       /\ priority t' = modal_priority fernsForm
       /\ category t' = modal_category fernsForm
       /\ tags t' = splitTags (modal_tags fernsForm)
       /\ Forall (fun tag =>
                    tag <> "" /\ trimmed tag
                    /\ Forall (fun c => negb (Str.code c =? 44) = true)
                         (chars tag)) (tags t')
       /\ currentEditingTask (handleSaveEdit fernsForm editingWaterPlants)
          = None.
Proof.
  split; [reflexivity | split; [reflexivity|]].
  exact (handleSaveEdit_frame fernsForm editingWaterPlants waterPlants
           waterPlants eq_refl eq_refl).
Defined.

(** ** Adding a task *)

Lemma strOr_nonempty a d : d <> "" -> strOr a d <> "".
Proof.
  intros Hd. destruct a as [s|]; simpl; [|assumption].
  unfold Str.or_else, Str.truthy.
  destruct (String.eqb_spec s ""); simpl; assumption.
Qed.

(** X8: for every input whose title is not empty after trimming, addTask
    returns true and appends one task at the end of the list, leaving the
    tasks before it as they were; the new task has the trimmed title, is
    not completed, has no completedAt, was created at the current time,
    and has a priority and a category that are not empty; with a writable
    store the saved item is the new list. *)
Theorem addTask_appends
    (now : Z) (rnd : Q) (taskData : TaskData) (m : TaskManager) :
  Str.trim (d_title taskData) <> "" ->
  let r := addTask now rnd taskData m in
  fst r = true
  /\ exists t,
       tasks (snd r) = (tasks m ++ [t])%list
       /\ title t = Str.trim (d_title taskData)
       /\ id t = freshId now rnd
       /\ completed t = false /\ completedAt t = None /\ createdAt t = now
       /\ priority t <> "" /\ category t <> ""
       /\ (storageWritable m = true ->
           localStorage (snd r) = Entries (map toEntry (tasks m ++ [t])%list)).
Proof.
  intros H. cbv zeta. unfold addTask. simpl title.
  rewrite (truthy_true _ H). simpl. split; [reflexivity|].
  exists (taskOfData now rnd taskData).
  autorewrite with store.
  repeat (split; [reflexivity|]).
  split; [now apply strOr_nonempty|]. split; [now apply strOr_nonempty|].
  intros Hw. unfold saveTasks. simpl. rewrite Hw. reflexivity.
Qed.

Lemma addTask_appends_witness :
  Str.trim (d_title (titled "  Pay rent ")) <> ""
  /\ fst (addTask 1000 (1 # 2) (titled "  Pay rent ") twoTasks) = true.
Proof.
  assert (H : Str.trim (d_title (titled "  Pay rent ")) <> "")
    by (vm_compute; discriminate).
  split; [exact H|].
  exact (proj1 (addTask_appends 1000 (1 # 2) (titled "  Pay rent ")
                  twoTasks H)).
Defined.

(** X9: the detailed form adds through addTask with every field of the
    form.  With a title that trims to nothing it only shows the error
    toast.  Otherwise it appends one task with the trimmed title and
    description, the date and time of the form, the cleaned pieces of
    the tags box as tags (no empty tag, none with a comma or with white
    space at either end), and the priority and category of the form,
    medium and personal standing in for an empty choice. *)
Theorem handleDetailedAdd_spec
    (now : Z) (rnd : Q) (form : DetailedForm) (m : TaskManager) :
  let m' := handleDetailedAdd now rnd form m in
  (Str.trim (detail_title form) = "" ->
   m' = showToast "Task title cannot be empty." "error" m)
  /\ (Str.trim (detail_title form) <> "" ->
      exists t,
        tasks m' = (tasks m ++ [t])%list
        /\ title t = Str.trim (detail_title form)
        /\ description t = Str.trim (detail_description form)
        /\ dueDate t = detail_date form /\ dueTime t = detail_time form
        /\ priority t = Str.or_else (detail_priority form) "medium"
        /\ category t = Str.or_else (detail_category form) "personal"
        /\ tags t = splitTags (detail_tags form)
        /\ Forall (fun tag =>
                     tag <> "" /\ trimmed tag
                     /\ Forall (fun c => negb (Str.code c =? 44) = true)
                          (chars tag)) (tags t)
        /\ completed t = false /\ completedAt t = None).
Proof.
  cbv zeta. unfold handleDetailedAdd, addTask. simpl title. split.
  - intros ->. reflexivity.
  - intros H. rewrite (truthy_true _ H). simpl.
    eexists. autorewrite with store. split; [reflexivity|].
    simpl. split; [reflexivity|]. split.
    { unfold Str.or_else, Str.truthy.
      destruct (String.eqb_spec (Str.trim (detail_description form)) "");
        simpl; congruence. }
    split; [apply strOr_empty_default|].
    split; [apply strOr_empty_default|].
    repeat (split; [reflexivity|]).
    split; [apply splitTags_clean | split; reflexivity].
Qed.

Lemma handleDetailedAdd_spec_witness :
  Str.trim (detail_title rentForm) <> ""
  /\ map (fun t => (title t, description t, priority t, tags t))
       (tasks (handleDetailedAdd 1000 (1 # 2) rentForm (sampleManager [])))
     = [("Pay rent", "before the 5th", "medium", ["bills"; "monthly"])].
Proof.
  assert (H : Str.trim (detail_title rentForm) <> "")
    by (vm_compute; discriminate).
  split; [exact H|].
  destruct (proj2 (handleDetailedAdd_spec 1000 (1 # 2) rentForm
                     (sampleManager [])) H)
    as (t & Et & Htitle & Hdesc & _ & _ & Hp & _ & Htags & _).
  rewrite Et. simpl. rewrite Htitle, Hdesc, Hp, Htags.
  vm_compute. reflexivity.
Defined.

(** ** Persistence *)

Lemma saveTasks_writes m :
  storageWritable m = true ->
  localStorage (saveTasks m) = Entries (map toEntry (tasks m)).
Proof. intros H. unfold saveTasks. now rewrite H. Qed.

Lemma saveTasks_writable m : storageWritable (saveTasks m) = storageWritable m.
Proof. unfold saveTasks. now destruct (storageWritable m) eqn:E. Qed.

Lemma step_mirrored m op :
  storageWritable m = true -> mirrored m ->
  storageWritable (step m op) = true /\ mirrored (step m op).
Proof.
  unfold mirrored. intros Hw Hm.
  destruct op as [now rnd d | key u | c key | now key]; simpl.
  - unfold addTask. destruct (negb _); simpl; [now split|].
    rewrite saveTasks_writable, tasks_saveTasks, saveTasks_writes;
      simpl; auto.
  - unfold updateTask. destruct (findIndex key (tasks m)); [|now split].
    destruct (nth_error (tasks m) n); [|now split]. simpl.
    rewrite saveTasks_writable, tasks_saveTasks, saveTasks_writes;
      simpl; auto.
  - unfold deleteTask. destruct c; simpl; [|now split].
    destruct (findIndex key (tasks m)); [|now split]. simpl.
    rewrite saveTasks_writable, tasks_saveTasks, saveTasks_writes;
      simpl; auto.
  - unfold toggleTaskComplete. destruct (find key (tasks m)); [|now split].
    simpl.
    rewrite saveTasks_writable, tasks_saveTasks, saveTasks_writes;
      simpl; auto.
Qed.

(** X10: with a writable store, once the saved item is the serialization
    of the task list it stays so after every sequence of add, update,
    delete and toggle, whether each succeeds or not. *)
Theorem run_mirrored (ops : list Op) (m : TaskManager) :
  storageWritable m = true -> mirrored m -> mirrored (run ops m).
Proof.
  unfold run. revert m. induction ops as [| op ops IH]; intros m Hw Hm; simpl.
  - assumption.
  - destruct (step_mirrored m op Hw Hm) as [Hw' Hm']. now apply IH.
Qed.

Lemma run_mirrored_witness :
  storageWritable twoTasks = true /\ mirrored twoTasks
  /\ mirrored (run sampleOps twoTasks).
Proof.
  split; [reflexivity | split; [reflexivity|]].
  exact (run_mirrored sampleOps twoTasks eq_refl eq_refl).
Defined.

Lemma step_frozen m op :
  storageWritable m = false ->
  storageWritable (step m op) = false
  /\ localStorage (step m op) = localStorage m.
Proof.
  intros Hw.
  assert (Hs : forall l, saveTasks (setTasks l m) = setTasks l m).
  { intros l. unfold saveTasks. simpl. now rewrite Hw. }
  destruct op as [now rnd d | key u | c key | now key]; simpl.
  - unfold addTask. destruct (negb _); simpl; [now split|].
    rewrite Hs. simpl. now split.
  - unfold updateTask. destruct (findIndex key (tasks m)); [|now split].
    destruct (nth_error (tasks m) n); [|now split]. simpl.
    rewrite Hs. simpl. now split.
  - unfold deleteTask. destruct c; simpl; [|now split].
    destruct (findIndex key (tasks m)); [|now split]. simpl.
    rewrite Hs. simpl. now split.
  - unfold toggleTaskComplete. destruct (find key (tasks m)); [|now split].
    simpl. rewrite Hs. simpl. now split.
Qed.

(** X11: when writing to the store fails, no sequence of add, update,
    delete and toggle changes the saved item, while the list in memory
    goes on changing: a task added then is in the list and not in the
    store. *)
Theorem run_frozen (ops : list Op) (m : TaskManager) :
  storageWritable m = false ->
  localStorage (run ops m) = localStorage m
  /\ forall now rnd taskData,
       Str.trim (d_title taskData) <> "" ->
       List.length (tasks (snd (addTask now rnd taskData (run ops m))))
       = S (List.length (tasks (run ops m)))
       /\ localStorage (snd (addTask now rnd taskData (run ops m)))
          = localStorage m.
Proof.
  intros Hw.
  assert (H : storageWritable (run ops m) = false
              /\ localStorage (run ops m) = localStorage m).
  { unfold run. revert m Hw.
    induction ops as [| op ops IH]; intros m Hw; simpl; [now split|].
    destruct (step_frozen m op Hw) as [Hw' Hl].
    destruct (IH _ Hw') as [Hw'' Hl']. split; [assumption | congruence]. }
  destruct H as [Hw' Hl]. split; [assumption|].
  intros now rnd d Hd. split.
  - rewrite tasks_addTask, (truthy_true _ Hd), length_app. simpl. lia.
  - destruct (step_frozen (run ops m) (Add now rnd d) Hw') as [_ E].
    simpl in E. congruence.
Qed.

Lemma run_frozen_witness :
  storageWritable offline = false
  /\ localStorage (run sampleOps offline) = localStorage offline.
Proof.
  split; [reflexivity|].
  exact (proj1 (run_frozen sampleOps offline eq_refl)).
Defined.

(** ** Saving and loading again *)

Lemma loadTask_toEntry now r t :
  survivesReload t -> loadTask now r (toEntry t) = Some t.
Proof.
  intros (Hid & Hp & Hc & Hcr & Hca). unfold toEntry, loadTask.
  cbn -[strOr idOr numOr numOrNull boolOr].
  rewrite (strOr_some (priority t)), (strOr_some (category t)) by assumption.
  rewrite !strOr_empty_default.
  unfold idOr, numOr, numOrNull. rewrite Hid.
  destruct (Z.eqb_spec (createdAt t) 0); [contradiction|].
  assert (Hb : boolOr (Some (completed t)) false = completed t)
    by (destruct (completed t); reflexivity).
  rewrite Hb.
  assert (Ha : match completedAt t with
               | Some n => if n =? 0 then None else Some n
               | None => None
               end = completedAt t).
  { destruct (completedAt t) as [k|]; [|reflexivity].
    destruct (Z.eqb_spec k 0); [subst; contradiction | reflexivity]. }
  rewrite Ha. destruct t; reflexivity.
Qed.

Lemma loadAll_toEntry now rnd ts : forall i,
  Forall survivesReload ts ->
  loadAll now rnd i (map toEntry ts) = Some ts.
Proof.
  induction ts as [| t ts IH]; intros i H; cbn [map loadAll]; [reflexivity|].
  inversion H; subst.
  rewrite loadTask_toEntry by assumption. now rewrite IH.
Qed.

(** X12: a list of tasks that each have a non-zero id and createdAt, a
    non-empty priority and category, and no completedAt equal to 0 is
    loaded back exactly as it was saved: the same tasks in the same
    order, whatever the clock and the random draws at loading.  So a
    manager opened on the item that a manager with such a list last wrote
    shows that list. *)
Theorem save_load_roundtrip
    (now : Z) (rnd : nat -> Q) (writable : bool) (m : TaskManager) :
  mirrored m -> Forall survivesReload (tasks m) ->
  loadTasks now rnd (Entries (map toEntry (tasks m))) = tasks m
  /\ tasks (newTaskManager now rnd (localStorage m) writable) = tasks m.
Proof.
  intros Hm Hs.
  assert (E : loadTasks now rnd (Entries (map toEntry (tasks m))) = tasks m).
  { unfold loadTasks. now rewrite loadAll_toEntry. }
  split; [assumption|]. simpl. now rewrite Hm.
Qed.

Lemma save_load_roundtrip_witness :
  mirrored twoTasks /\ Forall survivesReload (tasks twoTasks)
  /\ tasks (newTaskManager 77 noRandom (localStorage twoTasks) true)
     = tasks twoTasks.
Proof.
  assert (H : Forall survivesReload (tasks twoTasks)).
  { repeat constructor; simpl; discriminate. }
  split; [reflexivity | split; [exact H|]].
  exact (proj2 (save_load_roundtrip 77 noRandom true twoTasks eq_refl H)).
Defined.

(** A task with no priority comes back as medium: without the conditions
    the round trip can change a task. *)
Example reload_repairs_priority :
  map priority
    (loadTasks 0 noRandom
       (Entries [toEntry {| id := 1; title := "x"; description := "";
                            completed := false; priority := "";
                            category := "personal"; dueDate := "";
                            dueTime := ""; tags := []; createdAt := 1;
                            completedAt := None |}]))
  = ["medium"].
Proof. vm_compute. reflexivity. Qed.

(** ** Sorting by the chosen key *)

Section SortOrdered.
Context {A : Type} (compare : A -> A -> option Z).

Hypothesis greater_asym :
  forall a b, greater compare a b = true -> greater compare b a = false.
Hypothesis greater_trans :
  forall a b c, greater compare a b = true -> greater compare b c = true ->
                greater compare a c = true.

Lemma insert_sorted x l :
  StronglySorted (notGreater compare) l ->
  StronglySorted (notGreater compare) (insert compare x l).
Proof.
  intros Hl. induction Hl as [| y r Hr IH Hy]; simpl.
  - repeat constructor.
  - destruct (greater compare y x) eqn:G.
    + constructor; [now constructor|]. constructor.
      * now apply greater_asym.
      * rewrite Forall_forall in *. intros z Hz. unfold notGreater.
        destruct (greater compare x z) eqn:Gz; [|reflexivity].
        rewrite <- (Hy z Hz). symmetry. now apply (greater_trans y x z).
    + constructor; [assumption|]. now apply insert_Forall.
Qed.

Lemma sort_sorted l : StronglySorted (notGreater compare) (sort compare l).
Proof.
  unfold sort.
  assert (H : StronglySorted (notGreater compare) []) by constructor.
  revert H. generalize (@nil A). induction l as [| x l IH]; intros acc H; simpl.
  - assumption.
  - apply IH. now apply insert_sorted.
Qed.

Lemma sorted_ordered l :
  StronglySorted (notGreater compare) l -> ordered compare l.
Proof.
  intros H l1. revert l H.
  induction l1 as [| c l1 IH]; intros l H a l2 b l3 E; subst; simpl in H.
  - inversion H as [| ? ? _ Ha]; subst.
    rewrite Forall_forall in Ha. apply Ha, in_or_app. right. now left.
  - inversion H; subst. eapply IH; [eassumption | reflexivity].
Qed.

Lemma sort_ordered l : ordered compare (sort compare l).
Proof. apply sorted_ordered, sort_sorted. Qed.
End SortOrdered.

(** The sort is stable, and for a consistent comparison its result is the
    only one a conforming engine can return. *)
Section SortStable.
Context {A : Type} (compare : A -> A -> option Z) (P : A -> Prop).

Hypothesis greater_asym :
  forall a b, greater compare a b = true -> greater compare b a = false.
Hypothesis greater_trans :
  forall a b c, greater compare a b = true -> greater compare b c = true ->
                greater compare a c = true.
Hypothesis greater_between :
  forall a b c, P c -> greater compare a b = true ->
                greater compare a c = true \/ greater compare c b = true.

Lemma tied_refl a : tied compare a a = true.
Proof.
  unfold tied. destruct (greater compare a a) eqn:G; [|reflexivity].
  now rewrite (greater_asym a a G) in G.
Qed.

(** Above [x], nothing is tied with what is tied with [x]. *)
Lemma tied_above c x z :
  P c -> tied compare c x = true -> greater compare z x = true ->
  tied compare c z = false.
Proof.
  intros Hc Ht Hz. unfold tied in *.
  apply andb_prop in Ht as [Ht _]. apply negb_true_iff in Ht.
  destruct (greater_between z x c Hc Hz) as [G | G]; [|congruence].
  rewrite G. apply andb_false_r.
Qed.

Lemma insert_filter c x l :
  P c -> Forall P l -> StronglySorted (notGreater compare) l ->
  filter (tied compare c) (insert compare x l)
  = (filter (tied compare c) l
     ++ (if tied compare c x then [x] else []))%list.
Proof.
  intros Hc Hl Hs. induction Hs as [| y r Hr IH Hy]; cbn [insert].
  - cbn [filter]. now destruct (tied compare c x).
  - inversion Hl as [| ? ? Py Pr]; subst.
    destruct (greater compare y x) eqn:G.
    + cbn [filter]. destruct (tied compare c x) eqn:T;
        [|now rewrite app_nil_r].
      assert (E : Forall (fun z => tied compare c z = false) (y :: r)).
      { constructor; [exact (tied_above c x y Hc T G)|].
        rewrite Forall_forall in *. intros z Hz.
        apply (tied_above c x z Hc T).
        destruct (greater_between y x z (Pr z Hz) G) as [G' | G'];
          [|exact G'].
        specialize (Hy z Hz). unfold notGreater in Hy. congruence. }
      assert (E0 : filter (tied compare c) (y :: r) = []).
      { clear -E. induction E as [| z l Hz _ IH]; [reflexivity|].
        cbn [filter]. now rewrite Hz. }
      cbn [filter] in E0. rewrite E0. reflexivity.
    + cbn [filter]. rewrite (IH Pr).
      destruct (tied compare c y); reflexivity.
Qed.

Lemma fold_insert_filter c l : forall acc,
  P c -> Forall P l -> Forall P acc ->
  StronglySorted (notGreater compare) acc ->
  filter (tied compare c) (fold_left (fun acc x => insert compare x acc) l acc)
  = (filter (tied compare c) acc ++ filter (tied compare c) l)%list.
Proof.
  induction l as [| x l IH]; intros acc Hc Hl Ha Hs; cbn [fold_left].
  - cbn [filter]. now rewrite app_nil_r.
  - inversion Hl as [| ? ? Px Pl]; subst.
    rewrite IH; [| assumption | assumption
                 | now apply insert_Forall
                 | now apply insert_sorted ].
    rewrite (insert_filter c x acc Hc Ha Hs), <- app_assoc. f_equal.
    cbn [filter]. now destruct (tied compare c x).
Qed.

(** The sort is stable: the elements tied with [c] keep their order. *)
Lemma sort_stable c l :
  P c -> Forall P l ->
  filter (tied compare c) (sort compare l) = filter (tied compare c) l.
Proof.
  intros Hc Hl. unfold sort.
  rewrite (fold_insert_filter c l [] Hc Hl); [reflexivity | |]; constructor.
Qed.

Lemma ordered_cons a l :
  ordered compare (a :: l) ->
  Forall (notGreater compare a) l /\ ordered compare l.
Proof.
  intros H. split.
  - rewrite Forall_forall. intros b Hb.
    apply in_split in Hb as (l2 & l3 & ->).
    exact (H [] a l2 b l3 eq_refl).
  - intros l1 x l2 y l3 E. apply (H (a :: l1) x l2 y l3). now rewrite E.
Qed.

(** Two ordered lists with the same elements tied with each of their
    elements, in the same order, are the same list. *)
Lemma ordered_unique l1 : forall l2,
  ordered compare l1 -> ordered compare l2 ->
  (forall c, In c l1 \/ In c l2 ->
             filter (tied compare c) l1 = filter (tied compare c) l2) ->
  l1 = l2.
Proof.
  induction l1 as [| a r1 IH]; intros l2 H1 H2 Hf.
  - destruct l2 as [| b r2]; [reflexivity|].
    specialize (Hf b (or_intror (or_introl eq_refl))).
    cbn [filter] in Hf. rewrite tied_refl in Hf. discriminate.
  - destruct l2 as [| b r2].
    { specialize (Hf a (or_introl (or_introl eq_refl))).
      cbn [filter] in Hf. rewrite tied_refl in Hf. discriminate. }
    destruct (ordered_cons a r1 H1) as [Ha O1].
    destruct (ordered_cons b r2 H2) as [Hb O2].
    assert (Iab : In a (b :: r2)).
    { pose proof (Hf a (or_introl (or_introl eq_refl))) as E.
      assert (I : In a (filter (tied compare a) (a :: r1))).
      { cbn [filter]. rewrite tied_refl. now left. }
      rewrite E in I. now apply filter_In in I. }
    assert (Iba : In b (a :: r1)).
    { pose proof (Hf b (or_intror (or_introl eq_refl))) as E.
      assert (I : In b (filter (tied compare b) (b :: r2))).
      { cbn [filter]. rewrite tied_refl. now left. }
      rewrite <- E in I. now apply filter_In in I. }
    assert (T : tied compare a b = true).
    { unfold tied. rewrite Forall_forall in Ha, Hb.
      assert (G1 : greater compare a b = false).
      { destruct Iba as [<- | I]; [|exact (Ha b I)].
        pose proof (tied_refl a) as R. unfold tied in R.
        apply andb_prop in R as [R _]. now apply negb_true_iff in R. }
      assert (G2 : greater compare b a = false).
      { destruct Iab as [<- | I]; [|exact (Hb a I)].
        pose proof (tied_refl b) as R. unfold tied in R.
        apply andb_prop in R as [R _]. now apply negb_true_iff in R. }
      now rewrite G1, G2. }
    assert (Eab : a = b).
    { pose proof (Hf a (or_introl (or_introl eq_refl))) as E.
      cbn [filter] in E. rewrite tied_refl, T in E. now injection E. }
    subst b. f_equal. apply IH; [assumption | assumption |].
    intros c Hc.
    assert (Hc' : In c (a :: r1) \/ In c (a :: r2))
      by (destruct Hc; [left | right]; now right).
    specialize (Hf c Hc'). cbn [filter] in Hf.
    destruct (tied compare c a); [now injection Hf | exact Hf].
Qed.

(** For a consistent comparison the result of [sort] is the only list
    that ECMAScript allows: ordered, and with the elements that compare
    equal in the order they had. *)
Lemma sort_unique l l' :
  Forall P l ->
  ordered compare l' ->
  (forall c, In c l \/ In c l' ->
             filter (tied compare c) l' = filter (tied compare c) l) ->
  l' = sort compare l.
Proof.
  intros Hl Ho Hf.
  assert (Hin : forall c, In c l' -> In c l).
  { intros c Hc. specialize (Hf c (or_intror Hc)).
    assert (I : In c (filter (tied compare c) l')).
    { apply filter_In. split; [assumption | apply tied_refl]. }
    rewrite Hf in I. now apply filter_In in I. }
  apply ordered_unique.
  - exact Ho.
  - apply sort_ordered; assumption.
  - intros c Hc.
    assert (Ic : In c l).
    { destruct Hc as [Hc | Hc]; [now apply Hin|].
      eapply Permutation_in; [apply sort_perm | exact Hc]. }
    rewrite (Hf c (or_introl Ic)). symmetry. apply sort_stable; [|exact Hl].
    rewrite Forall_forall in Hl. now apply Hl.
Qed.

End SortStable.

Lemma greater_compareTasks lc pd sortBy a b :
  greater (compareTasks lc pd sortBy) a b
  = (completed a && negb (completed b))
    || (Bool.eqb (completed a) (completed b) && keyGreater lc pd sortBy a b).
Proof.
  unfold greater, compareTasks, keyGreater, sub.
  destruct (completed a), (completed b); simpl; try reflexivity;
    destruct (sortBy =? "priority")%string;
    try (destruct (priorityOrder (priority b)),
           (priorityOrder (priority a)); reflexivity);
    destruct (sortBy =? "created")%string; try reflexivity;
    destruct (sortBy =? "alphabetical")%string; try reflexivity;
    destruct (dateKey pd a), (dateKey pd b); reflexivity.
Qed.

Lemma keyGreater_asym lc pd sortBy a b :
  (sortBy = "alphabetical" -> consistentCollation lc) ->
  keyGreater lc pd sortBy a b = true -> keyGreater lc pd sortBy b a = false.
Proof.
  intros Hc. unfold keyGreater.
  destruct (sortBy =? "priority")%string.
  { destruct (priorityOrder (priority b)), (priorityOrder (priority a));
      try discriminate. intros H. apply Z.ltb_lt in H. apply Z.ltb_ge. lia. }
  destruct (sortBy =? "created")%string.
  { intros H. apply Z.ltb_lt in H. apply Z.ltb_ge. lia. }
  destruct (String.eqb_spec sortBy "alphabetical") as [E | E].
  { destruct (Hc E) as [Ha _].
    intros H. apply Z.ltb_lt in H. apply Z.ltb_ge.
    apply Ha in H. lia. }
  destruct (dateKey pd a), (dateKey pd b); try discriminate.
  intros H. apply Z.ltb_lt in H. apply Z.ltb_ge. lia.
Qed.

Lemma keyGreater_trans lc pd sortBy a b c :
  (sortBy = "alphabetical" -> consistentCollation lc) ->
  keyGreater lc pd sortBy a b = true -> keyGreater lc pd sortBy b c = true ->
  keyGreater lc pd sortBy a c = true.
Proof.
  intros Hc. unfold keyGreater.
  destruct (sortBy =? "priority")%string.
  { destruct (priorityOrder (priority a)), (priorityOrder (priority b)),
      (priorityOrder (priority c)); try discriminate.
    rewrite !Z.ltb_lt. lia. }
  destruct (sortBy =? "created")%string.
  { rewrite !Z.ltb_lt. lia. }
  destruct (String.eqb_spec sortBy "alphabetical") as [E | E].
  { destruct (Hc E) as [Ha Ht]. rewrite !Z.ltb_lt. intros H1 H2.
    destruct (Z_lt_le_dec 0 (lc (title a) (title c))) as [G | G];
      [exact G|].
    apply Ha in H2. assert (G' : lc (title c) (title b) <= 0) by lia.
    specialize (Ht _ _ _ G G'). lia. }
  destruct (dateKey pd a), (dateKey pd b), (dateKey pd c); try discriminate.
  rewrite !Z.ltb_lt. lia.
Qed.

Lemma compareTasks_asym lc pd sortBy a b :
  (sortBy = "alphabetical" -> consistentCollation lc) ->
  greater (compareTasks lc pd sortBy) a b = true ->
  greater (compareTasks lc pd sortBy) b a = false.
Proof.
  intros Hc. rewrite !greater_compareTasks.
  pose proof (keyGreater_asym lc pd sortBy a b Hc) as K.
  destruct (completed a), (completed b); simpl; auto; discriminate.
Qed.

Lemma compareTasks_trans lc pd sortBy a b c :
  (sortBy = "alphabetical" -> consistentCollation lc) ->
  greater (compareTasks lc pd sortBy) a b = true ->
  greater (compareTasks lc pd sortBy) b c = true ->
  greater (compareTasks lc pd sortBy) a c = true.
Proof.
  intros Hc. rewrite !greater_compareTasks.
  pose proof (keyGreater_trans lc pd sortBy a b c Hc) as K.
  destruct (completed a), (completed b), (completed c); simpl; auto;
    discriminate.
Qed.

Lemma keyGreater_between lc pd sortBy a b c :
  (sortBy = "alphabetical" -> consistentCollation lc) ->
  validKey pd sortBy c ->
  keyGreater lc pd sortBy a b = true ->
  keyGreater lc pd sortBy a c = true \/ keyGreater lc pd sortBy c b = true.
Proof.
  intros Hc [Vp Vd]. unfold keyGreater.
  destruct (String.eqb_spec sortBy "priority") as [E1 | E1].
  { specialize (Vp E1).
    destruct (priorityOrder (priority b)), (priorityOrder (priority a)),
      (priorityOrder (priority c)); try discriminate; try contradiction.
    rewrite !Z.ltb_lt. lia. }
  destruct (String.eqb_spec sortBy "created") as [E2 | E2].
  { rewrite !Z.ltb_lt. lia. }
  destruct (String.eqb_spec sortBy "alphabetical") as [E3 | E3].
  { destruct (Hc E3) as [_ Ht]. rewrite !Z.ltb_lt. intros H.
    destruct (Z_lt_le_dec 0 (lc (title a) (title c))) as [G | G];
      [now left|].
    destruct (Z_lt_le_dec 0 (lc (title c) (title b))) as [G' | G'];
      [now right|].
    specialize (Ht _ _ _ G G'). lia. }
  specialize (Vd E1 E2 E3).
  destruct (dateKey pd a), (dateKey pd b), (dateKey pd c);
    try discriminate; try contradiction.
  rewrite !Z.ltb_lt. lia.
Qed.

Lemma compareTasks_between lc pd sortBy a b c :
  (sortBy = "alphabetical" -> consistentCollation lc) ->
  validKey pd sortBy c ->
  greater (compareTasks lc pd sortBy) a b = true ->
  greater (compareTasks lc pd sortBy) a c = true
  \/ greater (compareTasks lc pd sortBy) c b = true.
Proof.
  intros Hc Hv. rewrite !greater_compareTasks.
  pose proof (keyGreater_between lc pd sortBy a b c Hc Hv) as K.
  destruct (completed a), (completed b), (completed c); simpl; auto.
Qed.

Lemma validKey_threeKeyed_priority :
  Forall (validKey JsDate.parseIsoDate "priority") (keptTasks "" threeKeyed).
Proof.
  repeat constructor; try (intros _; vm_compute; discriminate);
    intros H; exfalso; apply H; reflexivity.
Qed.

Lemma validKey_threeKeyed_date :
  Forall (validKey JsDate.parseIsoDate "date") (keptTasks "" threeKeyed).
Proof.
  repeat constructor; try discriminate;
    intros _ _ _; vm_compute; discriminate.
Qed.

(** X13: when every task that getFilteredTasks keeps has a number as its
    key in the chosen sort mode (a priority among high, medium and low in
    the priority mode, an empty or readable due date in the date mode),
    and localeCompare is a total preorder in the alphabetical mode, the
    comparison handed to sort is consistent and the sequence returned is
    what ECMAScript prescribes: no task precedes a task it compares
    greater than, tasks that compare equal keep the order they have in
    the store, and no other arrangement of the kept tasks has these two
    properties. *)
Theorem getFilteredTasks_ordered
    (localeCompare : string -> string -> Z) (parseDate : string -> option Z)
    (searchInput sortBy : string) (m : TaskManager) :
  (sortBy = "alphabetical" -> consistentCollation localeCompare) ->
  Forall (validKey parseDate sortBy) (keptTasks searchInput m) ->
  let compare := compareTasks localeCompare parseDate sortBy in
  let kept := keptTasks searchInput m in
  let r := getFilteredTasks localeCompare parseDate searchInput sortBy m in
  ordered compare r
  /\ (forall c, In c kept ->
        filter (tied compare c) r = filter (tied compare c) kept)
  /\ (forall r',
        ordered compare r' ->
        (forall c, In c kept \/ In c r' ->
           filter (tied compare c) r' = filter (tied compare c) kept) ->
        r' = r).
Proof.
  intros Hc Hv. cbv zeta.
  assert (Ha : forall a b,
             greater (compareTasks localeCompare parseDate sortBy) a b = true ->
             greater (compareTasks localeCompare parseDate sortBy) b a = false)
    by (intros a b; now apply compareTasks_asym).
  assert (Ht : forall a b c,
             greater (compareTasks localeCompare parseDate sortBy) a b = true ->
             greater (compareTasks localeCompare parseDate sortBy) b c = true ->
             greater (compareTasks localeCompare parseDate sortBy) a c = true)
    by (intros a b c; now apply compareTasks_trans).
  assert (Hb : forall a b c,
             validKey parseDate sortBy c ->
             greater (compareTasks localeCompare parseDate sortBy) a b = true ->
             greater (compareTasks localeCompare parseDate sortBy) a c = true
             \/ greater (compareTasks localeCompare parseDate sortBy) c b
                = true)
    by (intros a b c; now apply compareTasks_between).
  assert (E : getFilteredTasks localeCompare parseDate searchInput sortBy m
              = sort (compareTasks localeCompare parseDate sortBy)
                  (keptTasks searchInput m)) by reflexivity.
  rewrite E. split; [|split].
  - now apply sort_ordered.
  - intros c Hin.
    apply (sort_stable _ (validKey parseDate sortBy) Ha Ht Hb);
      [|exact Hv].
    rewrite Forall_forall in Hv. now apply Hv.
  - intros r' Ho Hf.
    exact (sort_unique _ (validKey parseDate sortBy) Ha Ht Hb _ _ Hv Ho Hf).
Qed.

Lemma getFilteredTasks_ordered_witness :
  Forall (validKey JsDate.parseIsoDate "priority") (keptTasks "" threeKeyed)
  /\ getFilteredTasks flatCollation JsDate.parseIsoDate "" "priority"
       threeKeyed
     = [keyed 2 "high" ""; keyed 3 "medium" "2024-01-15";
        keyed 1 "low" "2024-03-01"]
  /\ ordered (compareTasks flatCollation JsDate.parseIsoDate "priority")
       (getFilteredTasks flatCollation JsDate.parseIsoDate "" "priority"
          threeKeyed).
Proof.
  assert (H : "priority" = "alphabetical" -> consistentCollation flatCollation)
    by discriminate.
  split; [exact validKey_threeKeyed_priority|].
  split; [vm_compute; reflexivity|].
  exact (proj1 (getFilteredTasks_ordered flatCollation JsDate.parseIsoDate ""
                  "priority" threeKeyed H validKey_threeKeyed_priority)).
Defined.

(** X14: under the same condition on the keys, of two tasks with the
    same completion state in the sequence getFilteredTasks returns the
    earlier one is, in the created mode, created no earlier than the later
    one (newest first); in the priority mode, of no lower priority; in the
    date mode (any other value of the selector but alphabetical), due no
    later, a task without due date counting as due at the largest
    date. *)
Theorem getFilteredTasks_by_key
    (localeCompare : string -> string -> Z) (parseDate : string -> option Z)
    (searchInput sortBy : string) (m : TaskManager)
    (l1 l2 l3 : list Task) (a b : Task) :
  Forall (validKey parseDate sortBy) (keptTasks searchInput m) ->
  getFilteredTasks localeCompare parseDate searchInput sortBy m
  = (l1 ++ a :: l2 ++ b :: l3)%list ->
  completed a = completed b ->
  (sortBy = "created" -> createdAt b <= createdAt a)
  /\ (sortBy = "priority" ->
       exists x y, priorityOrder (priority a) = Some x
                   /\ priorityOrder (priority b) = Some y /\ y <= x)
  /\ (sortBy <> "priority" -> sortBy <> "created" ->
       sortBy <> "alphabetical" ->
       exists x y, dateKey parseDate a = Some x
                   /\ dateKey parseDate b = Some y /\ x <= y).
Proof.
  intros Hv E Hc.
  assert (G : sortBy <> "alphabetical" ->
              keyGreater localeCompare parseDate sortBy a b = false).
  { intros Hs.
    assert (Ho : ordered (compareTasks localeCompare parseDate sortBy)
                   (getFilteredTasks localeCompare parseDate searchInput
                      sortBy m)).
    { unfold getFilteredTasks. apply sort_ordered.
      - intros u v. apply compareTasks_asym. intros E'. contradiction.
      - intros u v w. apply compareTasks_trans. intros E'. contradiction. }
    specialize (Ho _ _ _ _ _ E). rewrite greater_compareTasks in Ho.
    rewrite Hc in Ho. rewrite Bool.eqb_reflx in Ho.
    destruct (completed b); simpl in Ho; assumption. }
  assert (Hin : forall t, In t (l1 ++ a :: l2 ++ b :: l3)%list ->
                          validKey parseDate sortBy t).
  { intros t Ht. rewrite <- E in Ht. rewrite Forall_forall in Hv.
    apply Hv. eapply Permutation_in; [|exact Ht].
    unfold getFilteredTasks, keptTasks. apply sort_perm. }
  assert (Va : validKey parseDate sortBy a).
  { apply Hin, in_or_app. right. now left. }
  assert (Vb : validKey parseDate sortBy b).
  { apply Hin, in_or_app. right. right. apply in_or_app. right. now left. }
  split; [|split].
  - intros ->. specialize (G ltac:(discriminate)).
    unfold keyGreater in G. simpl in G. apply Z.ltb_ge in G. lia.
  - intros ->. specialize (G ltac:(discriminate)).
    destruct Va as [Va _], Vb as [Vb _].
    specialize (Va eq_refl). specialize (Vb eq_refl).
    unfold keyGreater in G. simpl in G.
    destruct (priorityOrder (priority a)) as [x|]; [|contradiction].
    destruct (priorityOrder (priority b)) as [y|]; [|contradiction].
    exists x, y. apply Z.ltb_ge in G. repeat split; lia.
  - intros H1 H2 H3. specialize (G H3).
    destruct Va as [_ Va], Vb as [_ Vb].
    specialize (Va H1 H2 H3). specialize (Vb H1 H2 H3).
    unfold keyGreater in G.
    destruct (String.eqb_spec sortBy "priority"); [contradiction|].
    destruct (String.eqb_spec sortBy "created"); [contradiction|].
    destruct (String.eqb_spec sortBy "alphabetical"); [contradiction|].
    destruct (dateKey parseDate a) as [x|]; [|contradiction].
    destruct (dateKey parseDate b) as [y|]; [|contradiction].
    exists x, y. apply Z.ltb_ge in G. repeat split; lia.
Qed.

Lemma getFilteredTasks_by_key_witness :
  (Forall (validKey JsDate.parseIsoDate "priority") (keptTasks "" threeKeyed)
   /\ getFilteredTasks flatCollation JsDate.parseIsoDate "" "priority"
        threeKeyed
      = ([] ++ keyed 2 "high" ""
            :: [keyed 3 "medium" "2024-01-15"]
               ++ keyed 1 "low" "2024-03-01" :: [])%list
   /\ exists x y,
        priorityOrder (priority (keyed 2 "high" "")) = Some x
        /\ priorityOrder (priority (keyed 1 "low" "2024-03-01")) = Some y
        /\ y <= x)
  /\ (Forall (validKey JsDate.parseIsoDate "date") (keptTasks "" threeKeyed)
      /\ getFilteredTasks flatCollation JsDate.parseIsoDate "" "date"
           threeKeyed
         = ([] ++ keyed 3 "medium" "2024-01-15"
               :: [keyed 1 "low" "2024-03-01"]
                  ++ keyed 2 "high" "" :: [])%list
      /\ exists x y,
           dateKey JsDate.parseIsoDate (keyed 3 "medium" "2024-01-15") = Some x
           /\ dateKey JsDate.parseIsoDate (keyed 2 "high" "") = Some y
           /\ x <= y).
Proof.
  assert (E1 : getFilteredTasks flatCollation JsDate.parseIsoDate ""
                 "priority" threeKeyed
               = ([] ++ keyed 2 "high" ""
                     :: [keyed 3 "medium" "2024-01-15"]
                        ++ keyed 1 "low" "2024-03-01" :: [])%list)
    by (vm_compute; reflexivity).
  assert (E2 : getFilteredTasks flatCollation JsDate.parseIsoDate ""
                 "date" threeKeyed
               = ([] ++ keyed 3 "medium" "2024-01-15"
                     :: [keyed 1 "low" "2024-03-01"]
                        ++ keyed 2 "high" "" :: [])%list)
    by (vm_compute; reflexivity).
  split.
  - split; [exact validKey_threeKeyed_priority | split; [exact E1|]].
    exact (proj1 (proj2 (getFilteredTasks_by_key flatCollation
                           JsDate.parseIsoDate "" "priority" threeKeyed
                           _ _ _ _ _ validKey_threeKeyed_priority E1
                           eq_refl)) eq_refl).
  - split; [exact validKey_threeKeyed_date | split; [exact E2|]].
    refine (proj2 (proj2 (getFilteredTasks_by_key flatCollation
                            JsDate.parseIsoDate "" "date" threeKeyed
                            _ _ _ _ _ validKey_threeKeyed_date E2
                            eq_refl)) _ _ _); discriminate.
Defined.

(** ** Escaping *)

Lemma string_app_assoc (s1 s2 s3 : string) :
  (s1 ++ s2) ++ s3 = s1 ++ (s2 ++ s3).
Proof.
  induction s1 as [| a s1 IH]; simpl; [reflexivity | now rewrite IH].
Qed.

Lemma replaceAllChar_app c e s1 s2 :
  replaceAllChar c e (s1 ++ s2)
  = replaceAllChar c e s1 ++ replaceAllChar c e s2.
Proof.
  induction s1 as [| a s1 IH]; simpl; [reflexivity|].
  destruct (Ascii.eqb a c); simpl; rewrite IH; [|reflexivity].
  now rewrite string_app_assoc.
Qed.

(** The five replacements, one after the other, amount to one pass that
    writes [escapeChar] for each character: no replacement touches what
    an earlier one wrote. *)
Lemma escapeHtml_cons a r :
  escapeHtml (String a r) = escapeChar a ++ escapeHtml r.
Proof.
  unfold escapeHtml, escapeChar.
  assert (S1 : String a r = String a "" ++ r) by reflexivity.
  rewrite S1, !replaceAllChar_app.
  f_equal.
  destruct (Ascii.eqb_spec a "&") as [-> | N1]; [reflexivity|].
  destruct (Ascii.eqb_spec a "<") as [-> | N2]; [reflexivity|].
  destruct (Ascii.eqb_spec a ">") as [-> | N3]; [reflexivity|].
  destruct (Ascii.eqb_spec a quoteChar) as [-> | N4]; [reflexivity|].
  destruct (Ascii.eqb_spec a "'") as [-> | N5]; [reflexivity|].
  simpl.
  repeat match goal with
         | |- context [Ascii.eqb a ?c] =>
             destruct (Ascii.eqb_spec a c); [contradiction|]; simpl
         end.
  reflexivity.
Qed.

Lemma escapeChar_safe a :
  Forall (fun c => isMarkup c = false) (chars (escapeChar a)).
Proof.
  unfold escapeChar, isMarkup.
  destruct (Ascii.eqb_spec a "&"); [repeat constructor|].
  destruct (Ascii.eqb_spec a "<"); [repeat constructor|].
  destruct (Ascii.eqb_spec a ">"); [repeat constructor|].
  destruct (Ascii.eqb_spec a quoteChar); [repeat constructor|].
  destruct (Ascii.eqb_spec a "'"); [repeat constructor|].
  simpl. constructor; [|constructor].
  repeat match goal with
         | |- context [Ascii.eqb a ?c] =>
             destruct (Ascii.eqb_spec a c); [contradiction|]; simpl
         end.
  reflexivity.
Qed.

Lemma chars_app s1 s2 : chars (s1 ++ s2) = (chars s1 ++ chars s2)%list.
Proof.
  unfold chars. induction s1 as [| a s1 IH]; simpl; [reflexivity|].
  now rewrite IH.
Qed.

(** X15: whatever the text, what escapeHtml returns holds none of the
    characters <, >, double quote and single quote. *)
Theorem escapeHtml_no_markup (unsafe : string) :
  Forall (fun c => isMarkup c = false) (chars (escapeHtml unsafe)).
Proof.
  induction unsafe as [| a r IH]; [constructor|].
  rewrite escapeHtml_cons, chars_app. apply Forall_app. split.
  - apply escapeChar_safe.
  - assumption.
Qed.

Ltac classify a :=
  destruct (Ascii.eqb_spec a "&");
  [| destruct (Ascii.eqb_spec a "<");
     [| destruct (Ascii.eqb_spec a ">");
        [| destruct (Ascii.eqb_spec a quoteChar);
           [| destruct (Ascii.eqb_spec a "'")]]]].

(** X16: escapeHtml loses nothing: two different texts never escape to
    the same text. *)
Theorem escapeHtml_injective (s1 s2 : string) :
  escapeHtml s1 = escapeHtml s2 -> s1 = s2.
Proof.
  revert s2. induction s1 as [| a1 r1 IH]; intros s2 H.
  - destruct s2 as [| a2 r2]; [reflexivity|].
    rewrite escapeHtml_cons in H. unfold escapeChar in H.
    classify a2; simpl in H; discriminate.
  - destruct s2 as [| a2 r2].
    + rewrite escapeHtml_cons in H. unfold escapeChar in H.
      classify a1; simpl in H; discriminate.
    + rewrite !escapeHtml_cons in H. unfold escapeChar in H.
      classify a1; classify a2; subst; simpl in H;
        try discriminate;
        try (injection H as H; f_equal; now apply IH);
        try (injection H as H; congruence);
        try (injection H as Ha H; subst; f_equal; now apply IH).
Qed.

(** ** Filtering *)

Lemma lowerChar_idem c : Str.lowerChar (Str.lowerChar c) = Str.lowerChar c.
Proof. destruct c as [[] [] [] [] [] [] [] []]; vm_compute; reflexivity. Qed.

Lemma toLowerCase_idem s :
  Str.toLowerCase (Str.toLowerCase s) = Str.toLowerCase s.
Proof.
  induction s as [| c r IH]; simpl; [reflexivity|].
  now rewrite lowerChar_idem, IH.
Qed.

Lemma keptTasks_In searchInput m t :
  In t (keptTasks searchInput m)
  <-> In t (tasks m)
      /\ (currentCategory m <> "all" -> category t = currentCategory m)
      /\ (Str.toLowerCase searchInput <> "" ->
          matchesSearch (Str.toLowerCase searchInput) t = true).
Proof.
  unfold keptTasks, Str.truthy.
  destruct (String.eqb_spec (currentCategory m) "all") as [Ec | Ec];
    destruct (String.eqb_spec (Str.toLowerCase searchInput) "") as [Es | Es];
    simpl; rewrite ?filter_In, ?String.eqb_eq; intuition congruence.
Qed.

(** X17: a task is in the sequence getFilteredTasks returns exactly when
    it is in the store, has the chosen category unless that is "all", and,
    unless the search box is empty, has the lower-cased search text inside
    its lower-cased title, description or one of its tags; the capitals of
    the search text make no difference. *)
Theorem getFilteredTasks_filters
    (localeCompare : string -> string -> Z) (parseDate : string -> option Z)
    (searchInput sortBy : string) (m : TaskManager) :
  (forall t,
     In t (getFilteredTasks localeCompare parseDate searchInput sortBy m)
     <-> In t (tasks m)
         /\ (currentCategory m <> "all" -> category t = currentCategory m)
         /\ (Str.toLowerCase searchInput <> "" ->
             Str.includes (Str.toLowerCase searchInput)
               (Str.toLowerCase (title t)) = true
             \/ Str.includes (Str.toLowerCase searchInput)
                  (Str.toLowerCase (description t)) = true
             \/ exists tag,
                  In tag (tags t)
                  /\ Str.includes (Str.toLowerCase searchInput)
                       (Str.toLowerCase tag) = true))
  /\ getFilteredTasks localeCompare parseDate
       (Str.toLowerCase searchInput) sortBy m
     = getFilteredTasks localeCompare parseDate searchInput sortBy m.
Proof.
  split.
  - intros t.
    assert (P : Permutation
                  (getFilteredTasks localeCompare parseDate searchInput
                     sortBy m) (keptTasks searchInput m))
      by (unfold getFilteredTasks, keptTasks; apply sort_perm).
    assert (Hin : In t (getFilteredTasks localeCompare parseDate searchInput
                          sortBy m)
                  <-> In t (keptTasks searchInput m)).
    { split; intros H.
      - eapply Permutation_in; eassumption.
      - eapply Permutation_in; [symmetry; eassumption | assumption]. }
    rewrite Hin, keptTasks_In. unfold matchesSearch.
    rewrite !orb_true_iff, existsb_exists. tauto.
  - unfold getFilteredTasks. now rewrite toLowerCase_idem.
Qed.

(** ** Statistics *)

Lemma completedCount_app (l1 l2 : list Task) :
  List.length (filter (fun t => completed t) (l1 ++ l2))
  = (List.length (filter (fun t => completed t) l1)
     + List.length (filter (fun t => completed t) l2))%nat.
Proof. now rewrite filter_app, length_app. Qed.

(** X18: the counts shown by updateStats follow the operations.  A
    successful toggle keeps the total and moves one task between
    completed and pending; a successful add raises the total and the
    pending count by one; a confirmed delete of a present task lowers the
    total by one and the count of the removed task's state by one.
    Pending plus completed is always the total and neither is
    negative. *)
Theorem stats_follow (m : TaskManager) :
  (0 <= completedTasks m <= totalTasks m /\ 0 <= pendingTasks m)
  /\ (forall now key t,
        find key (tasks m) = Some t ->
        let m' := snd (toggleTaskComplete now key m) in
        totalTasks m' = totalTasks m
        /\ completedTasks m'
           = completedTasks m + (if completed t then -1 else 1))
  /\ (forall now rnd taskData,
        Str.trim (d_title taskData) <> "" ->
        let m' := snd (addTask now rnd taskData m) in
        totalTasks m' = totalTasks m + 1
        /\ completedTasks m' = completedTasks m
        /\ pendingTasks m' = pendingTasks m + 1)
  /\ (forall key t,
        find key (tasks m) = Some t ->
        let m' := snd (deleteTask true key m) in
        totalTasks m' = totalTasks m - 1
        /\ completedTasks m'
           = completedTasks m - (if completed t then 1 else 0)).
Proof.
  unfold pendingTasks, totalTasks, completedTasks.
  split; [|split; [|split]].
  - pose proof (filter_length_le (fun t => completed t) (tasks m)). lia.
  - intros now key t Hf. cbv zeta.
    destruct (find_split key (tasks m) t Hf) as (l1 & l2 & E & H1 & H2).
    rewrite tasks_toggleTaskComplete, E.
    rewrite (toggleFirst_split now key l1 t l2 H1 H2).
    rewrite !completedCount_app, !length_app. simpl.
    destruct (completed t); simpl; lia.
  - intros now rnd d Hd. cbv zeta.
    rewrite tasks_addTask, (truthy_true _ Hd).
    rewrite completedCount_app, length_app. simpl. lia.
  - intros key t Hf. cbv zeta.
    destruct (find_split key (tasks m) t Hf) as (l1 & l2 & E & H1 & H2).
    rewrite tasks_deleteTask, E.
    rewrite (findIndex_split key l1 t l2 H1 H2), removeAt_middle.
    rewrite !completedCount_app, !length_app. simpl.
    destruct (completed t); simpl; lia.
Qed.

Lemma stats_follow_witness :
  find (Some 1%Q) (tasks twoTasks) = Some waterPlants
  /\ (totalTasks (snd (toggleTaskComplete 9 (Some 1%Q) twoTasks))
      = totalTasks twoTasks
      /\ completedTasks (snd (toggleTaskComplete 9 (Some 1%Q) twoTasks))
         = completedTasks twoTasks + (if completed waterPlants then -1 else 1)).
Proof.
  split; [reflexivity|].
  exact (proj1 (proj2 (stats_follow twoTasks)) 9 (Some 1%Q) waterPlants
           eq_refl).
Defined.

(** ** Calendar arithmetic *)

Lemma days_from_civil_abs y m d :
  JsDate.days_from_civil y m d
  = 365 * shiftedYear y m + shiftedYear y m / 4 - shiftedYear y m / 100
    + shiftedYear y m / 400 + (153 * monthIndex m + 2) / 5 + d - 1 - 719468.
Proof.
  unfold JsDate.days_from_civil, shiftedYear, monthIndex.
  destruct (m <=? 2), (2 <? m); cbv zeta; Z.div_mod_to_equations; lia.
Qed.

Lemma days_from_civil_era y m d :
  JsDate.days_from_civil y m d
  = 146097 * (shiftedYear y m / 400)
    + yearStart (shiftedYear y m mod 400)
    + (153 * monthIndex m + 2) / 5 + d - 1 - 719468.
Proof.
  rewrite days_from_civil_abs. unfold yearStart.
  Z.div_mod_to_equations. lia.
Qed.

Lemma allFrom_spec n : forall z f,
  allFrom n z f = true ->
  forall k, z <= k < z + Z.of_nat n -> f k = true.
Proof.
  induction n as [| n IH]; intros z f H k Hk.
  - simpl in Hk. lia.
  - simpl in H. apply andb_prop in H as [H0 H1].
    destruct (Z.eq_dec k z) as [-> | Hne]; [assumption|].
    apply (IH (z + 1) f H1). lia.
Qed.

Lemma years_checked : allFrom 400 0 yearCheck = true.
Proof. vm_compute. reflexivity. Qed.

Lemma yearCheck_ok n : 0 <= n <= 399 -> yearCheck n = true.
Proof. intros H. apply (allFrom_spec 400 0 yearCheck years_checked). lia. Qed.

Lemma yearOfDoe_mono a b :
  0 <= a -> a <= b -> b <= 146096 -> yearOfDoe a <= yearOfDoe b.
Proof.
  intros Ha Hab Hb. unfold yearOfDoe. apply Z.div_le_mono; [lia|].
  Z.div_mod_to_equations. lia.
Qed.

Lemma yearOfDoe_year n doe :
  0 <= n <= 399 -> yearStart n <= doe <= yearEnd n -> yearOfDoe doe = n.
Proof.
  intros Hn Hd. pose proof (yearCheck_ok n Hn) as C. unfold yearCheck in C.
  repeat (apply andb_prop in C as [C ?]).
  repeat match goal with
         | H : (_ <=? _) = true |- _ => apply Z.leb_le in H
         | H : (_ =? _) = true |- _ => apply Z.eqb_eq in H
         end.
  pose proof (yearOfDoe_mono (yearStart n) doe) as M1.
  pose proof (yearOfDoe_mono doe (yearEnd n)) as M2.
  lia.
Qed.

(** The month and day of a day of the year counted from 1 March. *)
Lemma month_day_of_doy mp d :
  0 <= mp <= 11 -> 1 <= d ->
  (153 * mp + 2) / 5 + d - 1 < (153 * (mp + 1) + 2) / 5 ->
  let doy := (153 * mp + 2) / 5 + d - 1 in
  (5 * doy + 2) / 153 = mp /\ doy - (153 * ((5 * doy + 2) / 153) + 2) / 5 + 1 = d.
Proof.
  intros Hmp Hd Hlt. cbv zeta.
  assert (E : (5 * ((153 * mp + 2) / 5 + d - 1) + 2) / 153 = mp).
  { assert (C : mp = 0 \/ mp = 1 \/ mp = 2 \/ mp = 3 \/ mp = 4 \/ mp = 5
                 \/ mp = 6 \/ mp = 7 \/ mp = 8 \/ mp = 9 \/ mp = 10 \/ mp = 11)
      by lia.
    repeat (destruct C as [C | C]); subst mp;
      Z.div_mod_to_equations; lia. }
  split; [exact E|]. rewrite E. lia.
Qed.

Lemma monthIndex_range m : 1 <= m <= 12 -> 0 <= monthIndex m <= 11.
Proof. unfold monthIndex. destruct (Z.ltb_spec 2 m); lia. Qed.

Lemma month_of_index m :
  1 <= m <= 12 ->
  (if monthIndex m <? 10 then monthIndex m + 3 else monthIndex m - 9) = m.
Proof.
  unfold monthIndex. intros H.
  destruct (Z.ltb_spec 2 m);
    [destruct (Z.ltb_spec (m - 3) 10) | destruct (Z.ltb_spec (m + 9) 10)];
    lia.
Qed.

(** The length of a month, from the definition of [daysInMonth]. *)
Ltac split_tests :=
  repeat match goal with
         | |- context [?a <=? ?b] => destruct (Z.leb_spec a b)
         | |- context [?a <? ?b] => destruct (Z.ltb_spec a b)
         | |- context [?a =? ?b] => destruct (Z.eqb_spec a b)
         end.

Lemma daysInMonth_index y m :
  1 <= m <= 12 -> m <> 2 ->
  JsDate.daysInMonth y m
  = (153 * (monthIndex m + 1) + 2) / 5 - (153 * monthIndex m + 2) / 5.
Proof.
  intros Hm H2. unfold JsDate.daysInMonth.
  rewrite !days_from_civil_abs. unfold shiftedYear, monthIndex.
  split_tests; try lia; Z.div_mod_to_equations; lia.
Qed.

Lemma daysInMonth_feb y :
  JsDate.daysInMonth y 2
  = yearEnd ((y - 1) mod 400) - yearStart ((y - 1) mod 400) - 336.
Proof.
  unfold JsDate.daysInMonth.
  rewrite !days_from_civil_abs. unfold shiftedYear, monthIndex.
  unfold yearEnd, yearStart.
  split_tests; try lia; Z.div_mod_to_equations; lia.
Qed.

Lemma civil_from_days_parts e doe :
  0 <= doe <= 146096 ->
  JsDate.civil_from_days (146097 * e + doe - 719468)
  = (let yoe := yearOfDoe doe in
     let doy := doe - yearStart yoe in
     let mp := (5 * doy + 2) / 153 in
     let d := doy - (153 * mp + 2) / 5 + 1 in
     let m := if mp <? 10 then mp + 3 else mp - 9 in
     ((if m <=? 2 then yoe + e * 400 + 1 else yoe + e * 400), m, d)).
Proof.
  intros H. unfold JsDate.civil_from_days.
  replace (146097 * e + doe - 719468 + 719468) with (doe + e * 146097) by lia.
  rewrite Z.div_add by lia. rewrite (Z.div_small doe 146097) by lia.
  rewrite Z.add_0_l.
  replace (doe + e * 146097 - e * 146097) with doe by lia.
  reflexivity.
Qed.

(** The calendar date of the day number of a calendar date is that
    date. *)
Lemma civil_from_days_from_civil y m d :
  1 <= m <= 12 -> 1 <= d <= JsDate.daysInMonth y m ->
  JsDate.civil_from_days (JsDate.days_from_civil y m d) = (y, m, d).
Proof.
  intros Hm Hd.
  pose proof (monthIndex_range m Hm) as Hmp.
  set (n := shiftedYear y m mod 400).
  assert (Hn : 0 <= n <= 399)
    by (subst n; pose proof (Z.mod_pos_bound (shiftedYear y m) 400); lia).
  pose proof (yearCheck_ok n Hn) as C. unfold yearCheck in C.
  repeat (apply andb_prop in C as [C ?]).
  repeat match goal with
         | H : (_ <=? _) = true |- _ => apply Z.leb_le in H
         | H : (_ =? _) = true |- _ => apply Z.eqb_eq in H
         end.
  set (doy := (153 * monthIndex m + 2) / 5 + d - 1).
  assert (Hdoy : 0 <= doy <= yearEnd n - yearStart n
                 /\ doy < (153 * (monthIndex m + 1) + 2) / 5).
  { subst doy. destruct (Z.eq_dec m 2) as [-> | Hm2].
    - rewrite daysInMonth_feb in Hd.
      assert (En : (y - 1) mod 400 = n) by reflexivity.
      rewrite En in Hd.
      change (monthIndex 2) with 11.
      change ((153 * 11 + 2) / 5) with 337.
      change ((153 * (11 + 1) + 2) / 5) with 367. lia.
    - rewrite (daysInMonth_index y m Hm Hm2) in Hd.
      assert (monthIndex m <= 10)
        by (unfold monthIndex; destruct (Z.ltb_spec 2 m); lia).
      Z.div_mod_to_equations. lia. }
  rewrite days_from_civil_era. fold n.
  replace (146097 * (shiftedYear y m / 400) + yearStart n
           + (153 * monthIndex m + 2) / 5 + d - 1 - 719468)
    with (146097 * (shiftedYear y m / 400) + (yearStart n + doy) - 719468)
    by (subst doy; lia).
  rewrite civil_from_days_parts by lia. cbv zeta.
  rewrite (yearOfDoe_year n (yearStart n + doy) Hn) by lia.
  replace (yearStart n + doy - yearStart n) with doy by lia.
  destruct (month_day_of_doy (monthIndex m) d Hmp ltac:(lia) (proj2 Hdoy))
    as [E1 E2].
  fold doy in E1, E2. rewrite E2, E1, (month_of_index m Hm).
  f_equal. f_equal. subst n. unfold shiftedYear.
  destruct (Z.leb_spec m 2); Z.div_mod_to_equations; lia.
Qed.

(** The day number is linear in the day of the month. *)
Lemma days_from_civil_day y m d :
  JsDate.days_from_civil y m d = JsDate.days_from_civil y m 1 + (d - 1).
Proof. rewrite !days_from_civil_abs. lia. Qed.

Lemma daysInMonth_range y m :
  1 <= m <= 12 -> 28 <= JsDate.daysInMonth y m <= 31.
Proof.
  intros Hm. destruct (Z.eq_dec m 2) as [-> | Hm2].
  - rewrite daysInMonth_feb.
    assert (Hn : 0 <= (y - 1) mod 400 <= 399)
      by (pose proof (Z.mod_pos_bound (y - 1) 400); lia).
    pose proof (yearCheck_ok _ Hn) as C. unfold yearCheck in C.
    repeat (apply andb_prop in C as [C ?]).
    repeat match goal with
           | H : (_ <=? _) = true |- _ => apply Z.leb_le in H
           end.
    lia.
  - rewrite (daysInMonth_index y m Hm Hm2). unfold monthIndex.
    assert (C : m = 1 \/ m = 3 \/ m = 4 \/ m = 5 \/ m = 6 \/ m = 7 \/ m = 8
                \/ m = 9 \/ m = 10 \/ m = 11 \/ m = 12) by lia.
    repeat (destruct C as [C | C]); subst m; vm_compute; split; discriminate.
Qed.

Lemma year_exists doe (k : nat) :
  (k <= 399)%nat -> 0 <= doe <= yearEnd (Z.of_nat k) ->
  exists n, 0 <= n <= Z.of_nat k /\ yearStart n <= doe <= yearEnd n.
Proof.
  induction k as [| k IH]; intros Hk Hd.
  - exists 0. change (yearStart 0) with 0. simpl in Hd |- *. lia.
  - destruct (Z_le_gt_dec doe (yearEnd (Z.of_nat k))) as [Hle | Hgt].
    + destruct IH as (n & Hn & Hr); [lia | lia |]. exists n. lia.
    + exists (Z.of_nat (S k)). split; [lia|]. split; [|lia].
      unfold yearEnd in Hgt.
      destruct (Z.eqb_spec (Z.of_nat k) 399); [lia|].
      replace (Z.of_nat (S k)) with (Z.of_nat k + 1) by lia. lia.
Qed.

(** Every day number is the day number of the calendar date computed
    from it, and that date is a date of the calendar. *)
Lemma days_from_civil_from_days z :
  let '(y, m, d) := JsDate.civil_from_days z in
  1 <= m <= 12 /\ 1 <= d <= JsDate.daysInMonth y m
  /\ JsDate.days_from_civil y m d = z.
Proof.
  set (e := (z + 719468) / 146097).
  set (doe := (z + 719468) mod 146097).
  assert (Hz : z = 146097 * e + doe - 719468)
    by (subst e doe; Z.div_mod_to_equations; lia).
  assert (Hdoe : 0 <= doe <= 146096)
    by (subst doe; pose proof (Z.mod_pos_bound (z + 719468) 146097); lia).
  destruct (year_exists doe 399) as (n & Hn & Hr);
    [lia | change (yearEnd (Z.of_nat 399)) with 146096; lia |].
  change (Z.of_nat 399) with 399 in Hn.
  pose proof (yearCheck_ok n Hn) as C. unfold yearCheck in C.
  repeat (apply andb_prop in C as [C ?]).
  repeat match goal with
         | H : (_ <=? _) = true |- _ => apply Z.leb_le in H
         | H : (_ =? _) = true |- _ => apply Z.eqb_eq in H
         end.
  rewrite Hz, civil_from_days_parts by assumption. cbv zeta.
  rewrite (yearOfDoe_year n doe Hn Hr).
  set (doy := doe - yearStart n).
  set (mp := (5 * doy + 2) / 153).
  assert (Hdoy : 0 <= doy <= yearEnd n - yearStart n) by (subst doy; lia).
  assert (Hmp : 0 <= mp <= 11 /\ (153 * mp + 2) / 5 <= doy
                /\ doy < (153 * (mp + 1) + 2) / 5)
    by (subst mp; Z.div_mod_to_equations; lia).
  clearbody mp.
  set (m := if mp <? 10 then mp + 3 else mp - 9).
  assert (Hm : 1 <= m <= 12 /\ monthIndex m = mp
               /\ (m = 2 <-> mp = 11)).
  { subst m. unfold monthIndex. destruct (Z.ltb_spec mp 10).
    - destruct (Z.ltb_spec 2 (mp + 3)); lia.
    - destruct (Z.ltb_spec 2 (mp - 9)); lia. }
  destruct Hm as (Hm & Hmi & Hm2). clearbody m.
  set (y := if m <=? 2 then n + e * 400 + 1 else n + e * 400).
  assert (Hs : shiftedYear y m = n + e * 400)
    by (subst y; unfold shiftedYear; destruct (Z.leb_spec m 2); lia).
  clearbody y.
  split; [assumption|]. split; [split; [lia|]|].
  - destruct (Z.eq_dec m 2) as [E2 | N2].
    + rewrite E2, daysInMonth_feb.
      assert (En : (y - 1) mod 400 = n).
      { unfold shiftedYear in Hs. rewrite E2 in Hs. simpl in Hs.
        rewrite Hs. Z.div_mod_to_equations. lia. }
      rewrite En. assert (E11 : mp = 11) by tauto.
      destruct Hmp as (_ & Hlo & _). rewrite E11 in Hlo |- *.
      change ((153 * 11 + 2) / 5) with 337 in *. lia.
    + rewrite (daysInMonth_index y m Hm N2), Hmi. lia.
  - rewrite days_from_civil_era, Hs, Hmi.
    replace ((n + e * 400) / 400) with e by (Z.div_mod_to_equations; lia).
    replace ((n + e * 400) mod 400) with n by (Z.div_mod_to_equations; lia).
    subst doy. lia.
Qed.

(** ** Local dates *)

Lemma Day_of_days x : JsDate.Day (x * JsDate.msPerDay) = x.
Proof. unfold JsDate.Day, JsDate.msPerDay. now rewrite Z.div_mul. Qed.

Lemma Day_local tz x :
  JsDate.Day (JsDate.LocalTime tz (JsDate.UTC tz (x * JsDate.msPerDay))) = x.
Proof.
  unfold JsDate.LocalTime, JsDate.UTC.
  replace (x * JsDate.msPerDay - tz * JsDate.msPerMinute
           + tz * JsDate.msPerMinute) with (x * JsDate.msPerDay) by lia.
  apply Day_of_days.
Qed.

Lemma fromLocal_day tz year month day :
  0 <= month <= 11 ->
  JsDate.Day (JsDate.LocalTime tz (JsDate.fromLocal tz year month day))
  = JsDate.days_from_civil (fullYear year) (month + 1) 1 + (day - 1).
Proof.
  intros Hm. unfold JsDate.fromLocal. fold (fullYear year).
  rewrite Day_local.
  replace (month / 12) with 0 by (Z.div_mod_to_equations; lia).
  replace (month mod 12) with month by (Z.div_mod_to_equations; lia).
  now rewrite Z.add_0_r.
Qed.

Lemma fromLocal_last tz year month :
  0 <= month <= 11 ->
  JsDate.Day (JsDate.LocalTime tz (JsDate.fromLocal tz year (month + 1) 0))
  = JsDate.days_from_civil (fullYear year) (month + 1)
      (JsDate.daysInMonth (fullYear year) (month + 1)).
Proof.
  intros Hm. unfold JsDate.fromLocal. fold (fullYear year).
  rewrite Day_local.
  rewrite (days_from_civil_day _ _ (JsDate.daysInMonth _ _)).
  unfold JsDate.daysInMonth.
  destruct (Z.eqb_spec (month + 1) 12) as [E | E].
  - rewrite E. change (12 / 12) with 1. change (12 mod 12 + 1) with 1. lia.
  - replace ((month + 1) / 12) with 0 by (Z.div_mod_to_equations; lia).
    replace ((month + 1) mod 12) with (month + 1)
      by (Z.div_mod_to_equations; lia).
    rewrite Z.add_0_r. lia.
Qed.

Lemma getMonth_range tz t : 0 <= JsDate.getMonth tz t <= 11.
Proof.
  unfold JsDate.getMonth.
  pose proof (days_from_civil_from_days
                (JsDate.Day (JsDate.LocalTime tz t))) as H.
  destruct (JsDate.civil_from_days _) as [[y m] d]. lia.
Qed.

Lemma getDate_fromLocal tz year month day :
  0 <= month <= 11 ->
  1 <= day <= JsDate.daysInMonth (fullYear year) (month + 1) ->
  JsDate.civil_from_days
    (JsDate.Day (JsDate.LocalTime tz (JsDate.fromLocal tz year month day)))
  = (fullYear year, month + 1, day).
Proof.
  intros Hm Hd. rewrite fromLocal_day by assumption.
  rewrite <- days_from_civil_day.
  apply civil_from_days_from_civil; lia.
Qed.

Lemma daysUpTo_In n k : In k (daysUpTo n) <-> 1 <= k <= n.
Proof.
  unfold daysUpTo. rewrite in_map_iff. split.
  - intros (j & <- & Hj). apply in_seq in Hj. lia.
  - intros H. exists (Z.to_nat k). split; [lia|]. apply in_seq. lia.
Qed.

(** X19: in every time zone the calendar holds the seven day names, then
    one blank cell per weekday before the first of the displayed month
    (none when it is a Sunday, at most six), then one cell per day of that
    month, numbered from 1 to the length of the month, which is between
    28 and 31; a displayed year from 0 to 99 is shown as the year 1900
    later. *)
Theorem renderCalendarView_month
    (tz : Z) (parseDate : string -> option Z) (now : Z) (m : TaskManager) :
  let year := JsDate.getFullYear tz (calendarDate m) in
  let month := JsDate.getMonth tz (calendarDate m) in
  let K := (JsDate.days_from_civil (fullYear year) (month + 1) 1 + 4) mod 7 in
  let N := JsDate.daysInMonth (fullYear year) (month + 1) in
  exists days,
    0 <= K <= 6 /\ 28 <= N <= 31
    /\ renderCalendarView tz parseDate now m
       = (map DayName dayNames ++ repeat OtherMonth (Z.to_nat K) ++ days)%list
    /\ forallb isDayCell days = true
    /\ map dayNumber days = daysUpTo N.
Proof.
  cbv zeta.
  pose proof (getMonth_range tz (calendarDate m)) as Hm.
  destruct (renderCalendarView_shape tz parseDate now m)
    as (days & E & Hc & Hn). cbv zeta in E, Hn.
  assert (EK : JsDate.getDay tz
                 (JsDate.fromLocal tz (JsDate.getFullYear tz (calendarDate m))
                    (JsDate.getMonth tz (calendarDate m)) 1)
               = (JsDate.days_from_civil
                    (fullYear (JsDate.getFullYear tz (calendarDate m)))
                    (JsDate.getMonth tz (calendarDate m) + 1) 1 + 4) mod 7).
  { unfold JsDate.getDay. rewrite fromLocal_day by assumption.
    f_equal. lia. }
  rewrite <- EK.
  exists days. split; [|split; [|split; [exact E | split; [exact Hc|]]]].
  - unfold JsDate.getDay.
    match goal with
    | |- 0 <= ?a mod 7 <= 6 => pose proof (Z.mod_pos_bound a 7); lia
    end.
  - apply daysInMonth_range. lia.
  - rewrite Hn. f_equal. unfold JsDate.getDate.
    rewrite fromLocal_last by assumption.
    rewrite civil_from_days_from_civil; [reflexivity | lia |].
    pose proof (daysInMonth_range
                  (fullYear (JsDate.getFullYear tz (calendarDate m)))
                  (JsDate.getMonth tz (calendarDate m) + 1)). lia.
Qed.

(** ** ISO date strings *)

Lemma digit_char n c :
  JsDate.isDigit c = true -> n mod 10 = JsDate.digitVal c ->
  JsDate.digit n = c.
Proof.
  unfold JsDate.isDigit, Str.inRange, JsDate.digitVal, JsDate.digit, Str.code.
  intros Hc Hn. apply andb_prop in Hc as [H1 H2].
  apply Z.leb_le in H1, H2. rewrite Hn.
  replace (48 + (Z.of_N (N_of_ascii c) - 48)) with (Z.of_N (N_of_ascii c))
    by lia.
  rewrite N2Z.id. apply ascii_N_embedding.
Qed.

Lemma digitVal_range c :
  JsDate.isDigit c = true -> 0 <= JsDate.digitVal c <= 9.
Proof.
  unfold JsDate.isDigit, Str.inRange, JsDate.digitVal.
  intros Hc. apply andb_prop in Hc as [H1 H2].
  apply Z.leb_le in H1, H2. lia.
Qed.

Lemma pad2_chars c1 c2 :
  JsDate.isDigit c1 = true -> JsDate.isDigit c2 = true ->
  JsDate.pad2 (JsDate.digitVal c1 * 10 + JsDate.digitVal c2)
  = String c1 (String c2 "").
Proof.
  intros H1 H2. unfold JsDate.pad2.
  pose proof (digitVal_range c1 H1). pose proof (digitVal_range c2 H2).
  rewrite (digit_char _ c1 H1), (digit_char _ c2 H2);
    [reflexivity | |]; Z.div_mod_to_equations; lia.
Qed.

Lemma pad4_chars c1 c2 c3 c4 :
  JsDate.isDigit c1 = true -> JsDate.isDigit c2 = true ->
  JsDate.isDigit c3 = true -> JsDate.isDigit c4 = true ->
  JsDate.pad4 (JsDate.digitVal c1 * 1000 + JsDate.digitVal c2 * 100
               + JsDate.digitVal c3 * 10 + JsDate.digitVal c4)
  = String c1 (String c2 (String c3 (String c4 ""))).
Proof.
  intros H1 H2 H3 H4. unfold JsDate.pad4, JsDate.pad2.
  pose proof (digitVal_range c1 H1). pose proof (digitVal_range c2 H2).
  pose proof (digitVal_range c3 H3). pose proof (digitVal_range c4 H4).
  rewrite (digit_char _ c1 H1), (digit_char _ c2 H2),
    (digit_char _ c3 H3), (digit_char _ c4 H4);
    [reflexivity | | | |]; Z.div_mod_to_equations; lia.
Qed.

(** A string that parses as a date is the ISO date of the time value it
    parses to, and names a day of the calendar. *)
Lemma parseIsoDate_format s ms :
  JsDate.parseIsoDate s = Some ms ->
  exists y mo d,
    0 <= y <= 9999 /\ 1 <= mo <= 12 /\ 1 <= d <= JsDate.daysInMonth y mo
    /\ ms = JsDate.days_from_civil y mo d * JsDate.msPerDay
    /\ s = JsDate.pad4 y ++ "-" ++ JsDate.pad2 mo ++ "-" ++ JsDate.pad2 d.
Proof.
  unfold JsDate.parseIsoDate.
  destruct s as [| y1 [| y2 [| y3 [| y4 [| c5 [| m1 [| m2 [| c8 [| d1
                 [| d2 [| x r]]]]]]]]]]]; try discriminate;
    try (destruct c5 as [[] [] [] [] [] [] [] []]; try discriminate);
    try (destruct c8 as [[] [] [] [] [] [] [] []]; try discriminate).
  - destruct (forallb JsDate.isDigit [y1; y2; y3; y4; m1; m2; d1; d2]) eqn:F;
      [|discriminate].
    simpl in F.
    repeat (apply andb_prop in F as [? F]).
    set (y := JsDate.digitVal y1 * 1000 + JsDate.digitVal y2 * 100
              + JsDate.digitVal y3 * 10 + JsDate.digitVal y4).
    set (mo := JsDate.digitVal m1 * 10 + JsDate.digitVal m2).
    set (d := JsDate.digitVal d1 * 10 + JsDate.digitVal d2).
    cbv zeta.
    destruct ((1 <=? mo) && (mo <=? 12) && (1 <=? d)
              && (d <=? JsDate.daysInMonth y mo)) eqn:V; [|discriminate].
    intros E. injection E as E. symmetry in E.
    repeat (apply andb_prop in V as [V ?]).
    repeat match goal with
           | H : (_ <=? _) = true |- _ => apply Z.leb_le in H
           end.
    exists y, mo, d.
    assert (Hy : 0 <= y <= 9999).
    { subst y.
      pose proof (digitVal_range y1 ltac:(assumption)).
      pose proof (digitVal_range y2 ltac:(assumption)).
      pose proof (digitVal_range y3 ltac:(assumption)).
      pose proof (digitVal_range y4 ltac:(assumption)). lia. }
    split; [lia|]. split; [lia|]. split; [lia|]. split; [exact E|].
    subst y mo d.
    rewrite pad4_chars, !pad2_chars by assumption. reflexivity.
Qed.

Lemma string_app_inv_head (s a b : string) : s ++ a = s ++ b -> a = b.
Proof.
  induction s as [| c s IH]; simpl; [auto|]. intros [= H]. auto.
Qed.

Lemma digit_inj a b :
  0 <= a <= 9 -> 0 <= b <= 9 -> JsDate.digit a = JsDate.digit b -> a = b.
Proof.
  unfold JsDate.digit. intros Ha Hb.
  rewrite !Z.mod_small by lia. intros H.
  apply (f_equal N_of_ascii) in H.
  rewrite !N_ascii_embedding in H by lia. lia.
Qed.

Lemma pad2_inj a b :
  0 <= a <= 99 -> 0 <= b <= 99 -> JsDate.pad2 a = JsDate.pad2 b -> a = b.
Proof.
  unfold JsDate.pad2. intros Ha Hb [= H1 H2].
  assert (E1 : (a / 10) mod 10 = (b / 10) mod 10).
  { assert (Hd : forall n, JsDate.digit n = JsDate.digit (n mod 10)).
    { intros n. unfold JsDate.digit. now rewrite Z.mod_mod by lia. }
    rewrite (Hd (a / 10)), (Hd (b / 10)) in H1.
    apply digit_inj in H1; [assumption | |]; Z.div_mod_to_equations; lia. }
  assert (E2 : a mod 10 = b mod 10).
  { assert (Hd : forall n, JsDate.digit n = JsDate.digit (n mod 10)).
    { intros n. unfold JsDate.digit. now rewrite Z.mod_mod by lia. }
    rewrite (Hd a), (Hd b) in H2.
    apply digit_inj in H2; [assumption | |]; Z.div_mod_to_equations; lia. }
  Z.div_mod_to_equations. lia.
Qed.

Lemma isoDate_of_civil y mo d :
  0 <= y <= 9999 -> 1 <= mo <= 12 -> 1 <= d <= JsDate.daysInMonth y mo ->
  JsDate.isoDate (JsDate.days_from_civil y mo d * JsDate.msPerDay)
  = JsDate.pad4 y ++ "-" ++ JsDate.pad2 mo ++ "-" ++ JsDate.pad2 d.
Proof.
  intros Hy Hm Hd. unfold JsDate.isoDate.
  rewrite Day_of_days, civil_from_days_from_civil by assumption.
  unfold JsDate.isoYear.
  destruct (Z.leb_spec 0 y); [|lia]. destruct (Z.leb_spec y 9999); [|lia].
  reflexivity.
Qed.

Lemma inMonth_utc (year month : Z) (t : Task) (ms : Z) :
  JsDate.parseIsoDate (dueDate t) = Some ms ->
  JsDate.getFullYear 0 ms = year -> JsDate.getMonth 0 ms = month ->
  inMonth 0 JsDate.parseIsoDate year month t = true.
Proof.
  intros Hp Hy Hm. unfold inMonth, Str.truthy.
  destruct (String.eqb_spec (dueDate t) "") as [E0 | E0].
  - rewrite E0 in Hp. discriminate.
  - cbn [negb]. rewrite Hp, Hy, Hm, !Z.eqb_refl. reflexivity.
Qed.

Lemma fullYear_plain (year : Z) : ~ (0 <= year <= 99) -> fullYear year = year.
Proof.
  intros H. unfold fullYear.
  destruct (Z.leb_spec 0 year), (Z.leb_spec year 99); cbn [andb]; lia.
Qed.

Lemma isoDate_fromLocal_utc (year month k : Z) :
  ~ (0 <= year <= 99) -> 0 <= year <= 9999 -> 0 <= month <= 11 ->
  1 <= k <= JsDate.daysInMonth year (month + 1) ->
  JsDate.isoDate (JsDate.fromLocal 0 year month k)
  = JsDate.pad4 year ++ "-" ++ JsDate.pad2 (month + 1) ++ "-" ++ JsDate.pad2 k.
Proof.
  intros Hyear Hy9 Hmonth Hk.
  rewrite <- (isoDate_of_civil year (month + 1) k) by (assumption || lia).
  pose proof (fromLocal_day 0 year month k Hmonth) as F.
  unfold JsDate.LocalTime in F. rewrite Z.mul_0_l, Z.add_0_r in F.
  rewrite (fullYear_plain year Hyear), <- days_from_civil_day in F.
  unfold JsDate.isoDate. now rewrite F, Day_of_days.
Qed.

Lemma getDate_last_utc (year month : Z) :
  ~ (0 <= year <= 99) -> 0 <= month <= 11 ->
  JsDate.getDate 0 (JsDate.fromLocal 0 year (month + 1) 0)
  = JsDate.daysInMonth year (month + 1).
Proof.
  intros Hyear Hmonth. unfold JsDate.getDate.
  rewrite fromLocal_last by assumption.
  rewrite (fullYear_plain year Hyear).
  pose proof (daysInMonth_range year (month + 1)).
  rewrite civil_from_days_from_civil; [reflexivity | lia | lia].
Qed.

Lemma civil_parts_utc (ms y mo d : Z) :
  1 <= mo <= 12 -> 1 <= d <= JsDate.daysInMonth y mo ->
  ms = JsDate.days_from_civil y mo d * JsDate.msPerDay ->
  JsDate.getFullYear 0 ms = y /\ JsDate.getMonth 0 ms = mo - 1
  /\ JsDate.getDate 0 ms = d.
Proof.
  intros Hmo Hd Ems.
  assert (Hc : JsDate.civil_from_days (JsDate.Day (JsDate.LocalTime 0 ms))
               = (y, mo, d)).
  { unfold JsDate.LocalTime. rewrite Z.mul_0_l, Z.add_0_r, Ems.
    rewrite Day_of_days. now apply civil_from_days_from_civil. }
  unfold JsDate.getFullYear, JsDate.getMonth, JsDate.getDate.
  rewrite Hc. split; [|split]; reflexivity.
Qed.

(** X20: on UTC, with the calendar showing a month of a year outside 0..99,
    a stored task whose due date is a valid ISO date of that month is attached
    to the day cell of its day of the month, whose date string is the task's
    due date, and to no cell with another day number. *)
Theorem renderCalendarView_utc (now : Z) (m : TaskManager) (t : Task) (ms : Z) :
  ~ (0 <= JsDate.getFullYear 0 (calendarDate m) <= 99) ->
  In t (tasks m) ->
  JsDate.parseIsoDate (dueDate t) = Some ms ->
  JsDate.getFullYear 0 ms = JsDate.getFullYear 0 (calendarDate m) ->
  JsDate.getMonth 0 ms = JsDate.getMonth 0 (calendarDate m) ->
  let cells := renderCalendarView 0 JsDate.parseIsoDate now m in
  (exists today ts,
      In (DayCell (JsDate.getDate 0 ms) (dueDate t) today ts) cells
      /\ In t ts)
  /\ (forall k s today ts,
        In (DayCell k s today ts) cells -> In t ts ->
        k = JsDate.getDate 0 ms).
Proof.
  cbv zeta. unfold renderCalendarView.
  generalize (JsDate.getFullYear 0 (calendarDate m)).
  generalize (JsDate.getMonth 0 (calendarDate m)).
  generalize (tasks m). clear m.
  intros l month year Hyear Ht Hp Hy Hm.
  destruct (parseIsoDate_format _ _ Hp)
    as (y & mo & d & Hy9 & Hmo & Hd & Ems & Es).
  destruct (civil_parts_utc ms y mo d Hmo Hd Ems) as (Ey & Em & Ed).
  rewrite Ed.
  assert (Eyy : y = year) by congruence.
  assert (Emo : mo = month + 1) by lia.
  rewrite Eyy, Emo in *. clear Eyy Emo y mo Ey Em.
  assert (Hmonth : 0 <= month <= 11) by lia.
  pose proof (inMonth_utc year month t ms Hp Hy Hm) as Hin.
  pose proof (daysInMonth_range year (month + 1) Hmo) as HN.
  cbv zeta. rewrite (getDate_last_utc year month Hyear Hmonth).
  split.
  - eexists _, _. split.
    + apply in_or_app. right. apply in_or_app. right.
      apply in_map_iff. exists d. split.
      * rewrite (isoDate_fromLocal_utc year month d Hyear Hy9 Hmonth Hd),
          <- Es. reflexivity.
      * apply daysUpTo_In. lia.
    + apply filter_In. split; [|apply String.eqb_refl].
      apply filter_In. split; assumption.
  - intros k s today ts Hcell Hts.
    apply in_app_or in Hcell as [Hcell | Hcell].
    { apply in_map_iff in Hcell as (x & Hx & _). discriminate. }
    apply in_app_or in Hcell as [Hcell | Hcell].
    { apply repeat_spec in Hcell. discriminate. }
    apply in_map_iff in Hcell as (k' & Hk' & Hrange).
    apply daysUpTo_In in Hrange.
    injection Hk' as -> <- _ <-.
    apply filter_In in Hts as [_ Hts]. apply String.eqb_eq in Hts.
    rewrite (isoDate_fromLocal_utc year month k Hyear Hy9 Hmonth Hrange), Es
      in Hts.
    apply string_app_inv_head in Hts.
    apply (string_app_inv_head "-") in Hts.
    apply string_app_inv_head in Hts.
    apply (string_app_inv_head "-") in Hts.
    symmetry. apply pad2_inj; [lia | lia | assumption].
Qed.

(** ** Calendar navigation and date labels *)

Lemma Day_time x r :
  0 <= r < JsDate.msPerDay -> JsDate.Day (x * JsDate.msPerDay + r) = x.
Proof.
  intros H. unfold JsDate.Day. unfold JsDate.msPerDay in *.
  Z.div_mod_to_equations. lia.
Qed.

Lemma setMonth_day tz t month :
  let '(y, _, d) := JsDate.civil_from_days (JsDate.Day (JsDate.LocalTime tz t)) in
  JsDate.Day (JsDate.LocalTime tz (setMonth tz t month))
  = JsDate.days_from_civil (y + month / 12) (month mod 12 + 1) 1 + (d - 1).
Proof.
  unfold setMonth.
  destruct (JsDate.civil_from_days (JsDate.Day (JsDate.LocalTime tz t)))
    as [[y mo] d].
  cbv zeta. unfold JsDate.LocalTime at 1. unfold JsDate.UTC.
  match goal with
  | |- JsDate.Day (?a - ?b + ?b) = _ => replace (a - b + b) with a by lia
  end.
  apply Day_time. apply Z.mod_pos_bound. reflexivity.
Qed.

Lemma next_month_start y m :
  1 <= m <= 12 ->
  JsDate.days_from_civil y m 1 + JsDate.daysInMonth y m
  = JsDate.days_from_civil ((12 * y + m) / 12) ((12 * y + m) mod 12 + 1) 1.
Proof.
  intros Hm. unfold JsDate.daysInMonth.
  destruct (Z.eqb_spec m 12) as [-> | N].
  - replace ((12 * y + 12) / 12) with (y + 1) by (Z.div_mod_to_equations; lia).
    replace ((12 * y + 12) mod 12) with 0 by (Z.div_mod_to_equations; lia).
    change (0 + 1) with 1. lia.
  - replace ((12 * y + m) / 12) with y by (Z.div_mod_to_equations; lia).
    replace ((12 * y + m) mod 12) with m by (Z.div_mod_to_equations; lia).
    lia.
Qed.

(** X21: changeMonth leaves the tasks alone and moves the calendar by
    [direction] months, keeping the day of the month, when the month it
    aims at has that day; when that month is too short for the day (as
    from the 31st to a month of 30 days) the calendar lands in the month
    after it, on the day left over. *)
Theorem changeMonth_shown (tz direction : Z) (m : TaskManager) :
  let before := calendarDate m in
  let after := calendarDate (changeMonth tz direction m) in
  let target := monthCount tz before + direction in
  let N := JsDate.daysInMonth (target / 12) (target mod 12 + 1) in
  tasks (changeMonth tz direction m) = tasks m
  /\ (JsDate.getDate tz before <= N ->
      monthCount tz after = target
      /\ JsDate.getDate tz after = JsDate.getDate tz before)
  /\ (N < JsDate.getDate tz before ->
      monthCount tz after = target + 1
      /\ JsDate.getDate tz after = JsDate.getDate tz before - N).
Proof.
  cbv zeta. split; [reflexivity|].
  unfold changeMonth. cbn [calendarDate].
  unfold monthCount, JsDate.getFullYear, JsDate.getMonth, JsDate.getDate.
  pose proof (setMonth_day tz (calendarDate m)) as Hs.
  pose proof (days_from_civil_from_days
                (JsDate.Day (JsDate.LocalTime tz (calendarDate m)))) as Hv.
  destruct (JsDate.civil_from_days
              (JsDate.Day (JsDate.LocalTime tz (calendarDate m))))
    as [[y mo] d].
  destruct Hv as (Hmo & Hd & _). cbv beta iota.
  specialize (Hs (mo - 1 + direction)). rewrite Hs. clear Hs.
  pose proof (daysInMonth_range y mo Hmo) as Hr.
  replace (12 * y + (mo - 1) + direction)
    with (12 * y + (mo - 1 + direction)) by lia.
  set (T := mo - 1 + direction).
  assert (Ey : y + T / 12 = (12 * y + T) / 12)
    by (Z.div_mod_to_equations; lia).
  assert (Em : T mod 12 = (12 * y + T) mod 12)
    by (Z.div_mod_to_equations; lia).
  rewrite Ey, Em. clear Ey Em.
  set (ty := (12 * y + T) / 12). set (tm := (12 * y + T) mod 12).
  assert (Htm : 0 <= tm <= 11)
    by (subst tm; pose proof (Z.mod_pos_bound (12 * y + T) 12); lia).
  assert (HT : 12 * y + T = 12 * ty + tm)
    by (subst ty tm; Z.div_mod_to_equations; lia).
  rewrite HT. clearbody ty tm. clear HT.
  pose proof (daysInMonth_range ty (tm + 1)) as HN.
  split.
  - intros Hle. rewrite <- days_from_civil_day.
    rewrite civil_from_days_from_civil by lia. split; lia.
  - intros Hgt.
    replace (JsDate.days_from_civil ty (tm + 1) 1 + (d - 1))
      with (JsDate.days_from_civil ty (tm + 1) 1
            + JsDate.daysInMonth ty (tm + 1)
            + (d - JsDate.daysInMonth ty (tm + 1) - 1)) by lia.
    rewrite next_month_start by lia.
    set (U := 12 * ty + (tm + 1)).
    assert (Hu : 0 <= U mod 12 <= 11)
      by (pose proof (Z.mod_pos_bound U 12); lia).
    pose proof (daysInMonth_range (U / 12) (U mod 12 + 1)) as HU.
    rewrite <- (days_from_civil_day (U / 12) (U mod 12 + 1)
                  (d - JsDate.daysInMonth ty (tm + 1))).
    rewrite civil_from_days_from_civil by lia.
    split; [|lia]. subst U. Z.div_mod_to_equations. lia.
Qed.

(** Setting the day of the month to the next one moves a date by exactly
    one day, also on the last day of a month. *)
Lemma setDate_next_day tz t :
  setDate tz t (JsDate.getDate tz t + 1) = t + JsDate.msPerDay.
Proof.
  unfold setDate, JsDate.getDate.
  pose proof (days_from_civil_from_days
                (JsDate.Day (JsDate.LocalTime tz t))) as Hv.
  destruct (JsDate.civil_from_days (JsDate.Day (JsDate.LocalTime tz t)))
    as [[y mo] d].
  destruct Hv as (_ & _ & E).
  replace (d + 1 - 1) with (d - 1 + 1) by lia.
  rewrite Z.add_assoc, <- days_from_civil_day, E.
  unfold JsDate.UTC, JsDate.LocalTime, JsDate.Day, JsDate.msPerDay.
  Z.div_mod_to_equations. lia.
Qed.

(** X22: for a date text the parser reads, formatDate compares local
    calendar days in every time zone: it shows Today for the local day of
    the current time, Tomorrow for the day after it, also across the end
    of a month or a year, and the en-US rendering for every other day. *)
Theorem formatDate_days
    (tz : Z) (parseDate : string -> option Z)
    (toLocaleDateString : Z -> string) (now : Z) (dateStr : string)
    (date : Z) :
  dateStr <> "" ->
  parseDate (dateStr ++ "T00:00:00") = Some date ->
  let shown := formatDate tz parseDate toLocaleDateString now dateStr in
  (localDay tz date = localDay tz now -> shown = "Today")
  /\ (localDay tz date = localDay tz now + 1 -> shown = "Tomorrow")
  /\ (localDay tz date <> localDay tz now ->
      localDay tz date <> localDay tz now + 1 ->
      shown = toLocaleDateString date).
Proof.
  intros Hs Hp. cbv zeta. unfold formatDate, Str.truthy.
  destruct (String.eqb_spec dateStr "") as [E | _]; [contradiction|].
  cbn [negb]. rewrite Hp, setDate_next_day.
  unfold JsDate.sameLocalDay. fold (localDay tz date) (localDay tz now).
  assert (En : JsDate.Day (JsDate.LocalTime tz (now + JsDate.msPerDay))
               = localDay tz now + 1).
  { unfold localDay, JsDate.LocalTime, JsDate.Day, JsDate.msPerDay.
    Z.div_mod_to_equations. lia. }
  rewrite En.
  destruct (Z.eqb_spec (localDay tz date) (localDay tz now)) as [E0 | N0];
    destruct (Z.eqb_spec (localDay tz date) (localDay tz now + 1))
      as [E1 | N1];
    (split; [|split]); intros; try reflexivity; try lia.
Qed.

Lemma formatDate_days_witness :
  "2024-01-16" <> ""
  /\ parseLocalMidnight 330 ("2024-01-16" ++ "T00:00:00")
     = Some (JsDate.fromLocal 330 2024 0 16)
  /\ formatDate 330 (parseLocalMidnight 330) (fun _ => "Jan 16, 2024")
       (JsDate.fromLocal 330 2024 0 15 + 84600000) "2024-01-16"
     = "Tomorrow".
Proof.
  assert (H1 : "2024-01-16" <> "") by discriminate.
  assert (H2 : parseLocalMidnight 330 ("2024-01-16" ++ "T00:00:00")
               = Some (JsDate.fromLocal 330 2024 0 16))
    by (vm_compute; reflexivity).
  split; [exact H1 | split; [exact H2|]].
  apply (proj1 (proj2 (formatDate_days 330 (parseLocalMidnight 330)
                         (fun _ => "Jan 16, 2024")
                         (JsDate.fromLocal 330 2024 0 15 + 84600000)
                         "2024-01-16" (JsDate.fromLocal 330 2024 0 16)
                         H1 H2))).
  vm_compute. reflexivity.
Defined.

(** From 31 January one step forward shows March: February has no 31st
    day, and the date runs on to 2 March. *)
Example changeMonth_skips_february :
  let m := changeMonth 0 1 (showing (JsDate.fromLocal 0 2024 0 31)) in
  (JsDate.getMonth 0 (calendarDate m), JsDate.getDate 0 (calendarDate m))
  = (2, 2).
Proof. vm_compute. reflexivity. Qed.

Lemma escapeHtml_injective_witness :
  escapeHtml "a<b" = escapeHtml "a<b" /\ "a<b" = "a<b".
Proof.
  exact (conj eq_refl (escapeHtml_injective "a<b" "a<b" eq_refl)).
Defined.

Lemma renderCalendarView_utc_witness :
  In (dueOn 2 "2024-01-15") (tasks (january2024 0))
  /\ JsDate.parseIsoDate (dueDate (dueOn 2 "2024-01-15"))
     = Some 1705276800000
  /\ exists today ts,
       In (DayCell 15 "2024-01-15" today ts)
         (renderCalendarView 0 JsDate.parseIsoDate 0 (january2024 0))
       /\ In (dueOn 2 "2024-01-15") ts.
Proof.
  assert (Ey : JsDate.getFullYear 0 (calendarDate (january2024 0)) = 2024)
    by (vm_compute; reflexivity).
  assert (H1 : ~ (0 <= JsDate.getFullYear 0 (calendarDate (january2024 0))
                  <= 99)) by (rewrite Ey; lia).
  assert (H2 : In (dueOn 2 "2024-01-15") (tasks (january2024 0)))
    by (right; left; reflexivity).
  assert (H3 : JsDate.parseIsoDate (dueDate (dueOn 2 "2024-01-15"))
               = Some 1705276800000) by (vm_compute; reflexivity).
  assert (H4 : JsDate.getFullYear 0 1705276800000
               = JsDate.getFullYear 0 (calendarDate (january2024 0)))
    by (vm_compute; reflexivity).
  assert (H5 : JsDate.getMonth 0 1705276800000
               = JsDate.getMonth 0 (calendarDate (january2024 0)))
    by (vm_compute; reflexivity).
  assert (Ed : JsDate.getDate 0 1705276800000 = 15)
    by (vm_compute; reflexivity).
  split; [exact H2 | split; [exact H3|]].
  destruct (renderCalendarView_utc 0 (january2024 0) (dueOn 2 "2024-01-15")
              1705276800000 H1 H2 H3 H4 H5) as [(today & ts & Hc & Hi) _].
  rewrite Ed in Hc. exists today, ts. split; [exact Hc | exact Hi].
Defined.

(** ** Opening an edit and saving it *)

Lemma string_app_nil_r s : s ++ "" = s.
Proof. induction s as [| c r IH]; simpl; [reflexivity | now rewrite IH]. Qed.

Lemma split_comma_from_app s : forall cur r,
  Forall (fun c => negb (Str.code c =? 44) = true) (chars s) ->
  Str.split_comma_from cur (s ++ r) = Str.split_comma_from (cur ++ s) r.
Proof.
  induction s as [| c s IH]; intros cur r H; simpl.
  - now rewrite string_app_nil_r.
  - inversion H as [| ? ? Hc Hs]; subst.
    apply negb_true_iff in Hc. rewrite Hc, IH by assumption.
    now rewrite string_app_assoc.
Qed.

Lemma split_comma_join x l : forall cur,
  Forall cleanTag (x :: l) ->
  map Str.trim (Str.split_comma_from cur (join ", " (x :: l)))
  = Str.trim (cur ++ x) :: map (fun y => Str.trim (" " ++ y)) l.
Proof.
  revert x. induction l as [| y l IH]; intros x cur H.
  - inversion H as [| ? ? (_ & _ & Hx) _]; subst.
    cbn [join map]. rewrite <- (string_app_nil_r x) at 1.
    rewrite split_comma_from_app by assumption. reflexivity.
  - inversion H as [| ? ? (_ & _ & Hx) Hl]; subst.
    change (join ", " (x :: y :: l)) with (x ++ ", " ++ join ", " (y :: l)).
    rewrite split_comma_from_app by assumption.
    change (", " ++ join ", " (y :: l))
      with (String "," (String " " (join ", " (y :: l)))).
    cbn [Str.split_comma_from]. change (Str.code "," =? 44) with true.
    change (Str.code " " =? 44) with false. cbv iota.
    cbn [map]. f_equal. apply (IH y (EmptyString ++ " ")). exact Hl.
Qed.

Lemma trim_space_clean y : cleanTag y -> Str.trim (" " ++ y) = y.
Proof. intros (_ & Ht & _). exact Ht. Qed.

Lemma splitTags_join l : Forall cleanTag l -> splitTags (join ", " l) = l.
Proof.
  intros H. unfold splitTags, Str.split_comma.
  destruct l as [| x l]; [reflexivity|].
  rewrite (split_comma_join x l "" H).
  inversion H as [| ? ? Hx Hl]; subst.
  assert (Em : map (fun y => Str.trim (" " ++ y)) l = l).
  { clear -Hl. induction Hl as [| y l Hy _ IH]; simpl; [reflexivity|].
    simpl in IH. rewrite IH. f_equal. exact (trim_space_clean y Hy). }
  rewrite Em. change ("" ++ x) with x.
  destruct Hx as (Hn & Ht & Hc). rewrite Ht.
  clear -Hn Hl. cbn [filter].
  assert (Tx : Str.truthy x = true).
  { unfold Str.truthy. now destruct (String.eqb_spec x ""). }
  rewrite Tx. f_equal.
  induction Hl as [| y l (Hy & _) _ IH]; simpl; [reflexivity|].
  unfold Str.truthy at 1. destruct (String.eqb_spec y ""); [contradiction|].
  simpl. now rewrite IH.
Qed.

Lemma sameId_own key t x :
  sameId key t = true -> sameId (Some (id t)) x = sameId key x.
Proof.
  destruct key as [k|]; simpl; [|discriminate]. intros H.
  apply Qeq_bool_iff in H.
  destruct (Qeq_bool (id x) (id t)) eqn:E1, (Qeq_bool (id x) k) eqn:E2;
    try reflexivity.
  - apply Qeq_bool_iff in E1. apply Qeq_bool_neq in E2. exfalso. apply E2.
    now rewrite E1.
  - apply Qeq_bool_iff in E2. apply Qeq_bool_neq in E1. exfalso. apply E1.
    now rewrite E2, H.
Qed.

Lemma find_own key l t :
  find key l = Some t -> find (Some (id t)) l = Some t.
Proof.
  intros H. destruct (find_split key l t H) as (l1 & l2 & -> & H1 & H2).
  clear H. unfold find.
  induction H1 as [| x l1 Hx _ IH]; cbn [List.find app].
  - rewrite (sameId_own key t t H2), H2. reflexivity.
  - rewrite (sameId_own key t x H2), Hx. exact IH.
Qed.

(** X23: opening a task in the edit dialog and saving at once, with the
    fields as the dialog was filled, leaves the task list as it was
    exactly when every tag of the task is not empty, has no white space at
    either end and holds no comma: the tags go through join(', ') and
    split(','), and any other tag comes back changed, split or
    dropped. *)
Theorem edit_unchanged (key : option Q) (m : TaskManager) (t : Task) :
  find key (tasks m) = Some t ->
  let m' := handleSaveEdit (dialogOf t) (openEditTask key m) in
  tasks m' = tasks m <-> Forall cleanTag (tags t).
Proof.
  intros Hf. cbv zeta. unfold openEditTask. rewrite Hf.
  unfold handleSaveEdit. cbn [currentEditingTask].
  match goal with
  | |- context [updateTask ?k ?u ?mm] =>
      destruct (updateTask_present k u mm t) as (l1 & l2 & E & _ & Eu)
  end.
  { cbn [tasks]. exact (find_own key _ _ Hf). }
  rewrite Eu. cbn [tasks] in E. cbn [snd]. unfold closeModal, showToast.
  cbn [tasks]. rewrite tasks_saveTasks, tasks_setTasks.
  fold (splitTags (modal_tags (dialogOf t))). cbn [dialogOf modal_tags
    modal_title modal_description modal_date modal_time modal_priority
    modal_category].
  rewrite E. split.
  - intros H. apply app_inv_head in H. injection H as H.
    apply (f_equal tags) in H. cbn [tags merge orOld u_tags] in H.
    rewrite <- H. apply splitTags_clean.
  - intros H. f_equal. f_equal. destruct t; unfold merge; simpl.
    simpl in H. now rewrite (splitTags_join _ H).
Qed.

Lemma edit_unchanged_witness :
  find (Some 3%Q) (tasks (sampleManager [tagged ["garden"; "weekly"]]))
  = Some (tagged ["garden"; "weekly"])
  /\ Forall cleanTag (tags (tagged ["garden"; "weekly"])).
Proof.
  assert (H : find (Some 3%Q)
                (tasks (sampleManager [tagged ["garden"; "weekly"]]))
              = Some (tagged ["garden"; "weekly"])) by reflexivity.
  split; [exact H|].
  apply (proj1 (edit_unchanged (Some 3%Q)
                  (sampleManager [tagged ["garden"; "weekly"]])
                  (tagged ["garden"; "weekly"]) H)).
  vm_compute. reflexivity.
Defined.

(** A tag with a comma in it, as a stored array can hold, comes back as
    two tags, and a tag of white space is dropped. *)
Example edit_splits_tags :
  map tags
    (tasks (handleSaveEdit (dialogOf (tagged ["a,b"; " "]))
              (openEditTask (Some 3%Q)
                 (sampleManager [tagged ["a,b"; " "]]))))
  = [["a"; "b"]].
Proof. vm_compute. reflexivity. Qed.

(** ** The status filter *)

(** X24: choosing a status filter changes nothing that is shown: the
    filtered and sorted sequence, the list sections made from it, the
    calendar and the counts are what they were, since no view reads the
    chosen status; a filter of a type other than status and category
    changes nothing at all. *)
Theorem setFilter_status_inert
    (tz : Z) (localeCompare : string -> string -> Z)
    (parseDate : string -> option Z) (now : Z)
    (searchInput sortBy value : string) (m : TaskManager) :
  let m' := setFilter "status" value m in
  getFilteredTasks localeCompare parseDate searchInput sortBy m'
  = getFilteredTasks localeCompare parseDate searchInput sortBy m
  /\ renderListView now
       (getFilteredTasks localeCompare parseDate searchInput sortBy m')
     = renderListView now
         (getFilteredTasks localeCompare parseDate searchInput sortBy m)
  /\ renderCalendarView tz parseDate now m'
     = renderCalendarView tz parseDate now m
  /\ (totalTasks m', completedTasks m', pendingTasks m')
     = (totalTasks m, completedTasks m, pendingTasks m)
  /\ localStorage m' = localStorage m
  /\ forall type, type <> "status" -> type <> "category" ->
                  setFilter type value m = m.
Proof.
  cbv zeta.
  assert (E : getFilteredTasks localeCompare parseDate searchInput sortBy
                (setFilter "status" value m)
              = getFilteredTasks localeCompare parseDate searchInput sortBy m)
    by reflexivity.
  split; [exact E|]. rewrite E.
  split; [reflexivity|]. split; [reflexivity|]. split; [reflexivity|].
  split; [reflexivity|].
  intros type H1 H2. unfold setFilter.
  destruct (String.eqb_spec type "status"); [contradiction|].
  destruct (String.eqb_spec type "category"); [contradiction|].
  reflexivity.
Qed.

(** ** Dates of the quick-text parser *)

(** In a zone with a constant offset, setting the day of the month to the
    next one moves a time by 24 hours. *)
Lemma setDateIn_fixed tz t :
  JsDate.setDateIn (JsDate.fixedZone tz) t
    (JsDate.getDateIn (JsDate.fixedZone tz) t + 1)
  = t + JsDate.msPerDay.
Proof.
  unfold JsDate.setDateIn, JsDate.getDateIn, JsDate.localTimeIn,
    JsDate.utcIn, JsDate.fixedZone.
  cbn [JsDate.offsetAt JsDate.offsetOfLocal].
  pose proof (days_from_civil_from_days
                (JsDate.Day (t + tz * JsDate.msPerMinute))) as Hv.
  destruct (JsDate.civil_from_days (JsDate.Day (t + tz * JsDate.msPerMinute)))
    as [[y mo] d].
  destruct Hv as (_ & _ & E).
  replace (d + 1 - 1) with (d - 1 + 1) by lia.
  rewrite Z.add_assoc, <- days_from_civil_day, E.
  unfold JsDate.Day, JsDate.msPerDay.
  Z.div_mod_to_equations. lia.
Qed.

(** X3: whatever the text and the time zone, the title the quick-text
    parser returns neither begins nor ends with white space, and the due
    date is absent, the UTC date of the current time, or the UTC date of
    the time that setDate(getDate() + 1) moves the current time to: one
    local calendar day later at the same local time of day, which in a
    zone with a constant offset is 24 hours later. *)
Theorem parseQuickTask_title_trimmed
    (zone : JsDate.Zone) (now : Z) (text : string) :
  let q := parseQuickTask zone now text in
  let tomorrow :=
    JsDate.setDateIn zone now (JsDate.getDateIn zone now + 1) in
  trimmed (q_title q)
  /\ (q_dueDate q = "" \/ q_dueDate q = JsDate.isoDate now
      \/ q_dueDate q = JsDate.isoDate tomorrow)
  /\ (forall tz, zone = JsDate.fixedZone tz ->
                 tomorrow = now + JsDate.msPerDay).
Proof.
  cbv zeta. split; [|split].
  - unfold trimmed. apply parseQuickTask_title_fixed.
  - unfold parseQuickTask.
    destruct (Regex.matchPriority text) as [[m0 m1]|];
      destruct (Regex.matchHash _) as [w|];
      destruct (Str.includes "today" _);
      destruct (Str.includes "tomorrow" _); simpl; auto.
  - intros tz ->. apply setDateIn_fixed.
Qed.

(** Across a change of the clocks the day reached is not 24 hours away:
    in the evening before the clocks go back, "tomorrow" is due on the
    UTC date two days after the UTC date of the current time. *)
Example parseQuickTask_clocks_back :
  q_dueDate (parseQuickTask easternZone eveningBefore "Call mom tomorrow")
  = "2024-11-04"
  /\ JsDate.isoDate eveningBefore = "2024-11-02"
  /\ JsDate.isoDate (eveningBefore + JsDate.msPerDay) = "2024-11-03".
Proof. split; [|split]; vm_compute; reflexivity. Qed.

(** ** Identifiers *)

(** The sum of the clock and the draw is rounded to a binary64 number, so
    two tasks added within one millisecond can get the same id: at a
    clock value of today the ids are multiples of 1/4096. *)
Example freshId_same_millisecond :
  freshId 1700000000000 (1 # 1048576) = freshId 1700000000000 (1 # 2097152)
  /\ freshId 1700000000000 (1 # 3) = (6963200000001365 # 4096)%Q.
Proof. split; vm_compute; reflexivity. Qed.
